(** * Agentic Compare: the dispatch-and-degrade engine

    A shallow embedding of the comparison engine of the repository:

    - the API server ([simulateAgent], [getMockResponse], [priceTable] and the
      four provider routes), and the earlier version of the server kept in
      the repository, with one helper per vendor ([Legacy]),
    - the browser-side adapter call ([runAgent] of [services/runAgent.js]),
    - the dispatcher and the aggregator of [App.jsx] ([buildComparisons],
      [aggregateHighlights]), its selection toggles and its text helpers.

    JavaScript values are embedded as the type [JsVal]: the values of JSON,
    [undefined], and the built-in objects that a read of an object literal
    reaches through its prototype.  A conversion that throws in JavaScript
    (of an object whose own [toString] hides the inherited one) returns
    [None].  Numbers are IEEE doubles in the program and are idealised here
    as rationals extended with NaN and the two infinities (rounding error and
    the negative zero are not represented); the integer sum of [pick] is
    rounded as a double.  Strings are sequences of 8-bit code units.
    Promises are embedded as a small free monad [Async] whose nodes are the
    effects the program performs (outbound request, timer, clock reading). *)

From Stdlib Require Import ZArith QArith Qround Lqa Ascii String DecimalString.
From stdpp Require Import base list strings gmap.

Local Open Scope string_scope.
#[local] Set Warnings "-register-all".

(** ** JavaScript values and the operators the program applies to them *)

Module Js.

(** The line feed and the double quote of template literals. *)
Definition nl : string := String "010"%char EmptyString.
Definition dq : string := String "034"%char EmptyString.

Inductive number : Type :=
| NaN
| Inf (negative : bool)
| Fin (q : Q).

Inductive JsVal : Type :=
| VUndef
| VNull
| VBool (b : bool)
| VNum (n : number)
| VStr (s : string)
| VArr (items : list JsVal)
| VObj (props : list (string * JsVal))
| VBuiltin (name : string).

Definition num (q : Q) : JsVal := VNum (Fin q).

(** [VObj] is an object made of data: its own properties are values of
    [JsVal], none of them callable.  [VBuiltin name] is what [Object.prototype]
    holds under [name]: a built-in function or, under [__proto__],
    [Object.prototype] itself.  Of such a value the program uses the truth
    value and the conversions only. *)

(** [new Error(msg)]: only the [message] property is read by the program. *)
Definition new_Error (msg : string) : JsVal := VObj [("message", VStr msg)].

(** *** Numbers *)

Definition Qltb (x y : Q) : bool := negb (Qle_bool y x).
Definition Qsign_neg (x : Q) : bool := Qltb x 0.

Definition nadd (a b : number) : number :=
  match a, b with
  | NaN, _ | _, NaN => NaN
  | Inf s, Inf t => if Bool.eqb s t then Inf s else NaN
  | Inf s, Fin _ | Fin _, Inf s => Inf s
  | Fin x, Fin y => Fin (x + y)
  end.

Definition nsub (a b : number) : number :=
  match a, b with
  | NaN, _ | _, NaN => NaN
  | Inf s, Inf t => if Bool.eqb s t then NaN else Inf s
  | Inf s, Fin _ => Inf s
  | Fin _, Inf t => Inf (negb t)
  | Fin x, Fin y => Fin (x - y)
  end.

Definition nmul (a b : number) : number :=
  match a, b with
  | NaN, _ | _, NaN => NaN
  | Inf s, Inf t => Inf (xorb s t)
  | Inf s, Fin y | Fin y, Inf s =>
      if Qeq_bool y 0 then NaN else Inf (xorb s (Qsign_neg y))
  | Fin x, Fin y => Fin (x * y)
  end.

Definition ndiv (a b : number) : number :=
  match a, b with
  | NaN, _ | _, NaN => NaN
  | Inf _, Inf _ => NaN
  | Inf s, Fin y => Inf (xorb s (Qsign_neg y))
  | Fin _, Inf _ => Fin 0
  | Fin x, Fin y =>
      if Qeq_bool y 0
      then (if Qeq_bool x 0 then NaN else Inf (Qsign_neg x))
      else Fin (x / y)
  end.

(** [a < b] on numbers: false as soon as one side is NaN. *)
Definition nlt (a b : number) : bool :=
  match a, b with
  | NaN, _ | _, NaN => false
  | Inf s, Inf t => s && negb t
  | Inf s, Fin _ => s
  | Fin _, Inf t => negb t
  | Fin x, Fin y => Qltb x y
  end.

(** [Math.round]: the nearest integer, a tie going towards plus infinity. *)
Definition Math_round (a : number) : number :=
  match a with
  | Fin x => Fin (inject_Z (Qfloor (x + (1 # 2))))
  | other => other
  end.

(** *** Truthiness, [||] and [??] *)

Definition truthy (v : JsVal) : bool :=
  match v with
  | VUndef | VNull => false
  | VBool b => b
  | VNum NaN => false
  | VNum (Inf _) => true
  | VNum (Fin q) => negb (Qeq_bool q 0)
  | VStr s => negb (String.eqb s EmptyString)
  | VArr _ | VObj _ | VBuiltin _ => true
  end.

Definition js_or (a b : JsVal) : JsVal := if truthy a then a else b.

Definition nullish (v : JsVal) : bool :=
  match v with VUndef | VNull => true | _ => false end.

Definition js_nullish (a b : JsVal) : JsVal := if nullish a then b else a.

(** *** Property reads, for the named keys the program reads (none of them
    a name that a prototype defines).  [None] is the TypeError of reading a
    property of [undefined] or [null]. *)

Fixpoint assoc (k : string) (props : list (string * JsVal)) : JsVal :=
  match props with
  | [] => VUndef
  | (k', v) :: rest => if String.eqb k k' then v else assoc k rest
  end.

(** [Object.hasOwn(obj, k)] *)
Definition has_own (k : string) (props : list (string * JsVal)) : bool :=
  existsb (fun p => String.eqb k p.1) props.

Definition js_get (v : JsVal) (k : string) : option JsVal :=
  match v with
  | VUndef | VNull => None
  | VObj props => Some (assoc k props)
  | VArr items =>
      Some (if String.eqb k "length"
            then num (inject_Z (Z.of_nat (length items))) else VUndef)
  | VStr s =>
      Some (if String.eqb k "length"
            then num (inject_Z (Z.of_nat (String.length s))) else VUndef)
  | VBool _ | VNum _ | VBuiltin _ => Some VUndef
  end.

(** [v[0]]. *)
Definition js_first (v : JsVal) : option JsVal :=
  match v with
  | VUndef | VNull => None
  | VObj props => Some (assoc "0" props)
  | VArr items => Some (default VUndef (head items))
  | VStr (String c _) => Some (VStr (String c EmptyString))
  | VStr EmptyString | VBool _ | VNum _ | VBuiltin _ => Some VUndef
  end.

(** [v?.k] *)
Definition js_get_opt (v : JsVal) (k : string) : JsVal :=
  default VUndef (js_get v k).

(** *** Strings *)

Definition is_space (c : ascii) : bool :=
  let n := nat_of_ascii c in
  ((9 <=? n) && (n <=? 13))%nat || (n =? 32)%nat || (n =? 160)%nat.

Fixpoint trimStart (s : string) : string :=
  match s with
  | EmptyString => EmptyString
  | String c s' => if is_space c then trimStart s' else s
  end.

Fixpoint trimEnd (s : string) : string :=
  match s with
  | EmptyString => EmptyString
  | String c s' =>
      match trimEnd s' with
      | EmptyString => if is_space c then EmptyString else String c EmptyString
      | t => String c t
      end
  end.

Definition trim (s : string) : string := trimEnd (trimStart s).

Fixpoint filter_chars (keep : ascii -> bool) (s : string) : string :=
  match s with
  | EmptyString => EmptyString
  | String c s' =>
      if keep c then String c (filter_chars keep s') else filter_chars keep s'
  end.

Definition in_range (lo hi : nat) (c : ascii) : bool :=
  let n := nat_of_ascii c in ((lo <=? n) && (n <=? hi))%nat.

(** The character class [a-zA-Z0-9-]. *)
Definition key_char (c : ascii) : bool :=
  in_range 97 122 c || in_range 65 90 c || in_range 48 57 c
  || (nat_of_ascii c =? 45)%nat.

Definition startsWith (s pre : string) : bool := String.prefix pre s.

Fixpoint includes (s needle : string) : bool :=
  String.prefix needle s
  || match s with
     | EmptyString => false
     | String _ s' => includes s' needle
     end.

Definition join (sep : string) (parts : list string) : string :=
  String.concat sep parts.

(** *** Reads of an object literal by a computed key *)

(** The names that [Object.prototype] defines. *)
Definition Object_prototype_keys : list string :=
  ["constructor"; "__defineGetter__"; "__defineSetter__"; "hasOwnProperty";
   "__lookupGetter__"; "__lookupSetter__"; "isPrototypeOf";
   "propertyIsEnumerable"; "toString"; "valueOf"; "__proto__";
   "toLocaleString"].

(** What a key that is not an own key of an object literal reads: the
    built-in that [Object.prototype] holds under it, or [undefined]. *)
Definition inherited (key : string) : JsVal :=
  if bool_decide (key ∈ Object_prototype_keys) then VBuiltin key else VUndef.

(** [table[key]] for an object literal with the own properties [table]. *)
Definition literal_get {A : Type} (own : A -> JsVal) (table : gmap string A)
    (key : string) : JsVal :=
  match table !! key with
  | Some a => own a
  | None => inherited key
  end.

(** *** Conversions.  The built-ins of the engine that the repository calls
    but does not define are the fields of [Runtime]. *)

Class Runtime : Type := {
  JSON_parse : string -> option JsVal;      (* [None]: SyntaxError *)
  Number_toString : Q -> string;
  Number_toFixed : number -> nat -> string;
  StringToNumber : string -> number;
  Function_toString : string -> string;     (* the text of a built-in function *)
}.

Section Conversions.
Context {rt : Runtime}.

Definition number_text (n : number) : string :=
  match n with
  | NaN => "NaN"
  | Inf false => "Infinity"
  | Inf true => "-Infinity"
  | Fin q => Number_toString q
  end.

(** The text of a built-in of [Object.prototype]: [Object.prototype] itself
    prints as a plain object, a function as the engine prints it. *)
Definition builtin_text (name : string) : string :=
  if String.eqb name "__proto__" then "[object Object]"
  else Function_toString name.

(** [String(v)], the conversion of template literals and of property keys.
    [None] is the TypeError thrown for an object with an own [toString]
    property: being data it is not callable, and neither it nor [valueOf]
    yields a primitive. *)
Fixpoint ToString (v : JsVal) : option string :=
  match v with
  | VUndef => Some "undefined"
  | VNull => Some "null"
  | VBool true => Some "true"
  | VBool false => Some "false"
  | VNum n => Some (number_text n)
  | VStr s => Some s
  | VArr items =>
      join ","
        <$> mapM (fun x => if nullish x then Some EmptyString else ToString x)
                 items
  | VObj props =>
      if has_own "toString" props then None else Some "[object Object]"
  | VBuiltin name => Some (builtin_text name)
  end.

(** For an object, [valueOf] returns the object itself, so the primitive is
    the text that [toString] returns. *)
Definition ToPrimitive (v : JsVal) : option JsVal :=
  match v with
  | VArr _ | VObj _ | VBuiltin _ => VStr <$> ToString v
  | _ => Some v
  end.

(** The text of a built-in is not a numeric literal. *)
Definition ToNumber (v : JsVal) : option number :=
  match v with
  | VUndef => Some NaN
  | VNull => Some (Fin 0)
  | VBool true => Some (Fin 1)
  | VBool false => Some (Fin 0)
  | VNum n => Some n
  | VStr s => Some (StringToNumber s)
  | VArr _ | VObj _ => StringToNumber <$> ToString v
  | VBuiltin _ => Some NaN
  end.

Definition is_string (v : JsVal) : bool :=
  match v with VStr _ => true | _ => false end.

(** [a + b] *)
Definition js_add (a b : JsVal) : option JsVal :=
  pa ← ToPrimitive a;
  pb ← ToPrimitive b;
  if is_string pa || is_string pb
  then sa ← ToString pa; sb ← ToString pb; Some (VStr (sa +:+ sb))
  else na ← ToNumber pa; nb ← ToNumber pb; Some (VNum (nadd na nb)).

(** [a * b], [a / b] *)
Definition js_mul (a b : JsVal) : option JsVal :=
  na ← ToNumber a; nb ← ToNumber b; Some (VNum (nmul na nb)).
Definition js_div (a b : JsVal) : option JsVal :=
  na ← ToNumber a; nb ← ToNumber b; Some (VNum (ndiv na nb)).

(** [a < b] and [a > b] *)
Definition js_lt (a b : JsVal) : option bool :=
  pa ← ToPrimitive a;
  pb ← ToPrimitive b;
  match pa, pb with
  | VStr s, VStr t => Some (String.ltb s t)
  | _, _ => na ← ToNumber pa; nb ← ToNumber pb; Some (nlt na nb)
  end.
Definition js_gt (a b : JsVal) : option bool := js_lt b a.

(** [Math.round(v)] *)
Definition js_round (v : JsVal) : option JsVal :=
  n ← ToNumber v; Some (VNum (Math_round n)).

(** [+x.toFixed(digits)] for a number [x] *)
Definition toFixed_number (x : number) (digits : nat) : JsVal :=
  VNum (StringToNumber (Number_toFixed x digits)).

End Conversions.

End Js.

(** ** Promises *)

Module Promise.
Import Js.

Inductive Settled (A : Type) : Type :=
| Fulfilled (value : A)
| Rejected (reason : JsVal).
Arguments Fulfilled {A} value.
Arguments Rejected {A} reason.

Record Request : Type := {
  url : string;
  method : string;
  headers : list (string * string);
  body : JsVal;                 (* the object handed to [JSON.stringify] *)
}.

(** What the program reads from a response: [status], and the promises
    returned by [res.text()] and [res.json()]. *)
Record Response : Type := {
  status : Z;
  text : Settled string;
  json : Settled JsVal;
}.

Definition ok (res : Response) : bool :=
  (200 <=? status res)%Z && (status res <=? 299)%Z.

(** An [async] function body: the value it resolves to, the exception it
    rejects with, or an effect and the rest of the body. *)
Inductive Async (A : Type) : Type :=
| Ret (a : A)
| Throw (e : JsVal)
| Sleep (ms : Z) (k : Async A)
| Now (k : number -> Async A)
| Fetch (req : Request) (k : Settled Response -> Async A).
Arguments Ret {A} a.
Arguments Throw {A} e.
Arguments Sleep {A} ms k.
Arguments Now {A} k.
Arguments Fetch {A} req k.

Fixpoint bind {A B : Type} (m : Async A) (f : A -> Async B) : Async B :=
  match m with
  | Ret a => f a
  | Throw e => Throw e
  | Sleep ms k => Sleep ms (bind k f)
  | Now k => Now (fun t => bind (k t) f)
  | Fetch req k => Fetch req (fun r => bind (k r) f)
  end.

(** [try { m } catch (err) { h err }] *)
Fixpoint try_catch {A : Type} (m : Async A) (h : JsVal -> Async A) : Async A :=
  match m with
  | Ret a => Ret a
  | Throw e => h e
  | Sleep ms k => Sleep ms (try_catch k h)
  | Now k => Now (fun t => try_catch (k t) h)
  | Fetch req k => Fetch req (fun r => try_catch (k r) h)
  end.

(** [await p] for a promise that is already settled. *)
Definition await {A : Type} (p : Settled A) : Async A :=
  match p with
  | Fulfilled a => Ret a
  | Rejected e => Throw e
  end.

(** A step that throws a TypeError when the property chain breaks. *)
Definition or_throw {A : Type} (o : option A) (e : JsVal) : Async A :=
  match o with
  | Some a => Ret a
  | None => Throw e
  end.

Definition fetch (req : Request) : Async Response :=
  Fetch req await.

Definition performance_now : Async number := Now Ret.

(** [x ← m; k] is [const x = await m; k]. *)
#[export] Instance Async_ret : MRet Async := @Ret.
#[export] Instance Async_bind : MBind Async := fun A B f m => bind m f.

(** The environment of one call: what the network answers to a request and
    what the clock shows at its successive readings. *)
Record World : Type := {
  net : Request -> Settled Response;
  clock : nat -> number;
}.

Inductive Event : Type :=
| EvSleep (ms : Z)
| EvFetch (req : Request).

(** Running a body to completion: the effects it performed, in order, and
    how its promise settled. *)
Fixpoint run_from {A : Type} (w : World) (tick : nat) (m : Async A)
  : list Event * Settled A :=
  match m with
  | Ret a => ([], Fulfilled a)
  | Throw e => ([], Rejected e)
  | Sleep ms k =>
      let '(evs, r) := run_from w tick k in (EvSleep ms :: evs, r)
  | Now k => run_from w (S tick) (k (clock w tick))
  | Fetch req k =>
      let '(evs, r) := run_from w tick (k (net w req)) in (EvFetch req :: evs, r)
  end.

Definition run {A : Type} (w : World) (m : Async A) : list Event * Settled A :=
  run_from w 0 m.

Definition is_fetch (e : Event) : bool :=
  match e with EvFetch _ => true | EvSleep _ => false end.

End Promise.

(** ** The API server: pricing table, mock response, simulated agent *)

Module Server.
Import Js Promise.

Section Server.
Context {rt : Runtime}.

(** The values the engine throws on a broken property chain and on
    unparseable JSON; the adapter only logs them. *)
Definition TypeError : JsVal := new_Error "TypeError".
Definition SyntaxError : JsVal := new_Error "SyntaxError".

Definition priceTable : gmap string Q :=
  list_to_map
    [("gpt-41", 0.004%Q); ("claude-37", 0.0035%Q);
     ("llama-33", 0.0015%Q); ("gemini-20", 0.002%Q)].

(** [priceTable[model]]: the key is the text of [model]; a key that the
    table does not list reads what [Object.prototype] holds under it. *)
Definition priceTable_at (model : JsVal) : option JsVal :=
  key ← ToString model;
  Some (literal_get num priceTable key).

Definition sleep (ms : Z) : Async unit := Sleep ms (Ret tt).

Definition mock_output (framework : string) (task : string) : string :=
  "[MOCK " +:+ framework +:+ " OUTPUT for " +:+ dq +:+ task +:+ dq
  +:+ "]" +:+ nl +:+ nl
  +:+ "This is a simulated response because no valid OpenAI key was found (or the key failed)."
  +:+ nl +:+ nl +:+ "Simulated reasoning:" +:+ nl
  +:+ "- Step 1: Mapped task to " +:+ framework +:+ " nodes." +:+ nl
  +:+ "- Step 2: Executed graph." +:+ nl
  +:+ "- Step 3: Verified output.".

(** The record of [getMockResponse], for the text that the template literal
    prints for the task. *)
Definition mock_record (framework : string) (task : string) : JsVal :=
  VObj
    [("output", VStr (mock_output framework task));
     ("tokens", num 250);
     ("cost", num 0.0025);
     ("steps", VArr [VStr ("Initialized " +:+ framework); VStr "Processed Input";
                     VStr "Generated Response"; VStr "Finalized"]);
     ("quality", num 95);
     ("coverage", num 98);
     ("safety", num 100);
     ("metrics", VObj [("latency", num 1.5); ("tokens", num 250);
                       ("cost", num 0.0025); ("quality", num 95);
                       ("coverage", num 98); ("safety", num 100)])].

Definition getMockResponse (framework : string) (task : JsVal)
    (styles : list string) : Async JsVal :=
  _ ← sleep 100;
  text ← or_throw (ToString task) TypeError;
  mret (mock_record framework text).

(** How the promise of [getMockResponse] settles. *)
Definition mock_settles (framework : string) (task : JsVal) : Settled JsVal :=
  match ToString task with
  | Some text => Fulfilled (mock_record framework text)
  | None => Rejected TypeError
  end.

Definition systemPrompt (framework : string) (styles : list string)
    (stepsHint : string) : string :=
  join nl
    [EmptyString;
     "    You are a simulator for a multi-agent framework called " +:+ dq
       +:+ framework +:+ dq +:+ ".";
     "    Your goal is to run the user's task as if you were that framework, using the persona and logging style of that framework.";
     "    ";
     "    Framework Traits: " +:+ join ", " styles +:+ ".";
     "    Typical Process: " +:+ stepsHint +:+ ".";
     "    ";
     "    Output Format:";
     "    Return a JSON object (and ONLY JSON) with:";
     "    {";
     "      " +:+ dq +:+ "output" +:+ dq +:+ ": " +:+ dq
       +:+ "The final textual answer to the user's task." +:+ dq +:+ ",";
     "      " +:+ dq +:+ "steps" +:+ dq +:+ ": [" +:+ dq
       +:+ "List of 4-6 short descriptions of what the agents did internally"
       +:+ dq +:+ "],";
     "      " +:+ dq +:+ "logs" +:+ dq +:+ ": " +:+ dq
       +:+ "A short simulated log stream showing agent chatter or graph execution."
       +:+ dq +:+ ",";
     "      " +:+ dq +:+ "quality" +:+ dq
       +:+ ": <number 0-100 based on how well you think you solved it>,";
     "      " +:+ dq +:+ "coverage" +:+ dq
       +:+ ": <number 0-100 based on completeness>";
     "    }";
     "    "].

(** The request, for the texts that the template literal of the user message
    prints for the task and the model. *)
Definition openai_request (apiKey : string) (prompt : string)
    (task model : string) : Request :=
  {| url := "https://api.openai.com/v1/chat/completions";
     method := "POST";
     headers := [("Content-Type", "application/json");
                 ("Authorization", "Bearer " +:+ apiKey)];
     body :=
       VObj
         [("model", VStr "gpt-4o");
          ("messages",
            VArr [VObj [("role", VStr "system"); ("content", VStr prompt)];
                  VObj [("role", VStr "user");
                        ("content",
                          VStr ("Task: " +:+ task +:+ nl
                                +:+ "Target Model Simulated: "
                                +:+ model))]]);
          ("response_format", VObj [("type", VStr "json_object")]);
          ("max_tokens", num 1000)] |}.

(** [rawKey] and [apiKey] of [simulateAgent]. *)
Definition rawKey_of (OPENAI_API_KEY : option string) : string :=
  match OPENAI_API_KEY with
  | Some k => if truthy (VStr k) then trim k else EmptyString
  | None => EmptyString
  end.

Definition apiKey_of (rawKey : string) : string := filter_chars key_char rawKey.

(** The guard that sends a call to the mock without any request. *)
Definition key_unusable (OPENAI_API_KEY : option string) : bool :=
  let rawKey := rawKey_of OPENAI_API_KEY in
  let apiKey := apiKey_of rawKey in
  negb (truthy (VStr apiKey))
  || negb (startsWith apiKey "sk-")
  || String.eqb apiKey "sk-placeholder"
  || includes rawKey "placeholder".

(** The statements of the [try] block after a 2xx response. *)
Definition live_record (res : Response) (model : JsVal) : Async JsVal :=
  data ← await (json res);
  choices ← or_throw (js_get data "choices") TypeError;
  choice ← or_throw (js_first choices) TypeError;
  message ← or_throw (js_get choice "message") TypeError;
  content ← or_throw (js_get message "content") TypeError;
  text ← or_throw (ToString content) TypeError;
  result ← or_throw (JSON_parse text) SyntaxError;
  usage ← or_throw (js_get data "usage") TypeError;
  tokens ← or_throw (js_get usage "total_tokens") TypeError;
  thousandth ← or_throw (js_div tokens (num 1000)) TypeError;
  rate ← or_throw (priceTable_at model) TypeError;
  estimatedCost ← or_throw (js_mul thousandth (js_or rate (num 0.002))) TypeError;
  output ← or_throw (js_get result "output") TypeError;
  headed ← or_throw
    (js_add output (VStr (nl +:+ nl +:+ "---" +:+ nl +:+ "LOGS:" +:+ nl)))
    TypeError;
  logs ← or_throw (js_get result "logs") TypeError;
  full ← or_throw (js_add headed logs) TypeError;
  steps ← or_throw (js_get result "steps") TypeError;
  quality ← or_throw (js_get result "quality") TypeError;
  coverage ← or_throw (js_get result "coverage") TypeError;
  mret (VObj
    [("output", full);
     ("tokens", tokens);
     ("cost", estimatedCost);
     ("steps", steps);
     ("quality", js_or quality (num 85));
     ("coverage", js_or coverage (num 90));
     ("safety", num 95)]).

(** The template literal of the user message prints the task and the model
    before the request is sent.  (The promise that [return getMockResponse]
    hands over from inside the [try] is not awaited there; it is fulfilled,
    since the task has been printed by then.) *)
Definition simulateAgent (OPENAI_API_KEY : option string)
    (task model : JsVal) (framework : string) (styles : list string)
    (stepsHint : string) : Async JsVal :=
  let rawKey := rawKey_of OPENAI_API_KEY in
  let apiKey := apiKey_of rawKey in
  if key_unusable OPENAI_API_KEY
  then getMockResponse framework task styles
  else
    try_catch
      (taskText ← or_throw (ToString task) TypeError;
       modelText ← or_throw (ToString model) TypeError;
       res ← fetch (openai_request apiKey
                      (systemPrompt framework styles stepsHint)
                      taskText modelText);
       if negb (ok res)
       then
         err ← await (text res);
         if (status res =? 401)%Z || (status res =? 429)%Z
            || includes err "invalid_api_key"
         then getMockResponse framework task styles
         else Throw (new_Error ("OpenAI error: " +:+ err))
       else live_record res model)
      (fun err => getMockResponse framework task styles).

(** What a 2xx response reports, along the property chains the adapter
    follows: the parsed [result] and [data.usage.total_tokens]. *)
Definition upstream_result (res : Response) : option JsVal :=
  match json res with
  | Fulfilled data =>
      choices ← js_get data "choices";
      choice ← js_first choices;
      message ← js_get choice "message";
      content ← js_get message "content";
      text ← ToString content;
      JSON_parse text
  | Rejected _ => None
  end.

Definition upstream_tokens (res : Response) : option JsVal :=
  match json res with
  | Fulfilled data => usage ← js_get data "usage"; js_get usage "total_tokens"
  | Rejected _ => None
  end.

(** The request of a call, when the task and the model have a text, and the
    success of its live path: the key passes the guard, the upstream answers
    2xx to the request and the [try] block reaches its [return] with the
    record [r]. *)
Definition request_of (OPENAI_API_KEY : option string) (task model : JsVal)
    (framework : string) (styles : list string) (stepsHint : string)
  : option Request :=
  taskText ← ToString task;
  modelText ← ToString model;
  Some (openai_request (apiKey_of (rawKey_of OPENAI_API_KEY))
          (systemPrompt framework styles stepsHint) taskText modelText).

Definition live_success (w : World) (OPENAI_API_KEY : option string)
    (task model : JsVal) (framework : string) (styles : list string)
    (stepsHint : string) (res : Response) (r : JsVal) : Prop :=
  key_unusable OPENAI_API_KEY = false
  ∧ (∃ req,
       request_of OPENAI_API_KEY task model framework styles stepsHint = Some req
       ∧ net w req = Fulfilled res)
  ∧ ok res = true
  ∧ live_record res model = Ret r.

(** The rate the pricing table defines for a model identifier, with the
    fallback of the adapter. *)
Definition rate_of (model : string) : Q :=
  default 0.002%Q (priceTable !! model).

(** The credentials that the guard turns away. *)
Definition credential_absent (OPENAI_API_KEY : option string) : Prop :=
  match OPENAI_API_KEY with
  | None => True
  | Some k => trim k = EmptyString
  end.

Definition credential_placeholder (OPENAI_API_KEY : option string) : Prop :=
  includes (rawKey_of OPENAI_API_KEY) "placeholder" = true
  ∨ apiKey_of (rawKey_of OPENAI_API_KEY) = "sk-placeholder".

Definition credential_malformed (OPENAI_API_KEY : option string) : Prop :=
  startsWith (apiKey_of (rawKey_of OPENAI_API_KEY)) "sk-" = false.

(** The record the specification describes for an unrecoverable upstream
    failure. *)
Definition minimal_error_record (r : JsVal) : Prop :=
  js_get r "tokens" = Some (num 0)
  ∧ js_get r "cost" = Some (num 0)
  ∧ js_get r "quality" = Some (num 0)
  ∧ js_get r "coverage" = Some (num 0)
  ∧ js_get r "safety" = Some (num 0)
  ∧ js_get r "steps" = Some (VArr [])
  ∧ (∃ e, js_get r "error" = Some e ∧ truthy e = true).

(** The four provider routes; each answers with [res.json(result)]. *)
Definition api_langgraph (key : option string) (task modelId : JsVal) :=
  simulateAgent key task modelId "LangGraph"
    ["Graph-structured"; "Cyclic"; "Stateful"; "Precise control flow"]
    "Define Graph State -> Node: Retrieve -> Node: Grade check -> Node: Generate -> Edge: End".

Definition api_autogen (key : option string) (task modelId : JsVal) :=
  simulateAgent key task modelId "AutoGen"
    ["Conversational"; "Multi-agent chat"; "Negotiation"; "Verbose"]
    "UserProxy initiates -> Assistant replies -> UserProxy critiques -> Assistant refines -> Termination".

Definition api_crewai (key : option string) (task modelId : JsVal) :=
  simulateAgent key task modelId "CrewAI"
    ["Role-playing"; "Task delegation"; "Hierarchical"; "Structured"]
    "Researcher gathers info -> Manager delegates -> Writer compiles -> Reviewer approves".

Definition api_llamaindex (key : option string) (task modelId : JsVal) :=
  simulateAgent key task modelId "LlamaIndex"
    ["Data-centric"; "Retrieval-augmented"; "Query engine"; "Synthesizer"]
    "Query breakdown -> Retrieve nodes -> Rerank results -> Synthesize response".

End Server.
End Server.

(** ** The browser side: [services/runAgent.js] *)

Module Client.
Import Js Promise.

Record Metrics : Type := {
  latency : JsVal;
  tokens : JsVal;
  cost : JsVal;
  quality : JsVal;
  coverage : JsVal;
  safety : JsVal;               (* [VUndef] when the literal has no such key *)
}.

Record AgentResult : Type := {
  output : JsVal;
  steps : JsVal;
  metrics : Metrics;
}.

Section Client.
Context {rt : Runtime}.

(** The value thrown by a property read on [null]; its message is the
    engine's. *)
Definition TypeError : JsVal := new_Error "TypeError".

(** The own properties of the literal; a read by a computed key also
    reaches [Object.prototype]. *)
Definition PROVIDER_MAP : gmap string string :=
  list_to_map
    [("langgraph", "/api/langgraph"); ("autogen", "/api/autogen");
     ("crewai", "/api/crewai"); ("llamaindex", "/api/llamaindex")].

Definition provider_request (endpoint task modelId : string) : Request :=
  {| url := endpoint;
     method := "POST";
     headers := [("Content-Type", "application/json")];
     body := VObj [("task", VStr task); ("modelId", VStr modelId)] |}.

(** [fetch] takes the text of its first argument as the address. *)
Definition runAgent (task frameworkId modelId : string) : Async AgentResult :=
  start ← performance_now;
  let endpoint := literal_get VStr PROVIDER_MAP frameworkId in
  if negb (truthy endpoint)
  then Throw (new_Error ("No endpoint for " +:+ frameworkId))
  else
    address ← or_throw (ToString endpoint) TypeError;
    res ← fetch (provider_request address task modelId);
    if negb (ok res)
    then Throw (new_Error ("Provider error: "
                           +:+ number_text (Fin (inject_Z (status res)))))
    else
      data ← await (json res);
      finish ← performance_now;
      let latency := toFixed_number (ndiv (nsub finish start) (Fin 1000)) 1 in
      data_output ← or_throw (js_get data "output") TypeError;
      data_steps ← or_throw (js_get data "steps") TypeError;
      data_tokens ← or_throw (js_get data "tokens") TypeError;
      data_cost ← or_throw (js_get data "cost") TypeError;
      data_quality ← or_throw (js_get data "quality") TypeError;
      data_coverage ← or_throw (js_get data "coverage") TypeError;
      data_safety ← or_throw (js_get data "safety") TypeError;
      mret {| output := data_output;
              steps := js_nullish data_steps (VArr []);
              metrics :=
                {| latency := latency;
                   tokens := js_nullish data_tokens (num 0);
                   cost := js_nullish data_cost (num 0);
                   quality := js_nullish data_quality (num 0);
                   coverage := js_nullish data_coverage (num 0);
                   safety := js_nullish data_safety (num 0) |} |}.

End Client.
End Client.

(** ** The application: catalogues, aggregator, dispatcher ([App.jsx]) *)

Module App.
Import Js Promise Client.

Record Framework : Type := {
  fw_id : string;
  fw_name : string;
  accent : string;
  description : string;
  strengths : list string;
}.

Record Model : Type := {
  m_id : string;
  m_name : string;
  vendor : string;
  costPer1k : Q;
  style : string;
}.

Definition langgraph : Framework :=
  {| fw_id := "langgraph"; fw_name := "LangGraph"; accent := "#8ef1ff";
     description := "Graph-first control with tool-calling and guardrails.";
     strengths := ["branch-safe"; "memory aware"; "deterministic"] |}.

Definition autogen : Framework :=
  {| fw_id := "autogen"; fw_name := "AutoGen"; accent := "#f5c66d";
     description :=
       "Conversational multi-agent orchestration with swappable runtimes.";
     strengths := ["negotiation"; "lightweight"; "multi-round"] |}.

Definition crewai : Framework :=
  {| fw_id := "crewai"; fw_name := "CrewAI"; accent := "#c7a0ff";
     description := "Role-based agent crews with task decomposition and reviews.";
     strengths := ["role clarity"; "reviews"; "handoffs"] |}.

Definition llamaindex : Framework :=
  {| fw_id := "llamaindex"; fw_name := "LlamaIndex"; accent := "#7df1c3";
     description := "Retrieval-centric agent graphs with observability hooks.";
     strengths := ["retrieval"; "evaluations"; "schema aware"] |}.

Definition frameworks : list Framework :=
  [langgraph; autogen; crewai; llamaindex].

Definition gpt_41 : Model :=
  {| m_id := "gpt-41"; m_name := "GPT-4.1"; vendor := "OpenAI";
     costPer1k := 0.004%Q; style := "analysis" |}.

Definition claude_37 : Model :=
  {| m_id := "claude-37"; m_name := "Claude 3.7 Sonnet"; vendor := "Anthropic";
     costPer1k := 0.0035%Q; style := "reasoned" |}.

Definition llama_33 : Model :=
  {| m_id := "llama-33"; m_name := "Llama 3.3 70B"; vendor := "Meta";
     costPer1k := 0.0015%Q; style := "open-weight" |}.

Definition gemini_20 : Model :=
  {| m_id := "gemini-20"; m_name := "Gemini 2.0 Flash"; vendor := "Google";
     costPer1k := 0.002%Q; style := "speed" |}.

Definition models : list Model := [gpt_41; claude_37; llama_33; gemini_20].

(** An element of the [runs] state.  [fw] and [m] are the keys spread in from
    the fulfilled value; [error] and [loading] read [VUndef] when absent. *)
Record Run : Type := {
  id : string;
  framework : Framework;
  model : Model;
  fw : option Framework;
  m : option Model;
  run_output : JsVal;
  run_steps : JsVal;
  run_metrics : Metrics;
  error : JsVal;
  loading : JsVal;
}.

(** [{}] or [{ fastest, cheapest, highestQuality, averageTokens }]; a field
    holding [None] is a key whose value is [undefined]. *)
Inductive Highlights : Type :=
| NoData
| Summary (fastest cheapest highestQuality : option Run) (averageTokens : JsVal).

Section App.
Context {rt : Runtime}.

(** [list.reduce((best, run) => (better run best ? run : best), list[0])].
    The outer [None] is the TypeError of a comparison that throws, or of
    reading the metrics of an undefined [best]; the inner one is
    [undefined]. *)
Definition reduce_best (better : Run -> Run -> option bool) (list : list Run)
  : option (option Run) :=
  foldl (fun (acc : option (option Run)) (run : Run) =>
           best ← acc;
           b ← best;
           keep ← better run b;
           Some (Some (if keep : bool then run else b)))
        (Some (head list)) list.

(** [None]: the aggregator throws a TypeError. *)
Definition aggregateHighlights (runs : list Run) : option Highlights :=
  if (length runs =? 0)%nat then Some NoData
  else
    let validRuns := base.filter (fun r => truthy (error r) = false) runs in
    if (length validRuns =? 0)%nat then Some NoData
    else
      fastest ←
        reduce_best (fun run best =>
          js_lt (latency (run_metrics run)) (latency (run_metrics best))) validRuns;
      cheapest ←
        reduce_best (fun run best =>
          js_lt (cost (run_metrics run)) (cost (run_metrics best))) validRuns;
      highestQuality ←
        reduce_best (fun run best =>
          js_gt (quality (run_metrics run)) (quality (run_metrics best))) validRuns;
      total ←
        foldl (fun acc run => sum ← acc; js_add sum (tokens (run_metrics run)))
              (Some (num 0)) validRuns;
      quotient ← js_div total (num (inject_Z (Z.of_nat (length validRuns))));
      averageTokens ← js_round quotient;
      Some (Summary fastest cheapest highestQuality averageTokens).

(** [Promise.allSettled]: the slot of a promise is written when that promise
    settles; the result is delivered once every slot is written.  [order]
    lists the promises in the order in which they settle. *)
Definition settle {A : Type} (outcomes : list (Settled A))
    (slots : list (option (Settled A))) (i : nat) : list (option (Settled A)) :=
  match outcomes !! i with
  | Some o => <[i := Some o]> slots
  | None => slots
  end.

Definition Promise_allSettled {A : Type} (outcomes : list (Settled A))
    (order : list nat) : option (list (Settled A)) :=
  mapM (fun slot => slot)
       (foldl (settle outcomes) (replicate (length outcomes) None) order).

Definition pickedFrameworks (nextFrameworks : list string) : list Framework :=
  base.filter (fun fw => fw_id fw ∈ nextFrameworks) frameworks.

Definition pickedModels (nextModels : list string) : list Model :=
  base.filter (fun m => m_id m ∈ nextModels) models.

Definition combos_of (nextFrameworks nextModels : list string)
  : list (Framework * Model) :=
  pickedFrameworks nextFrameworks
    ≫= (fun fw => (fun m => (fw, m)) <$> pickedModels nextModels).

(** [runAgent(...).then((res) => ({ fw, m, ...res }))] for one combination. *)
Definition combo_call (nextTask : string) (c : Framework * Model)
  : Async (Framework * Model * AgentResult) :=
  res ← runAgent nextTask (fw_id c.1) (m_id c.2);
  mret (c.1, c.2, res).

(** The callback of [results.map]. *)
Definition to_run (c : Framework * Model)
    (res : Settled (Framework * Model * AgentResult)) : Run :=
  let '(fw, m) := c in
  match res with
  | Fulfilled (vfw, vm, value) =>
      {| id := fw_id fw +:+ "-" +:+ m_id m; framework := fw; model := m;
         fw := Some vfw; m := Some vm;
         run_output := output value; run_steps := steps value;
         run_metrics := metrics value;
         error := VUndef; loading := VUndef |}
  | Rejected reason =>
      {| id := fw_id fw +:+ "-" +:+ m_id m; framework := fw; model := m;
         fw := None; m := None;
         error := js_or (js_get_opt reason "message") (VStr "Failed");
         run_metrics :=
           {| latency := num 0; tokens := num 0; cost := num 0;
              quality := num 0; coverage := num 0; safety := VUndef |};
         run_steps := VArr [];
         run_output := VStr "Error";
         loading := VUndef |}
  end.

(** The first [setRuns] of [buildComparisons]. *)
Definition mark_loading (prev : list Run) : list Run :=
  (fun r =>
     {| id := id r; framework := framework r; model := model r;
        fw := fw r; m := m r; run_output := run_output r;
        run_steps := run_steps r; run_metrics := run_metrics r;
        error := error r; loading := VBool true |}) <$> prev.

(** The list handed to the last [setRuns].  The [i]-th call runs in the world
    [worlds i]; [None] while [Promise.allSettled] is pending, or when
    [combos[i]] cannot be destructured. *)
Definition buildComparisons (worlds : nat -> World) (order : list nat)
    (nextTask : string) (nextFrameworks nextModels : list string)
  : option (list Run) :=
  let combos := combos_of nextFrameworks nextModels in
  results ← Promise_allSettled
              (imap (fun i c => (run (worlds i) (combo_call nextTask c)).2) combos)
              order;
  mapM (fun slot => slot)
       (imap (fun i res => c ← combos !! i; Some (to_run c res)) results).

(** *** Vocabulary of the properties *)

Definition valid (r : Run) : Prop := truthy (error r) = false.

(** The rational behind a finite number, 0 for any other value. *)
Definition fin_of (v : JsVal) : Q :=
  match v with VNum (Fin q) => q | _ => 0%Q end.

Definition is_fin (v : JsVal) : Prop := v = num (fin_of v).

Definition finite_metrics (r : Run) : Prop :=
  is_fin (latency (run_metrics r)) ∧ is_fin (tokens (run_metrics r))
  ∧ is_fin (cost (run_metrics r)) ∧ is_fin (quality (run_metrics r)).

Definition latency_of (r : Run) : Q := fin_of (latency (run_metrics r)).
Definition cost_of (r : Run) : Q := fin_of (cost (run_metrics r)).
Definition quality_of (r : Run) : Q := fin_of (quality (run_metrics r)).
Definition tokens_of (r : Run) : Q := fin_of (tokens (run_metrics r)).

(** [x] is the earliest valid record of [runs] that no valid record beats:
    it beats every valid record before it, and no valid record after it
    beats it. *)
Definition earliest_best (beats : Run -> Run -> Prop) (runs : list Run)
    (x : Run) : Prop :=
  ∃ pre post,
    runs = (pre ++ x :: post)%list
    ∧ valid x
    ∧ (∀ y, y ∈ pre -> valid y -> beats x y)
    ∧ (∀ y, y ∈ post -> valid y -> ¬ beats y x).

(** The tokens of the valid records, their sum and their mean. *)
Definition valid_tokens (runs : list Run) : list Q :=
  tokens_of <$> base.filter valid runs.

Definition Qsum (l : list Q) : Q := foldr Qplus 0%Q l.

Definition mean (l : list Q) : Q := (Qsum l / inject_Z (Z.of_nat (length l)))%Q.

(** A summary with a key whose value is [undefined] or NaN. *)
Definition has_undefined_or_NaN (h : Highlights) : Prop :=
  match h with
  | NoData => False
  | Summary f c q a =>
      f = None ∨ c = None ∨ q = None ∨ a = VUndef ∨ a = VNum NaN
  end.

(** The product of the selections as they are given. *)
Definition selection_product (frameworkIds modelIds : list string)
  : list (string * string) :=
  frameworkIds ≫= (fun f => (fun m => (f, m)) <$> modelIds).

Definition combination_of (r : Run) : string * string :=
  (fw_id (framework r), m_id (model r)).

(** The record of the [i]-th combination [c] of a batch. *)
Definition record_of (worlds : nat -> World) (nextTask : string) (i : nat)
    (c : Framework * Model) : Run :=
  to_run c (run (worlds i) (combo_call nextTask c)).2.

End App.
End App.

(** ** The application's helpers and selection state ([App.jsx]) *)

Module Helpers.
Import Js.

Definition outputAngles : list string :=
  ["Framed the objective and success guardrails, then aligned agent roles.";
   "Leaned on high-coverage retrieval to ground the answer and prune hallucinations.";
   "Ran a two-pass critique to stress test the proposed approach.";
   "Optimized for speed-first execution while tracking risk triggers."].

Definition closingNotes : list string :=
  ["Next move: validate critical paths with a dry-run tool call and tighten any cost outliers.";
   "Highlight: reused context across tools to cut latency without losing rigor.";
   "Risk: watch for stale data; schedule a refresh cadence before launch.";
   "Bonus: snapshot intermediate traces for quick human-in-the-loop review."].

(** [ToInt32] and [Math.imul] on integers. *)
Definition ToInt32 (z : Z) : Z := ((z + 2 ^ 31) mod 2 ^ 32 - 2 ^ 31)%Z.
Definition Math_imul (a b : Z) : Z := ToInt32 (ToInt32 a * ToInt32 b).

Definition charCode (c : ascii) : Z := Z.of_nat (nat_of_ascii c).

(** The loop of [hashString]: [hash = Math.imul(31, hash) + charCodeAt(i)].
    Every intermediate value is an integer below 2^53, hence exact. *)
Fixpoint hash_from (hash : Z) (value : string) : Z :=
  match value with
  | EmptyString => hash
  | String c rest => hash_from (Math_imul 31 hash + charCode c) rest
  end.

Definition hashString (value : string) : Z := Z.abs (hash_from 0 value).

(** The double nearest to an integer.  An integer of at most 53 significant
    bits is a double; a longer one is rounded to 53 bits, a tie going to the
    neighbour whose last bit is 0. *)
Definition double_of_Z (z : Z) : Z :=
  let a := Z.abs z in
  if (a <? 2 ^ 53)%Z then z
  else
    let e := (Z.log2 a - 52)%Z in
    let q := (a / 2 ^ e)%Z in
    let r := (a mod 2 ^ e)%Z in
    let half := (2 ^ (e - 1))%Z in
    let up :=
      if (half <? r)%Z then true
      else if (r <? half)%Z then false
      else Z.odd q in
    (Z.sgn z * (if up then q + 1 else q) * 2 ^ e)%Z.

(** [a + b] on doubles that hold integers.  (A sum of magnitude 2^1024 or
    more is an infinity in the program; such sums are not represented.) *)
Definition double_add (a b : Z) : Z := double_of_Z (a + b).

(** The doubles between 2^53 and 2^54 are the even integers: an odd integer
    lies half way between two of them, and the nearest one is taken to be
    the multiple of 4. *)
Definition even_neighbour (s : Z) : Z :=
  if Z.even s then s
  else if Z.even (s / 2) then (s - 1)%Z else (s + 1)%Z.

(** [list[(seed + offset) % list.length]] for an integer seed; [None] is
    [undefined] (empty list, where the index is NaN, or negative index). *)
Definition pick {A : Type} (list : list A) (seed offset : Z) : option A :=
  if (length list =? 0)%nat then None
  else
    let i := Z.rem (double_add seed offset) (Z.of_nat (length list)) in
    if (i <? 0)%Z then None else list !! Z.to_nat i.

Definition formatTaskSnippet (task : string) : string :=
  if (120 <? String.length task)%nat
  then substring 0 117 task +:+ "..."
  else task.

(** A template literal prints [undefined] for a missing value. *)
Definition interpolate (o : option string) : string := default "undefined" o.

Definition craftOutput (task : string) (seed : Z) : string :=
  let opener := pick outputAngles seed 1 in
  let closer := pick closingNotes seed 2 in
  interpolate opener +:+ " Focused on " +:+ dq +:+ formatTaskSnippet task
  +:+ dq +:+ ". " +:+ interpolate closer.

(** [toggleFramework] and [toggleModel] apply the same update to their
    selection. *)
Definition toggle (id : string) (prev : list string) : list string :=
  if bool_decide (id ∈ prev)
  then base.filter (fun x => x ≠ id) prev
  else (prev ++ [id])%list.

Definition toggleFramework (id : string) (selectedFrameworks : list string)
  : list string := toggle id selectedFrameworks.

Definition toggleModel (id : string) (selectedModels : list string)
  : list string := toggle id selectedModels.

(** The initial selections of the component. *)
Definition initialFrameworks : list string := App.fw_id <$> App.frameworks.
Definition initialModels : list string :=
  [App.m_id App.gpt_41; App.m_id App.claude_37].

Definition readyToCompare (selectedFrameworks selectedModels : list string)
    (task : string) : bool :=
  (0 <? length selectedFrameworks)%nat && (0 <? length selectedModels)%nat
  && (0 <? String.length (trim task))%nat.

(** A selection the buttons can produce: identifiers of the catalogue, each
    at most once. *)
Definition selection_of (catalogue selection : list string) : Prop :=
  NoDup selection ∧ selection ⊆ catalogue.

(** The selections reached from [start] by pressing the buttons of the
    catalogue, one toggle per press. *)
Inductive toggled (catalogue start : list string) : list string -> Prop :=
| toggled_start : toggled catalogue start start
| toggled_press id selection :
    toggled catalogue start selection ->
    id ∈ catalogue ->
    toggled catalogue start (toggle id selection).

End Helpers.

(** ** The earlier version of the server: one helper per vendor *)

Module Legacy.
Import Js Promise.

Section Legacy.
Context {rt : Runtime}.

Definition TypeError : JsVal := new_Error "TypeError".

(** [`${process.env.NAME}`] and the truth value of [process.env.NAME]. *)
Definition env_text (v : option string) : string := default "undefined" v.
Definition env_set (v : option string) : bool :=
  match v with Some k => truthy (VStr k) | None => false end.

(** [priceTable[model] ?? 0] *)
Definition price_or_zero (model : JsVal) : option JsVal :=
  rate ← Server.priceTable_at model;
  Some (js_nullish rate (num 0)).

Definition status_text (res : Response) : string :=
  number_text (Fin (inject_Z (status res))).

Definition openai_chat_request (OPENAI_API_KEY : option string)
    (task model : JsVal) : Request :=
  {| url := "https://api.openai.com/v1/chat/completions";
     method := "POST";
     headers := [("Content-Type", "application/json");
                 ("Authorization", "Bearer " +:+ env_text OPENAI_API_KEY)];
     body := VObj [("model", model);
                   ("messages",
                     VArr [VObj [("role", VStr "user"); ("content", task)]]);
                   ("max_tokens", num 400)] |}.

Definition callOpenAI (OPENAI_API_KEY : option string) (task model : JsVal)
  : Async JsVal :=
  res ← fetch (openai_chat_request OPENAI_API_KEY task model);
  if negb (ok res)
  then Throw (new_Error ("OpenAI error " +:+ status_text res))
  else
    data ← await (json res);
    data_usage ← or_throw (js_get data "usage") TypeError;
    let usage := js_or data_usage (VObj []) in
    total_tokens ← or_throw (js_get usage "total_tokens") TypeError;
    let tokens := js_nullish total_tokens (num 0) in
    thousandth ← or_throw (js_div tokens (num 1000)) TypeError;
    rate ← or_throw (price_or_zero model) TypeError;
    cost ← or_throw (js_mul thousandth rate) TypeError;
    choices ← or_throw (js_get data "choices") TypeError;
    let content :=
      js_get_opt (js_get_opt (default VUndef (js_first choices)) "message")
                 "content" in
    mret (VObj [("output", js_nullish content (VStr EmptyString));
                ("tokens", tokens);
                ("cost", cost);
                ("steps", VArr [VStr "Called OpenAI chat"]);
                ("quality", num 0);
                ("coverage", num 0);
                ("safety", num 0)]).

(** The LangGraph route. *)
Definition langgraph_fallback : JsVal :=
  VObj [("output", VStr "LangGraph result (API unavailable)");
        ("tokens", num 120); ("cost", num 0.0004); ("quality", num 72);
        ("coverage", num 80); ("safety", num 88);
        ("steps", VArr [VStr "Parsed task"; VStr "Built graph"; VStr "Executed"])].

(** [task.substring(0, 50)]: only a string has the method. *)
Definition task_substring (task : JsVal) : Async JsVal :=
  match task with
  | VStr s => Ret (VStr (substring 0 50 s))
  | _ => Throw TypeError
  end.

Definition langgraph_stub (task modelId : JsVal) : Async JsVal :=
  named ← or_throw (js_add (VStr "LangGraph with ") modelId) TypeError;
  labelled ← or_throw (js_add named (VStr ": ")) TypeError;
  head50 ← task_substring task;
  quoted ← or_throw (js_add labelled head50) TypeError;
  output ← or_throw (js_add quoted (VStr "...")) TypeError;
  mret (VObj [("output", output);
              ("tokens", num 150); ("cost", num 0.0006); ("quality", num 78);
              ("coverage", num 85); ("safety", num 90);
              ("steps", VArr [VStr "Parsed task"; VStr "Built graph";
                              VStr "Executed"])]).

Definition route_langgraph (OPENAI_API_KEY : option string)
    (task modelId : JsVal) : Async JsVal :=
  try_catch
    (if env_set OPENAI_API_KEY
     then result ← callOpenAI OPENAI_API_KEY task modelId; mret result
     else langgraph_stub task modelId)
    (fun err => Ret langgraph_fallback).

(** [callAutoGen], [callCrewAI] and [callLlamaIndex] differ by the address,
    the key of the task in the request, the key of the text in the answer
    and the vendor's name. *)
Record Vendor : Type := {
  vendor_name : string;
  vendor_url : string;
  task_key : string;
  text_key : string;
}.

Definition AutoGen : Vendor :=
  {| vendor_name := "AutoGen"; vendor_url := "https://api.autogen.com/v1/task";
     task_key := "input"; text_key := "output_text" |}.
Definition CrewAI : Vendor :=
  {| vendor_name := "CrewAI"; vendor_url := "https://api.crewai.com/v1/run";
     task_key := "prompt"; text_key := "result" |}.
Definition LlamaIndex : Vendor :=
  {| vendor_name := "LlamaIndex"; vendor_url := "https://api.llamaindex.com/v1/query";
     task_key := "query"; text_key := "answer" |}.

Definition vendor_request (v : Vendor) (API_KEY : option string)
    (task model : JsVal) : Request :=
  {| url := vendor_url v;
     method := "POST";
     headers := [("Content-Type", "application/json");
                 ("Authorization", "Bearer " +:+ env_text API_KEY)];
     body := VObj [("model", model); (task_key v, task)] |}.

(** [data.usage?.cost ?? (tokens / 1000 * (priceTable[model] ?? 0))]: the
    product is computed only when no cost is reported. *)
Definition vendor_cost (usage tokens model : JsVal) : option JsVal :=
  let reported := js_get_opt usage "cost" in
  if nullish reported
  then
    thousandth ← js_div tokens (num 1000);
    rate ← price_or_zero model;
    js_mul thousandth rate
  else Some reported.

Definition callVendor (v : Vendor) (API_KEY : option string)
    (task model : JsVal) : Async JsVal :=
  res ← fetch (vendor_request v API_KEY task model);
  if negb (ok res)
  then Throw (new_Error (vendor_name v +:+ " error " +:+ status_text res))
  else
    data ← await (json res);
    usage ← or_throw (js_get data "usage") TypeError;
    let tokens := js_nullish (js_get_opt usage "tokens") (num 0) in
    cost ← or_throw (vendor_cost usage tokens model) TypeError;
    text ← or_throw (js_get data (text_key v)) TypeError;
    steps ← or_throw (js_get data "steps") TypeError;
    quality ← or_throw (js_get data "quality") TypeError;
    coverage ← or_throw (js_get data "coverage") TypeError;
    safety ← or_throw (js_get data "safety") TypeError;
    mret (VObj [("output", js_or text (VStr EmptyString));
                ("tokens", tokens);
                ("cost", cost);
                ("steps", js_or steps (VArr [VStr "Parsed task";
                                             VStr ("Executed " +:+ vendor_name v)]));
                ("quality", js_nullish quality (num 0));
                ("coverage", js_nullish coverage (num 0));
                ("safety", js_nullish safety (num 0))]).

Definition callAutoGen := callVendor AutoGen.
Definition callCrewAI := callVendor CrewAI.
Definition callLlamaIndex := callVendor LlamaIndex.

Definition unavailable (v : Vendor) : JsVal :=
  VObj [("output", VStr (vendor_name v +:+ " unavailable"));
        ("tokens", num 0); ("cost", num 0); ("quality", num 0);
        ("coverage", num 0); ("safety", num 0); ("steps", VArr [])].

Definition route_vendor (v : Vendor) (API_KEY : option string)
    (task modelId : JsVal) : Async JsVal :=
  try_catch (result ← callVendor v API_KEY task modelId; mret result)
            (fun err => Ret (unavailable v)).

Definition route_autogen := route_vendor AutoGen.
Definition route_crewai := route_vendor CrewAI.
Definition route_llamaindex := route_vendor LlamaIndex.

(** The vendor's answer could not be used: no answer, a status outside
    200-299, a body that is not JSON, or a body that is [null]. *)
Definition vendor_failed (answer : Settled Response) : Prop :=
  match answer with
  | Rejected _ => True
  | Fulfilled res =>
      ok res = false
      ∨ match json res with
        | Rejected _ => True
        | Fulfilled data => nullish data = true
        end
  end.

End Legacy.
End Legacy.

(** ** Sample data: a runtime that parses one text, used to exhibit
    concrete runs *)
Module Sample.
Import Js Promise.
#[local] Open Scope Q_scope.

Definition result_text : string :=
  "{" +:+ dq +:+ "output" +:+ dq +:+ ":" +:+ dq +:+ "done" +:+ dq +:+ ","
  +:+ dq +:+ "steps" +:+ dq +:+ ":[]," +:+ dq +:+ "logs" +:+ dq +:+ ":"
  +:+ dq +:+ "ok" +:+ dq +:+ "," +:+ dq +:+ "quality" +:+ dq +:+ ":0,"
  +:+ dq +:+ "coverage" +:+ dq +:+ ":0}".

Definition result_value : JsVal :=
  VObj [("output", VStr "done"); ("steps", VArr []); ("logs", VStr "ok");
        ("quality", num 0); ("coverage", num 0)].

(** A result that reports a quality of 70 and a coverage of 0. *)
Definition partial_text : string :=
  "{" +:+ dq +:+ "output" +:+ dq +:+ ":" +:+ dq +:+ "done" +:+ dq +:+ ","
  +:+ dq +:+ "steps" +:+ dq +:+ ":[]," +:+ dq +:+ "logs" +:+ dq +:+ ":"
  +:+ dq +:+ "ok" +:+ dq +:+ "," +:+ dq +:+ "quality" +:+ dq +:+ ":70,"
  +:+ dq +:+ "coverage" +:+ dq +:+ ":0}".

Definition partial_value : JsVal :=
  VObj [("output", VStr "done"); ("steps", VArr []); ("logs", VStr "ok");
        ("quality", num 70); ("coverage", num 0)].

Definition runtime : Runtime :=
  {| JSON_parse := fun s =>
       if String.eqb s result_text then Some result_value
       else if String.eqb s partial_text then Some partial_value
       else None;
     Number_toString := fun q => NilEmpty.string_of_int (Z.to_int (Qfloor q));
     Number_toFixed := fun n _ =>
       match n with
       | Fin q => NilEmpty.string_of_int (Z.to_int (Qfloor q))
       | _ => "NaN"
       end;
     StringToNumber := fun s =>
       match NilEmpty.int_of_string s with
       | Some i => Fin (inject_Z (Z.of_int i))
       | None => NaN
       end;
     Function_toString := fun name =>
       "function "
       +:+ (if String.eqb name "constructor" then "Object" else name)
       +:+ "() { [native code] }" |}.

Definition response (st : Z) (txt : string) (data : JsVal) : Response :=
  {| status := st; text := Fulfilled txt; json := Fulfilled data |}.

Definition completion : JsVal :=
  VObj [("choices", VArr [VObj [("message", VObj [("content", VStr result_text)])]]);
        ("usage", VObj [("total_tokens", num 500)])].

Definition partial_completion : JsVal :=
  VObj [("choices", VArr [VObj [("message", VObj [("content", VStr partial_text)])]]);
        ("usage", VObj [("total_tokens", num 500)])].

(** A world whose network answers every request with [res] and whose clock
    advances by 2000 ms between two readings. *)
Definition world (res : Response) : World :=
  {| net := fun _ => Fulfilled res;
     clock := fun n => Fin (inject_Z (2000 * Z.of_nat n)) |}.

Definition key : option string := Some "sk-live-0123".
Definition task_text : string := "Summarize AI agents".
Definition task : JsVal := VStr task_text.
Definition model : JsVal := VStr "gpt-41".

(** Values that a JSON body can hold and that have no text: an object with
    an own [toString] property. *)
Definition textless : JsVal := VObj [("toString", num 1)].

Definition live_result_with (cost : JsVal) : JsVal :=
  VObj [("output", VStr ("done" +:+ nl +:+ nl +:+ "---" +:+ nl +:+ "LOGS:" +:+ nl +:+ "ok"));
        ("tokens", num 500);
        ("cost", cost);
        ("steps", VArr []);
        ("quality", num 85);
        ("coverage", num 90);
        ("safety", num 95)].

Definition live_result : JsVal := live_result_with (num ((500 / 1000) * 0.004)).

Definition partial_result : JsVal :=
  VObj [("output", VStr ("done" +:+ nl +:+ nl +:+ "---" +:+ nl +:+ "LOGS:" +:+ nl +:+ "ok"));
        ("tokens", num 500);
        ("cost", num ((500 / 1000) * 0.004));
        ("steps", VArr []);
        ("quality", num 70);
        ("coverage", num 90);
        ("safety", num 95)].

(** Records of a batch: a rejected combination, then two fulfilled ones that
    share the smallest latency, the smallest cost and the greatest quality. *)
Definition fulfilled_run (fw : App.Framework) (m : App.Model)
    (latency tokens cost quality : Q) : App.Run :=
  App.to_run (fw, m)
    (Fulfilled (fw, m,
       {| Client.output := VStr "done"; Client.steps := VArr [];
          Client.metrics :=
            {| Client.latency := num latency; Client.tokens := num tokens;
               Client.cost := num cost; Client.quality := num quality;
               Client.coverage := num 90; Client.safety := num 95 |} |})).

Definition failed : App.Run :=
  App.to_run (App.langgraph, App.gpt_41)
    (Rejected (new_Error "Provider error: 500")).
Definition first_ok : App.Run :=
  fulfilled_run App.autogen App.gpt_41 1.2 250 0.001 80.
Definition second_ok : App.Run :=
  fulfilled_run App.crewai App.gpt_41 1.2 301 0.001 80.

Definition runs : list App.Run := [failed; first_ok; second_ok].

(** The body of a provider route's answer, and worlds where every route
    answers with it, or with status 500. *)
Definition api_data : JsVal :=
  VObj [("output", VStr "done"); ("tokens", num 250); ("cost", num 0.0025);
        ("steps", VArr [VStr "Finalized"]); ("quality", num 95);
        ("coverage", num 98); ("safety", num 100)].

Definition worlds_ok : nat -> World :=
  fun _ => world (response 200 EmptyString api_data).

Definition worlds_500 : nat -> World :=
  fun _ => world (response 500 "Internal Server Error" VNull).

End Sample.

(** ** Further vocabulary and sample data *)

Module Terms.
Import Js Promise.


Fixpoint header (name : string) (hs : list (string * string)) : option string :=
  match hs with
  | [] => None
  | (k, v) :: rest => if String.eqb k name then Some v else header name rest
  end.


(** The id of the record of a combination. *)
Definition record_id (c : App.Framework * App.Model) : string :=
  App.fw_id c.1 +:+ "-" +:+ App.m_id c.2.

(** The request of the sample call of the LangGraph route. *)
Definition sample_request : Request :=
  Server.openai_request "sk-live-0123"
    (Server.systemPrompt "LangGraph"
       ["Graph-structured"; "Cyclic"; "Stateful"; "Precise control flow"]
       "Define Graph State -> Node: Retrieve -> Node: Grade check -> Node: Generate -> Edge: End")
    Sample.task_text "gpt-41".

(** An answer whose body is the JSON value [null]. *)
Definition null_answer : Response := Sample.response 200 EmptyString VNull.

(** The answer of a vendor that reports a cost and a quality of 0. *)
Definition vendor_usage : JsVal :=
  VObj [("tokens", num 400); ("cost", num 0.01)].
Definition vendor_data : JsVal :=
  VObj [("output_text", VStr "done"); ("usage", vendor_usage);
        ("quality", num 0)].
Definition vendor_answer : Response :=
  Sample.response 200 EmptyString vendor_data.

(** A world whose network is down. *)
Definition offline : World :=
  {| net := fun _ => Rejected (new_Error "Failed to fetch");
     clock := fun n => Fin (inject_Z (2000 * Z.of_nat n)) |}.

End Terms.

(** * Properties *)

(** ** Conversions *)

Section ConversionProperties.
Import Js.
Context {rt : Runtime}.

(** The primitive of a value prints as the value does. *)
Lemma ToPrimitive_text v : ToPrimitive v ≫= ToString = ToString v.
Proof.
  destruct v as [| |[]|n|s|items|props|name]; try reflexivity.
  - unfold ToPrimitive. by destruct (ToString (VArr items)).
  - unfold ToPrimitive. by destruct (ToString (VObj props)).
Qed.

(** A value has a primitive, and a number, exactly when it has a text. *)
Lemma ToPrimitive_is_Some v : is_Some (ToPrimitive v) <-> is_Some (ToString v).
Proof.
  destruct v as [| |[]|n|s|items|props|name]; try (split; by eexists).
  - unfold ToPrimitive. by rewrite fmap_is_Some.
  - unfold ToPrimitive. by rewrite fmap_is_Some.
Qed.

Lemma ToNumber_is_Some v : is_Some (ToNumber v) <-> is_Some (ToString v).
Proof.
  destruct v as [| |[]|n|s|items|props|name]; try (split; by eexists).
  - unfold ToNumber. by rewrite fmap_is_Some.
  - unfold ToNumber. by rewrite fmap_is_Some.
Qed.

Lemma js_add_text_r a s :
  js_add a (VStr s) = (fun t => VStr (t +:+ s)) <$> ToString a.
Proof.
  unfold js_add. rewrite <- (ToPrimitive_text a).
  destruct (ToPrimitive a) as [pa|]; [|done]. simpl.
  rewrite orb_true_r. by destruct (ToString pa).
Qed.

Lemma js_add_text_l s b :
  js_add (VStr s) b = (fun t => VStr (s +:+ t)) <$> ToString b.
Proof.
  unfold js_add. rewrite <- (ToPrimitive_text b). simpl.
  destruct (ToPrimitive b) as [pb|]; [|done]. simpl.
  by destruct (ToString pb).
Qed.

Lemma js_div_is_Some a q : is_Some (js_div a (num q)) <-> is_Some (ToString a).
Proof.
  rewrite <- ToNumber_is_Some. unfold js_div.
  destruct (ToNumber a) as [n|]; simpl.
  - split; intros _; eexists; reflexivity.
  - split; intros [? [=]].
Qed.

Lemma js_div_number a q v : js_div a (num q) = Some v -> ∃ n, v = VNum n.
Proof.
  unfold js_div. destruct (ToNumber a); simpl; [|done].
  intros [= <-]. by eexists.
Qed.

(** A product by a built-in is NaN. *)
Lemma js_mul_builtin n name : js_mul (VNum n) (VBuiltin name) = Some (VNum NaN).
Proof. by destruct n. Qed.

Lemma inherited_listed key :
  key ∈ Object_prototype_keys -> inherited key = VBuiltin key.
Proof. intros H. unfold inherited. by rewrite bool_decide_eq_true_2. Qed.

Lemma inherited_unlisted key :
  key ∉ Object_prototype_keys -> inherited key = VUndef.
Proof. intros H. unfold inherited. by rewrite bool_decide_eq_false_2. Qed.

End ConversionProperties.

(** ** The provider adapter *)

Section ServerProperties.
Import Js Promise Server.
Context {rt : Runtime}.

Lemma run_getMockResponse w framework task styles :
  run w (getMockResponse framework task styles)
  = ([EvSleep 100], mock_settles framework task).
Proof.
  unfold getMockResponse, mock_settles, run. simpl.
  by destruct (ToString task).
Qed.

Lemma simulateAgent_unusable key task model framework styles stepsHint :
  key_unusable key = true ->
  simulateAgent key task model framework styles stepsHint
  = getMockResponse framework task styles.
Proof. intros H. unfold simulateAgent. by rewrite H. Qed.

(** The guard turns away exactly the absent, the placeholder and the
    malformed credentials. *)
Lemma key_unusable_iff key :
  key_unusable key = true
  <-> credential_absent key ∨ credential_placeholder key ∨ credential_malformed key.
Proof.
  unfold key_unusable, credential_absent, credential_placeholder,
    credential_malformed.
  set (raw := rawKey_of key). set (api := apiKey_of raw).
  rewrite !orb_true_iff, !negb_true_iff. split.
  - intros [[[H|H]|H]|H].
    + right; right. destruct api; [done|]. simpl in H. discriminate.
    + by right; right.
    + right; left; right. by apply String.eqb_eq.
    + by right; left; left.
  - intros [H|[[H|H]|H]].
    + left; left; right.
      assert (raw = EmptyString) as ->.
      { subst raw. destruct key as [k|]; simpl in *; [|done].
        by destruct (negb (String.eqb k EmptyString)). }
      done.
    + by right.
    + left; right. by apply String.eqb_eq.
    + by left; left; right.
Qed.

(** A call has a request exactly when its task and its model have a text. *)
Lemma request_of_Some key task model framework styles stepsHint req :
  request_of key task model framework styles stepsHint = Some req
  <-> ∃ taskText modelText,
        ToString task = Some taskText ∧ ToString model = Some modelText
        ∧ req = openai_request (apiKey_of (rawKey_of key))
                  (systemPrompt framework styles stepsHint) taskText modelText.
Proof.
  unfold request_of. split.
  - destruct (ToString task) as [taskText|]; [|done].
    destruct (ToString model) as [modelText|]; [|done].
    intros [= <-]. by eexists _, _.
  - by intros (taskText & modelText & -> & -> & ->).
Qed.

(** The [try] block after a 2xx response performs no effect: it returns or
    it throws. *)
Lemma live_record_settles res model :
  (∃ r, live_record res model = Ret r) ∨ (∃ e, live_record res model = Throw e).
Proof.
  unfold live_record.
  destruct (json res) as [data|e]; simpl; [|by eauto].
  repeat match goal with
  | |- context [or_throw ?o _] => destruct o; simpl; [|by eauto]
  end.
  by eauto.
Qed.

Lemma live_record_inv res model r :
  live_record res model = Ret r ->
  ∃ result tokens thousandth rate cost output headed logs full steps quality
    coverage,
    upstream_result res = Some result
    ∧ upstream_tokens res = Some tokens
    ∧ js_div tokens (num 1000) = Some thousandth
    ∧ priceTable_at model = Some rate
    ∧ js_mul thousandth (js_or rate (num 0.002)) = Some cost
    ∧ js_get result "output" = Some output
    ∧ js_add output (VStr (nl +:+ nl +:+ "---" +:+ nl +:+ "LOGS:" +:+ nl))
      = Some headed
    ∧ js_get result "logs" = Some logs
    ∧ js_add headed logs = Some full
    ∧ js_get result "steps" = Some steps
    ∧ js_get result "quality" = Some quality
    ∧ js_get result "coverage" = Some coverage
    ∧ r = VObj
        [("output", full);
         ("tokens", tokens);
         ("cost", cost);
         ("steps", steps);
         ("quality", js_or quality (num 85));
         ("coverage", js_or coverage (num 90));
         ("safety", num 95)].
Proof.
  unfold live_record, upstream_result, upstream_tokens.
  destruct (json res) as [data|e]; simpl; [|done].
  repeat match goal with
  | |- context [or_throw ?o _] =>
      let E := fresh "E" in destruct o eqn:E; simpl; [|done]
  end.
  intros [= <-]. by repeat eexists.
Qed.

(** The runs of [simulateAgent] once the key has passed the guard and the
    request has been built. *)
Section Runs.
Variables (w : World) (key : option string) (task model : JsVal)
  (framework : string) (styles : list string) (stepsHint : string)
  (req : Request) (printed : string).
Hypothesis usable : key_unusable key = false.
Hypothesis built :
  request_of key task model framework styles stepsHint = Some req.
Hypothesis prints : ToString task = Some printed.

Let prog := simulateAgent key task model framework styles stepsHint.
Let fallback : list Event * Settled JsVal :=
  ([EvFetch req; EvSleep 100], Fulfilled (mock_record framework printed)).

Lemma run_network_failure e :
  net w req = Rejected e -> run w prog = fallback.
Proof.
  intros H. subst prog fallback. unfold simulateAgent.
  apply request_of_Some in built as (taskText & modelText & Ht & Hm & ->).
  rewrite usable, Ht, Hm. unfold run. simpl. rewrite H. simpl.
  rewrite Ht. simpl. congruence.
Qed.

Lemma run_not_ok res :
  net w req = Fulfilled res -> ok res = false -> run w prog = fallback.
Proof.
  intros H Hok. subst prog fallback. unfold simulateAgent.
  apply request_of_Some in built as (taskText & modelText & Ht & Hm & ->).
  assert (taskText = printed) as -> by congruence.
  rewrite usable, Ht, Hm. unfold run. simpl. rewrite H. simpl.
  rewrite Hok. simpl.
  destruct (text res) as [err|e]; simpl; [|by rewrite Ht].
  destruct (_ || _); simpl; by rewrite Ht.
Qed.

Lemma run_live_throw res e :
  net w req = Fulfilled res -> ok res = true -> live_record res model = Throw e ->
  run w prog = fallback.
Proof.
  intros H Hok Hlive. subst prog fallback. unfold simulateAgent.
  apply request_of_Some in built as (taskText & modelText & Ht & Hm & ->).
  assert (taskText = printed) as -> by congruence.
  rewrite usable, Ht, Hm. unfold run. simpl. rewrite H. simpl.
  rewrite Hok. simpl. rewrite Hlive. simpl. by rewrite Ht.
Qed.

Lemma run_live_return res r :
  net w req = Fulfilled res -> ok res = true -> live_record res model = Ret r ->
  run w prog = ([EvFetch req], Fulfilled r).
Proof.
  intros H Hok Hlive. subst prog. unfold simulateAgent.
  apply request_of_Some in built as (taskText & modelText & Ht & Hm & ->).
  rewrite usable, Ht, Hm. unfold run. simpl. rewrite H. simpl.
  rewrite Hok. simpl. by rewrite Hlive.
Qed.

End Runs.


Lemma status_401_429_not_ok res :
  status res = 401%Z ∨ status res = 429%Z -> ok res = false.
Proof. unfold ok. by intros [-> | ->]. Qed.

(** Every rate of the table is truthy, so [priceTable[model] || 0.002] is the
    table's rate for a listed identifier, the built-in for a name that
    [Object.prototype] defines, and 0.002 for any other. *)
Lemma price_or_fallback name :
  js_or (literal_get num priceTable name) (num 0.002)
  = if bool_decide (name ∈ Object_prototype_keys)
    then (if bool_decide (is_Some (priceTable !! name))
          then num (rate_of name) else VBuiltin name)
    else num (rate_of name).
Proof.
  unfold literal_get, rate_of, inherited.
  destruct (priceTable !! name) as [q|] eqn:E.
  - rewrite (bool_decide_eq_true_2 (is_Some (Some q))) by (by eexists).
    assert (js_or (num q) (num 0.002) = num q) as ->; [|by destruct (bool_decide _)].
    apply elem_of_list_to_map_2 in E.
    repeat (apply elem_of_cons in E as [[= _ ->]|E]; [reflexivity|]).
    by apply elem_of_nil in E.
  - rewrite (bool_decide_eq_false_2 (is_Some None)) by (by intros [? ?]).
    by destruct (bool_decide _).
Qed.

(** No name of [Object.prototype] is a key of the table. *)
Lemma priceTable_inherited name :
  name ∈ Object_prototype_keys -> priceTable !! name = None.
Proof.
  unfold Object_prototype_keys. intros H.
  repeat (apply elem_of_cons in H as [->|H]; [by vm_compute|]).
  by apply elem_of_nil in H.
Qed.

Lemma simulator_model_not_priced : priceTable !! "gpt-4o" = None.
Proof. by vm_compute. Qed.

Lemma mock_record_fields framework text :
  js_get (mock_record framework text) "tokens" = Some (num 250)
  ∧ js_get (mock_record framework text) "cost" = Some (num 0.0025)
  ∧ js_get (mock_record framework text) "quality" = Some (num 95)
  ∧ js_get (mock_record framework text) "coverage" = Some (num 98)
  ∧ js_get (mock_record framework text) "safety" = Some (num 100)
  ∧ js_get (mock_record framework text) "error" = Some VUndef
  ∧ ¬ minimal_error_record (mock_record framework text).
Proof.
  repeat split; try done. intros (Htok & _). discriminate Htok.
Qed.

(** C2 (as amended): when the upstream answers with a non-2xx status other
    than 401 and 429 and a body without the invalid-key signature, the error
    raised for it is caught inside the adapter: after its single request the
    adapter is fulfilled with the Mock Path record (tokens 250, cost 0.0025,
    quality 95, coverage 98, safety 100, no error key); it does not produce a
    minimal error record. *)
Theorem C2_other_failure_is_mocked w key task model framework styles stepsHint
    req res :
  key_unusable key = false ->
  request_of key task model framework styles stepsHint = Some req ->
  net w req = Fulfilled res ->
  ok res = false ->
  status res ≠ 401%Z ->
  status res ≠ 429%Z ->
  (∀ err, text res = Fulfilled err -> includes err "invalid_api_key" = false) ->
  ∃ taskText,
    ToString task = Some taskText
    ∧ run w (simulateAgent key task model framework styles stepsHint)
      = ([EvFetch req; EvSleep 100], Fulfilled (mock_record framework taskText))
    ∧ js_get (mock_record framework taskText) "tokens" = Some (num 250)
    ∧ js_get (mock_record framework taskText) "cost" = Some (num 0.0025)
    ∧ js_get (mock_record framework taskText) "quality" = Some (num 95)
    ∧ js_get (mock_record framework taskText) "coverage" = Some (num 98)
    ∧ js_get (mock_record framework taskText) "safety" = Some (num 100)
    ∧ js_get (mock_record framework taskText) "error" = Some VUndef
    ∧ ¬ minimal_error_record (mock_record framework taskText).
Proof.
  intros Hk Hreq Hn Hok _ _ _.
  pose proof Hreq as (taskText & modelText & Ht & _ & _)%request_of_Some.
  exists taskText. split; [done|]. split; [by eapply run_not_ok|].
  apply mock_record_fields.
Qed.

(** C3: with an absent, placeholder-valued or structurally invalid
    credential the adapter performs no upstream call (its only effect is the
    100 ms timer) and is fulfilled with the fixed Mock Path record, quality 95,
    coverage 98, safety 100, tokens 250, cost 0.0025, for every task string,
    and for every other task that has a text. *)
Theorem C3_unusable_credential_is_mocked w key task model framework styles stepsHint :
  credential_absent key ∨ credential_placeholder key ∨ credential_malformed key ->
  (∀ taskText, ToString task = Some taskText ->
     run w (simulateAgent key task model framework styles stepsHint)
     = ([EvSleep 100], Fulfilled (mock_record framework taskText)))
  ∧ (∀ s, run w (simulateAgent key (VStr s) model framework styles stepsHint)
          = ([EvSleep 100], Fulfilled (mock_record framework s)))
  ∧ base.filter (fun e => is_fetch e = true)
      (run w (simulateAgent key task model framework styles stepsHint)).1 = []
  ∧ ∀ taskText,
      js_get (mock_record framework taskText) "quality" = Some (num 95)
      ∧ js_get (mock_record framework taskText) "coverage" = Some (num 98)
      ∧ js_get (mock_record framework taskText) "safety" = Some (num 100)
      ∧ js_get (mock_record framework taskText) "tokens" = Some (num 250)
      ∧ js_get (mock_record framework taskText) "cost" = Some (num 0.0025).
Proof.
  intros H%key_unusable_iff.
  rewrite !simulateAgent_unusable by done.
  rewrite run_getMockResponse. split_and!; try done.
  - intros taskText Ht. unfold mock_settles. by rewrite Ht.
  - intros s. by rewrite simulateAgent_unusable, run_getMockResponse.
Qed.

(** C4: with a credential that passes the guard, an upstream answer with
    status 401 or 429, or a non-2xx answer whose body carries the invalid-key
    signature, makes the adapter return the very record of the
    absent-credential case, which has no error key. *)
Theorem C4_auth_failure_is_mocked w key task model framework styles stepsHint
    req res :
  key_unusable key = false ->
  request_of key task model framework styles stepsHint = Some req ->
  net w req = Fulfilled res ->
  status res = 401%Z ∨ status res = 429%Z
  ∨ (ok res = false
     ∧ ∃ err, text res = Fulfilled err ∧ includes err "invalid_api_key" = true) ->
  ∃ taskText,
    ToString task = Some taskText
    ∧ (run w (simulateAgent key task model framework styles stepsHint)).2
      = Fulfilled (mock_record framework taskText)
    ∧ (run w (simulateAgent key task model framework styles stepsHint)).2
      = (run w (simulateAgent None task model framework styles stepsHint)).2
    ∧ js_get (mock_record framework taskText) "error" = Some VUndef.
Proof.
  intros Hk Hreq Hn Hst.
  assert (ok res = false) as Hok.
  { destruct Hst as [H|[H|[H _]]]; [| |done];
      apply status_401_429_not_ok; auto. }
  pose proof Hreq as (taskText & modelText & Ht & _ & _)%request_of_Some.
  exists taskText. split; [done|].
  erewrite run_not_ok by done.
  rewrite (simulateAgent_unusable None) by done.
  rewrite run_getMockResponse. unfold mock_settles. by rewrite Ht.
Qed.

(** On a Live Path success whose model identifier is not a name that
    [Object.prototype] defines, the returned cost is the product of
    tokens / 1000 by the pricing-table rate of that identifier, 0.002 when the
    table does not list it (the product being the one of rationals). *)
Lemma live_cost_uses_target_rate w key task model framework styles stepsHint
    res r name :
  live_success w key task model framework styles stepsHint res r ->
  ToString model = Some name ->
  name ∉ Object_prototype_keys ->
  ∃ tokens n,
    upstream_tokens res = Some tokens
    ∧ ToNumber tokens = Some n
    ∧ js_get r "cost"
      = Some (VNum (nmul (ndiv n (Fin 1000)) (Fin (rate_of name))))
    ∧ ∀ t, tokens = num t ->
           js_get r "cost" = Some (num (t / 1000 * rate_of name)).
Proof.
  intros (_ & _ & _ & Hlive) Hname Hout.
  apply live_record_inv in Hlive
    as (result & tokens & thousandth & rate & cost & output & headed & logs
        & full & steps & quality & coverage
        & _ & Htok & Hdiv & Hrate & Hmul & _ & _ & _ & _ & _ & _ & _ & ->).
  unfold priceTable_at in Hrate. rewrite Hname in Hrate. injection Hrate as <-.
  rewrite price_or_fallback, bool_decide_eq_false_2 in Hmul by done.
  unfold js_div in Hdiv. destruct (ToNumber tokens) as [n|] eqn:Hn; [|done].
  injection Hdiv as <-. injection Hmul as <-.
  exists tokens, n. split_and!; try done.
  intros t ->. by injection Hn as <-.
Qed.

(** C5: on a Live Path success the returned tokens are the usage the
    upstream reported, and the simulator named in the request, gpt-4o, has no
    rate in the table; but the rate is read from the table without a check
    that the model identifier is one of its own keys.  For a name that
    [Object.prototype] defines, such as constructor, the read yields a
    built-in function, which is truthy: the fallback rate is not used and the
    returned cost is NaN, not tokens / 1000 times the fallback rate. *)
Theorem C5_inherited_name_gives_NaN_cost w key task model framework styles
    stepsHint res r :
  live_success w key task model framework styles stepsHint res r ->
  (run w (simulateAgent key task model framework styles stepsHint)).2 = Fulfilled r
  ∧ (∃ tokens name,
      upstream_tokens res = Some tokens
      ∧ ToString model = Some name
      ∧ js_get r "tokens" = Some tokens
      ∧ (name ∈ Object_prototype_keys ->
         priceTable !! name = None
         ∧ js_get r "cost" = Some (VNum NaN)
         ∧ ∀ t, js_get r "cost" ≠ Some (num (t / 1000 * 0.002))))
  ∧ (∃ req, request_of key task model framework styles stepsHint = Some req
            ∧ js_get (body req) "model" = Some (VStr "gpt-4o"))
  ∧ priceTable !! "gpt-4o" = None.
Proof.
  intros Hsuccess. pose proof Hsuccess as (Hk & (req & Hreq & Hn) & Hok & Hlive).
  pose proof Hreq as (taskText & name & Ht & Hname & Hbody)%request_of_Some.
  split; [by erewrite run_live_return|].
  split; [|split; [exists req; split; [done|by rewrite Hbody]
                       |apply simulator_model_not_priced]].
  pose proof Hlive as Hparts.
  apply live_record_inv in Hparts
    as (result & tokens & thousandth & rate & cost & output & headed & logs
        & full & steps & quality & coverage
        & _ & Htok & Hdiv & Hrate & Hmul & _ & _ & _ & _ & _ & _ & _ & Hr).
  exists tokens, name. split_and!; try done.
  - by rewrite Hr.
  - intros Hin. split; [by apply priceTable_inherited|].
    assert (js_get r "cost" = Some (VNum NaN)) as Hcost.
    { unfold priceTable_at in Hrate. rewrite Hname in Hrate. injection Hrate as <-.
      rewrite price_or_fallback, bool_decide_eq_true_2 in Hmul by done.
      rewrite priceTable_inherited in Hmul by done.
      rewrite (bool_decide_eq_false_2 (is_Some None)) in Hmul by (by intros [? ?]).
      apply js_div_number in Hdiv as [n ->].
      rewrite js_mul_builtin in Hmul. injection Hmul as <-. by rewrite Hr. }
    split; [done|]. intros t. by rewrite Hcost.
Qed.

(** C10: on a Live Path success whose parsed result reports a quality equal
    to 0, the adapter returns quality 85; likewise, and whatever the quality,
    a reported coverage of 0 is returned as 90.  The same holds of every
    reported value that is falsy. *)
Theorem C10_reported_zero_is_replaced w key task model framework styles stepsHint
    res r result :
  live_success w key task model framework styles stepsHint res r ->
  upstream_result res = Some result ->
  (run w (simulateAgent key task model framework styles stepsHint)).2 = Fulfilled r
  ∧ (∀ q, js_get result "quality" = Some (num q) -> (q == 0)%Q ->
          js_get r "quality" = Some (num 85))
  ∧ (∀ c, js_get result "coverage" = Some (num c) -> (c == 0)%Q ->
          js_get r "coverage" = Some (num 90))
  ∧ (∀ v, js_get result "quality" = Some v -> truthy v = false ->
          js_get r "quality" = Some (num 85))
  ∧ (∀ v, js_get result "coverage" = Some v -> truthy v = false ->
          js_get r "coverage" = Some (num 90)).
Proof.
  intros (Hk & (req & Hreq & Hn) & Hok & Hlive) Hres.
  pose proof Hreq as (taskText & name & Ht & _ & _)%request_of_Some.
  split; [by erewrite run_live_return|].
  apply live_record_inv in Hlive
    as (result' & tokens & thousandth & rate & cost & output & headed & logs
        & full & steps & qv & cv
        & Hres' & _ & _ & _ & _ & _ & _ & _ & _ & _ & Hq' & Hc' & ->).
  assert (result' = result) as -> by congruence.
  assert (∀ q, (q == 0)%Q -> truthy (num q) = false) as Hzero.
  { intros q Hq. simpl. apply negb_false_iff, Qeq_bool_iff, Hq. }
  assert (∀ v, js_get result "quality" = Some v -> truthy v = false ->
               js_or qv (num 85) = num 85) as Hquality.
  { intros v Hv Hf. rewrite Hv in Hq'. injection Hq' as <-.
    unfold js_or. by rewrite Hf. }
  assert (∀ v, js_get result "coverage" = Some v -> truthy v = false ->
               js_or cv (num 90) = num 90) as Hcoverage.
  { intros v Hv Hf. rewrite Hv in Hc'. injection Hc' as <-.
    unfold js_or. by rewrite Hf. }
  split_and!.
  - intros q Hq Hz. simpl. by rewrite (Hquality (num q)) by auto.
  - intros c Hc Hz. simpl. by rewrite (Hcoverage (num c)) by auto.
  - intros v Hv Hf. simpl. by rewrite (Hquality v).
  - intros v Hv Hf. simpl. by rewrite (Hcoverage v).
Qed.

End ServerProperties.

(** Concrete runs of the adapter. *)
Section ServerRuns.
Import Js Promise Server.
#[local] Existing Instance Sample.runtime.

Lemma C2_counterexample :
  key_unusable Sample.key = false
  ∧ ok (Sample.response 500 "Internal Server Error" VNull) = false
  ∧ includes "Internal Server Error" "invalid_api_key" = false
  ∧ (run (Sample.world (Sample.response 500 "Internal Server Error" VNull))
         (api_langgraph Sample.key Sample.task Sample.model)).2
    = Fulfilled (mock_record "LangGraph" Sample.task_text)
  ∧ js_get (mock_record "LangGraph" Sample.task_text) "tokens" = Some (num 250)
  ∧ js_get (mock_record "LangGraph" Sample.task_text) "error" = Some VUndef
  ∧ ¬ minimal_error_record (mock_record "LangGraph" Sample.task_text).
Proof.
  repeat split; try reflexivity.
  intros (Htok & _). discriminate Htok.
Qed.

Lemma C2_witness :
  key_unusable Sample.key = false
  ∧ ok (Sample.response 500 "Internal Server Error" VNull) = false
  ∧ ∃ taskText,
      ToString Sample.task = Some taskText
      ∧ run (Sample.world (Sample.response 500 "Internal Server Error" VNull))
            (api_langgraph Sample.key Sample.task Sample.model)
        = ([EvFetch Terms.sample_request; EvSleep 100],
           Fulfilled (mock_record "LangGraph" taskText)).
Proof.
  split; [reflexivity|]. split; [reflexivity|].
  destruct (C2_other_failure_is_mocked
    (Sample.world (Sample.response 500 "Internal Server Error" VNull))
    Sample.key Sample.task Sample.model "LangGraph"
    ["Graph-structured"; "Cyclic"; "Stateful"; "Precise control flow"]
    "Define Graph State -> Node: Retrieve -> Node: Grade check -> Node: Generate -> Edge: End"
    Terms.sample_request
    (Sample.response 500 "Internal Server Error" VNull))
    as (taskText & Ht & Hrun & _).
  - reflexivity.
  - reflexivity.
  - reflexivity.
  - reflexivity.
  - simpl. lia.
  - simpl. lia.
  - intros err [= <-]. reflexivity.
  - exists taskText. split; [exact Ht|exact Hrun].
Defined.

Lemma C3_witness :
  credential_placeholder (Some "sk-placeholder")
  ∧ run (Sample.world (Sample.response 200 EmptyString Sample.completion))
        (api_langgraph (Some "sk-placeholder") (VStr EmptyString) Sample.model)
    = ([EvSleep 100], Fulfilled (mock_record "LangGraph" EmptyString)).
Proof.
  assert (credential_placeholder (Some "sk-placeholder")) as H
    by (left; reflexivity).
  split; [exact H|].
  exact (proj1 (C3_unusable_credential_is_mocked
                  (Sample.world (Sample.response 200 EmptyString Sample.completion))
                  (Some "sk-placeholder") (VStr EmptyString) Sample.model
                  "LangGraph" _ _ (or_intror (or_introl H)))
               EmptyString eq_refl).
Defined.

Lemma C4_witness :
  key_unusable Sample.key = false
  ∧ status (Sample.response 401 "Unauthorized" VNull) = 401%Z
  ∧ ∃ taskText,
      ToString Sample.task = Some taskText
      ∧ (run (Sample.world (Sample.response 401 "Unauthorized" VNull))
             (api_langgraph Sample.key Sample.task Sample.model)).2
        = Fulfilled (mock_record "LangGraph" taskText).
Proof.
  split; [reflexivity|]. split; [reflexivity|].
  destruct (C4_auth_failure_is_mocked
    (Sample.world (Sample.response 401 "Unauthorized" VNull))
    Sample.key Sample.task Sample.model "LangGraph"
    ["Graph-structured"; "Cyclic"; "Stateful"; "Precise control flow"]
    "Define Graph State -> Node: Retrieve -> Node: Grade check -> Node: Generate -> Edge: End"
    Terms.sample_request
    (Sample.response 401 "Unauthorized" VNull))
    as (taskText & Ht & Hrun & _).
  - reflexivity.
  - reflexivity.
  - reflexivity.
  - left. reflexivity.
  - exists taskText. split; [exact Ht|exact Hrun].
Defined.

Lemma sample_live_success :
  live_success (Sample.world (Sample.response 200 EmptyString Sample.completion))
    Sample.key Sample.task Sample.model "LangGraph"
    ["Graph-structured"; "Cyclic"; "Stateful"; "Precise control flow"]
    "Define Graph State -> Node: Retrieve -> Node: Grade check -> Node: Generate -> Edge: End"
    (Sample.response 200 EmptyString Sample.completion) Sample.live_result.
Proof.
  split; [reflexivity|]. split; [by eexists|]. split; reflexivity.
Qed.

(** The same call when the result reports a quality of 70 and a coverage
    of 0. *)
Lemma sample_partial_success :
  live_success
    (Sample.world (Sample.response 200 EmptyString Sample.partial_completion))
    Sample.key Sample.task Sample.model "LangGraph"
    ["Graph-structured"; "Cyclic"; "Stateful"; "Precise control flow"]
    "Define Graph State -> Node: Retrieve -> Node: Grade check -> Node: Generate -> Edge: End"
    (Sample.response 200 EmptyString Sample.partial_completion)
    Sample.partial_result.
Proof.
  split; [reflexivity|]. split; [by eexists|]. split; reflexivity.
Qed.

(** The same call for the model identifier constructor. *)
Lemma sample_inherited_success :
  live_success (Sample.world (Sample.response 200 EmptyString Sample.completion))
    Sample.key Sample.task (VStr "constructor") "LangGraph"
    ["Graph-structured"; "Cyclic"; "Stateful"; "Precise control flow"]
    "Define Graph State -> Node: Retrieve -> Node: Grade check -> Node: Generate -> Edge: End"
    (Sample.response 200 EmptyString Sample.completion)
    (Sample.live_result_with (VNum NaN)).
Proof.
  split; [reflexivity|]. split; [by eexists|]. split; reflexivity.
Qed.

End ServerRuns.

(** ** The aggregator *)

Section AggregatorProperties.
Import Js Promise Client App.
Context {rt : Runtime}.

Lemma Qltb_lt x y : Qltb x y = true <-> (x < y)%Q.
Proof.
  unfold Qltb. rewrite negb_true_iff, <- not_true_iff_false, Qle_bool_iff.
  split; [apply Qnot_le_lt | apply Qlt_not_le].
Qed.

Lemma Qltb_ge x y : Qltb x y = false <-> (y <= x)%Q.
Proof.
  unfold Qltb. rewrite negb_false_iff. apply Qle_bool_iff.
Qed.

Lemma js_lt_num a b : js_lt (num a) (num b) = Some (Qltb a b).
Proof. reflexivity. Qed.

Lemma js_add_num a b : js_add (num a) (num b) = Some (num (a + b)).
Proof. reflexivity. Qed.

(** *** The reduction that keeps the first extremal record *)

Section Reduce.
Variables (better : Run -> Run -> option bool) (key : Run -> Q)
  (good : Run -> Prop).
Hypothesis better_key :
  ∀ run best, good run -> good best ->
    better run best = Some (Qltb (key run) (key best)).

Let step (acc : option (option Run)) (run : Run) : option (option Run) :=
  best ← acc;
  b ← best;
  keep ← better run b;
  Some (Some (if keep : bool then run else b)).

Lemma foldl_step_first_minimum l : ∀ pre b mid,
  Forall good (pre ++ b :: mid ++ l)%list ->
  (∀ y, y ∈ pre -> (key b < key y)%Q) ->
  (∀ y, y ∈ mid -> (key b <= key y)%Q) ->
  ∃ b' pre' post',
    foldl step (Some (Some b)) l = Some (Some b')
    ∧ (pre ++ b :: mid ++ l = pre' ++ b' :: post')%list
    ∧ (∀ y, y ∈ pre' -> (key b' < key y)%Q)
    ∧ (∀ y, y ∈ post' -> (key b' <= key y)%Q).
Proof.
  induction l as [|x l IH]; intros pre b mid Hgood Hpre Hmid.
  - exists b, pre, mid. by rewrite app_nil_r.
  - assert (good x ∧ good b) as [Hx Hb].
    { pose proof Hgood as Hg.
      apply Forall_app in Hg as [_ Hg]. apply Forall_cons in Hg as [Hb Hg].
      apply Forall_app in Hg as [_ Hg]. by apply Forall_cons in Hg as [Hx _]. }
    simpl. rewrite better_key by done. simpl.
    destruct (Qltb (key x) (key b)) eqn:Hlt.
    + apply Qltb_lt in Hlt.
      destruct (IH (pre ++ b :: mid)%list x []) as (b' & pre' & post' & ? & Heq & ? & ?).
      * by rewrite <- app_assoc.
      * intros y [Hy|[->|Hy]%elem_of_cons]%elem_of_app; [|done|].
        -- specialize (Hpre y Hy). lra.
        -- specialize (Hmid y Hy). lra.
      * by intros y ?%elem_of_nil.
      * exists b', pre', post'. split_and!; try done.
        rewrite <- Heq. by rewrite <- app_assoc.
    + apply Qltb_ge in Hlt.
      destruct (IH pre b (mid ++ [x])%list) as (b' & pre' & post' & ? & Heq & ? & ?).
      * by rewrite <- (app_assoc mid).
      * done.
      * intros y [Hy| ->%list_elem_of_singleton]%elem_of_app; [auto|done].
      * exists b', pre', post'. split_and!; try done.
        rewrite <- Heq. by rewrite <- (app_assoc mid).
Qed.

Lemma reduce_best_first_minimum l :
  l ≠ [] -> Forall good l ->
  ∃ b pre post,
    reduce_best better l = Some (Some b)
    ∧ (l = pre ++ b :: post)%list
    ∧ (∀ y, y ∈ pre -> (key b < key y)%Q)
    ∧ (∀ y, y ∈ post -> (key b <= key y)%Q).
Proof.
  destruct l as [|x l]; [done|]. intros _ Hgood.
  unfold reduce_best. simpl.
  assert (good x) as Hx by (by inversion Hgood).
  rewrite better_key by done. simpl.
  assert (Qltb (key x) (key x) = false) as -> by (apply Qltb_ge; lra).
  destruct (foldl_step_first_minimum l [] x []) as (b' & pre' & post' & ? & ? & ? & ?).
  - done.
  - by intros y ?%elem_of_nil.
  - by intros y ?%elem_of_nil.
  - by exists b', pre', post'.
Qed.

End Reduce.

Lemma filter_split {A} (P : A -> Prop) `{!∀ x, Decision (P x)} (l : list A) :
  ∀ pre x post,
    base.filter P l = (pre ++ x :: post)%list ->
    ∃ pre' post',
      l = (pre' ++ x :: post')%list
      ∧ base.filter P pre' = pre ∧ base.filter P post' = post ∧ P x.
Proof.
  induction l as [|a l IH]; intros pre x post Hf.
  - by destruct pre.
  - rewrite filter_cons in Hf. destruct (decide (P a)) as [Ha|Ha].
    + destruct pre as [|p pre]; simpl in Hf; injection Hf as <- Hf.
      * exists [], l. by rewrite filter_nil.
      * destruct (IH _ _ _ Hf) as (pre' & post' & -> & <- & <- & ?).
        exists (a :: pre'), post'. by rewrite filter_cons_True.
    + destruct (IH _ _ _ Hf) as (pre' & post' & -> & <- & <- & ?).
      exists (a :: pre'), post'. by rewrite filter_cons_False.
Qed.

(** The reduction of the valid records, read on the whole input. *)
Lemma reduce_best_earliest better key runs :
  (∀ run best, valid run ∧ finite_metrics run -> valid best ∧ finite_metrics best ->
     better run best = Some (Qltb (key run) (key best))) ->
  (∀ r, r ∈ runs -> valid r -> finite_metrics r) ->
  base.filter valid runs ≠ [] ->
  ∃ b, reduce_best better (base.filter valid runs) = Some (Some b)
       ∧ earliest_best (fun x y => (key x < key y)%Q) runs b.
Proof.
  intros Hkey Hfin Hne.
  destruct (reduce_best_first_minimum better key
              (fun r => valid r ∧ finite_metrics r) Hkey (base.filter valid runs))
    as (b & pre & post & Hb & Hsplit & Hpre & Hpost); [done| |].
  { apply Forall_forall. intros r [? ?]%list_elem_of_filter. auto. }
  exists b. split; [done|].
  apply filter_split in Hsplit as (pre' & post' & -> & <- & <- & ?).
  exists pre', post'. split_and!; try done.
  - intros y ? ?. apply Hpre. by apply list_elem_of_filter.
  - intros y ? ?. apply Qle_not_lt, Hpost. by apply list_elem_of_filter.
Qed.

(** The sum of the tokens, as the reduction computes it. *)
Lemma foldl_tokens l : ∀ acc,
  Forall finite_metrics l ->
  foldl (fun acc run => sum ← acc; js_add sum (tokens (run_metrics run)))
        (Some (num acc)) l
  = Some (num (foldl (fun s r => s + tokens_of r)%Q acc l)).
Proof.
  induction l as [|r l IH]; intros acc Hl; [done|].
  apply Forall_cons in Hl as [(_ & Ht & _) Hl]. cbn [foldl].
  rewrite Ht. cbn [mbind option_bind]. rewrite js_add_num. by apply IH.
Qed.

Lemma foldl_Qsum (l : list Run) : ∀ acc,
  (foldl (fun s r => s + tokens_of r) acc l == acc + Qsum (tokens_of <$> l))%Q.
Proof.
  induction l as [|r l IH]; intros acc.
  - unfold Qsum. simpl. lra.
  - cbn [foldl]. rewrite IH.
    change (Qsum (tokens_of <$> r :: l))
      with (tokens_of r + Qsum (tokens_of <$> l))%Q.
    lra.
Qed.

Lemma length_not_zero {A} (l : list A) :
  l ≠ [] -> Qeq_bool (inject_Z (Z.of_nat (length l))) 0 = false.
Proof.
  intros Hl. apply not_true_iff_false. rewrite Qeq_bool_iff.
  destruct l; [done|]. unfold Qeq. simpl. lia.
Qed.

(** The aggregator on a list that has a valid record. *)
Lemma aggregate_some_valid (runs : list Run) v vs :
  base.filter valid runs = v :: vs ->
  aggregateHighlights runs
  = (fastest ←
       reduce_best (fun run best =>
         js_lt (latency (run_metrics run)) (latency (run_metrics best))) (v :: vs);
     cheapest ←
       reduce_best (fun run best =>
         js_lt (cost (run_metrics run)) (cost (run_metrics best))) (v :: vs);
     highestQuality ←
       reduce_best (fun run best =>
         js_gt (quality (run_metrics run)) (quality (run_metrics best))) (v :: vs);
     total ←
       foldl (fun acc run => sum ← acc; js_add sum (tokens (run_metrics run)))
             (Some (num 0)) (v :: vs);
     quotient ← js_div total (num (inject_Z (Z.of_nat (length (v :: vs)))));
     averageTokens ← js_round quotient;
     Some (Summary fastest cheapest highestQuality averageTokens)).
Proof.
  intros Hf. unfold aggregateHighlights.
  destruct runs as [|r runs]; [done|].
  change (length (r :: runs) =? 0)%nat with false. cbv zeta iota.
  change (fun r1 : Run => truthy (error r1) = false) with valid.
  rewrite Hf. done.
Qed.

(** What the aggregator returns as soon as one record is valid. *)
Lemma aggregate_valid runs :
  (∃ r, r ∈ runs ∧ valid r) ->
  (∀ r, r ∈ runs -> valid r -> finite_metrics r) ->
  ∃ f c h,
    aggregateHighlights runs
    = Some (Summary (Some f) (Some c) (Some h)
              (num (inject_Z (Qfloor (mean (valid_tokens runs) + (1 # 2))))))
    ∧ earliest_best (fun x y => (latency_of x < latency_of y)%Q) runs f
    ∧ earliest_best (fun x y => (cost_of x < cost_of y)%Q) runs c
    ∧ earliest_best (fun x y => (quality_of y < quality_of x)%Q) runs h.
Proof.
  intros (r0 & Hr0 & Hv0) Hfin.
  assert (base.filter valid runs ≠ []) as Hne.
  { intros Hnil. by apply (filter_nil_not_elem_of _ _ r0 Hnil Hv0). }
  destruct (reduce_best_earliest
    (fun run best => js_lt (latency (run_metrics run)) (latency (run_metrics best)))
    latency_of runs) as (f & Hf & Hf'); [|done|done|].
  { intros run best [_ (-> & _)] [_ (-> & _)]. apply js_lt_num. }
  destruct (reduce_best_earliest
    (fun run best => js_lt (cost (run_metrics run)) (cost (run_metrics best)))
    cost_of runs) as (c & Hc & Hc'); [|done|done|].
  { intros run best [_ (_ & _ & -> & _)] [_ (_ & _ & -> & _)]. apply js_lt_num. }
  destruct (reduce_best_earliest
    (fun run best => js_gt (quality (run_metrics run)) (quality (run_metrics best)))
    (fun r => - quality_of r)%Q runs) as (h & Hh & Hh'); [|done|done|].
  { intros run best [_ (_ & _ & _ & ->)] [_ (_ & _ & _ & ->)].
    unfold js_gt. rewrite js_lt_num. f_equal. unfold quality_of.
    destruct (Qltb (fin_of _) (fin_of _)) eqn:E; symmetry.
    - apply Qltb_lt in E. apply Qltb_lt. simpl in *. lra.
    - apply Qltb_ge in E. apply Qltb_ge. simpl in *. lra. }
  exists f, c, h. split_and!; try done.
  - destruct (base.filter valid runs) as [|v vs] eqn:Hvs; [done|].
    rewrite (aggregate_some_valid runs v vs Hvs).
    rewrite Hf, Hc, Hh. cbn [mbind option_bind].
    rewrite foldl_tokens.
    2:{ apply Forall_forall. intros x Hx. rewrite <- Hvs in Hx.
        apply list_elem_of_filter in Hx as [? ?]. auto. }
    cbn [mbind option_bind].
    unfold js_div, js_round, ToNumber, num, ndiv. cbn [mbind option_bind].
    rewrite length_not_zero by done. unfold Math_round. do 5 f_equal.
    apply Qfloor_comp. unfold mean, valid_tokens.
    rewrite Hvs, foldl_Qsum, length_fmap, Qplus_0_l. reflexivity.
  - destruct Hh' as (pre & post & ? & ? & Hpre & Hpost).
    exists pre, post. split_and!; try done.
    + intros y Hy Hv. specialize (Hpre y Hy Hv). simpl in Hpre. lra.
    + intros y Hy Hv Hlt. apply (Hpost y Hy Hv). simpl. lra.
Qed.

(** [Math.round] returns an integer at distance at most one half. *)
Lemma round_half_up_nearest (x : Q) :
  (x - (1 # 2) < inject_Z (Qfloor (x + (1 # 2))))%Q
  ∧ (inject_Z (Qfloor (x + (1 # 2))) <= x + (1 # 2))%Q.
Proof.
  pose proof (Qlt_floor (x + (1 # 2))) as Hlt.
  pose proof (Qfloor_le (x + (1 # 2))) as Hle.
  rewrite inject_Z_plus in Hlt.
  set (z := inject_Z (Qfloor (x + (1 # 2)))) in *.
  change (inject_Z 1) with 1%Q in Hlt. split; lra.
Qed.

Lemma filter_valid_nil runs :
  (∀ r, r ∈ runs -> ¬ valid r) -> base.filter valid runs = [].
Proof.
  induction runs as [|r runs IH]; intros H; [done|].
  rewrite filter_cons_False by (apply H; left).
  apply IH. intros r' ?. apply H. by right.
Qed.

(** A reduction that does not throw returns a record of its list. *)
Lemma foldl_step_member (better : Run -> Run -> option bool) (l : list Run) :
  ∀ b0 x,
    foldl (fun (acc : option (option Run)) (run : Run) =>
             best ← acc;
             b ← best;
             keep ← better run b;
             Some (Some (if keep : bool then run else b)))
          (Some (Some b0)) l = Some x ->
    ∃ b, x = Some b ∧ (b = b0 ∨ b ∈ l).
Proof.
  induction l as [|y l IH]; intros b0 x; cbn [foldl].
  - intros [= <-]. exists b0. by split; [|left].
  - cbn [mbind option_bind]. destruct (better y b0) as [keep|]; cbn [mbind option_bind].
    + intros Hx. apply IH in Hx as (b & -> & Hb). exists b. split; [done|].
      destruct Hb as [->|Hb]; [|right; by right].
      destruct keep; [right; left|by left].
    + intros Hnone. exfalso. clear IH. revert Hnone.
      induction l as [|z l IHl]; [done|]. exact IHl.
Qed.

Lemma reduce_best_member (better : Run -> Run -> option bool) (l : list Run) x :
  l ≠ [] -> reduce_best better l = Some x -> ∃ b, x = Some b ∧ b ∈ l.
Proof.
  unfold reduce_best. destruct l as [|b0 l]; [done|]. intros _. cbn [head].
  intros Hx.
  assert (∃ b, x = Some b ∧ (b = b0 ∨ b ∈ b0 :: l)) as (b & -> & Hb).
  { apply (foldl_step_member better (b0 :: l) b0 x Hx). }
  exists b. split; [done|]. destruct Hb as [->|Hb]; [left|done].
Qed.

(** Whatever the input, a summary never holds an undefined record. *)
Lemma summary_records_defined runs f c h a :
  aggregateHighlights runs = Some (Summary f c h a) ->
  is_Some f ∧ is_Some c ∧ is_Some h.
Proof.
  destruct (base.filter valid runs) as [|v vs] eqn:Hvs.
  - unfold aggregateHighlights.
    destruct (length runs =? 0)%nat; [done|]. cbv zeta.
    change (fun r1 : Run => truthy (error r1) = false) with valid.
    by rewrite Hvs.
  - rewrite (aggregate_some_valid runs v vs Hvs). intros Hagg.
    apply bind_Some in Hagg as (f' & Hf & Hagg).
    apply bind_Some in Hagg as (c' & Hc & Hagg).
    apply bind_Some in Hagg as (h' & Hh & Hagg).
    apply bind_Some in Hagg as (total & _ & Hagg).
    apply bind_Some in Hagg as (quotient & _ & Hagg).
    apply bind_Some in Hagg as (avg & _ & Hagg).
    injection Hagg as <- <- <- _.
    apply reduce_best_member in Hf as (? & -> & _); [|done].
    apply reduce_best_member in Hc as (? & -> & _); [|done].
    apply reduce_best_member in Hh as (? & -> & _); [|done].
    by split_and!.
Qed.

(** C6: when no record of the input is free of the error flag (the empty
    input included) the aggregator returns the empty object, and so no
    summary with a key bound to [undefined] or NaN. *)
Theorem C6_no_valid_record_gives_no_data runs :
  (∀ r, r ∈ runs -> ¬ valid r) ->
  aggregateHighlights runs = Some NoData
  ∧ ∀ h, aggregateHighlights runs = Some h -> ¬ has_undefined_or_NaN h.
Proof.
  intros H.
  assert (aggregateHighlights runs = Some NoData) as ->.
  { unfold aggregateHighlights.
    destruct (length runs =? 0)%nat; [done|]. cbv zeta.
    change (fun r : Run => truthy (error r) = false) with valid.
    by rewrite filter_valid_nil. }
  split; [done|]. by intros h [= <-] [].
Qed.

(** C7: among the valid records, the fastest highlight is the earliest
    record of the input with the smallest latency, the cheapest one the
    earliest with the smallest cost, and the highest-quality one the earliest
    with the greatest quality. *)
Theorem C7_first_extremal_record_wins runs :
  (∃ r, r ∈ runs ∧ valid r) ->
  (∀ r, r ∈ runs -> valid r -> finite_metrics r) ->
  ∃ f c h a,
    aggregateHighlights runs = Some (Summary (Some f) (Some c) (Some h) a)
    ∧ earliest_best (fun x y => (latency_of x < latency_of y)%Q) runs f
    ∧ earliest_best (fun x y => (cost_of x < cost_of y)%Q) runs c
    ∧ earliest_best (fun x y => (quality_of y < quality_of x)%Q) runs h.
Proof.
  intros Hex Hfin.
  destruct (aggregate_valid runs Hex Hfin) as (f & c & h & ? & ? & ? & ?).
  by exists f, c, h, (num (inject_Z (Qfloor (mean (valid_tokens runs) + (1 # 2))))).
Qed.

(** C8: on an input that mixes valid and error-flagged records, the
    highest-quality highlight is a valid record whose quality no valid record
    exceeds, and averageTokens is the mean of the tokens of the valid records
    rounded to the nearest integer. *)
Theorem C8_failed_records_are_ignored runs :
  (∃ r, r ∈ runs ∧ valid r) ->
  (∀ r, r ∈ runs -> valid r -> finite_metrics r) ->
  ∃ f c h (avg : Z),
    aggregateHighlights runs = Some (Summary f c (Some h) (num (inject_Z avg)))
    ∧ h ∈ runs ∧ valid h
    ∧ (∀ y, y ∈ runs -> valid y -> (quality_of y <= quality_of h)%Q)
    ∧ avg = Qfloor (mean (valid_tokens runs) + (1 # 2))
    ∧ (mean (valid_tokens runs) - (1 # 2) < inject_Z avg)%Q
    ∧ (inject_Z avg <= mean (valid_tokens runs) + (1 # 2))%Q.
Proof.
  intros Hex Hfin.
  destruct (aggregate_valid runs Hex Hfin)
    as (f & c & h & Hagg & _ & _ & (pre & post & -> & Hv & Hpre & Hpost)).
  exists (Some f), (Some c), h, (Qfloor (mean (valid_tokens (pre ++ h :: post)) + (1 # 2))).
  split_and!; try done.
  - apply elem_of_app. right. left.
  - intros y [Hy|[->|Hy]%elem_of_cons]%elem_of_app Hvy.
    + apply Qlt_le_weak. by apply Hpre.
    + apply Qle_refl.
    + apply Qnot_lt_le. by apply Hpost.
  - apply round_half_up_nearest.
  - apply round_half_up_nearest.
Qed.

End AggregatorProperties.

(** ** The dispatcher *)

Section DispatcherProperties.
Import Js Promise Client App.
Context {rt : Runtime}.

(** *** [Promise.allSettled] is aligned with its input *)

Lemma settle_length {A} (outcomes : list (Settled A)) slots i :
  length (settle outcomes slots i) = length slots.
Proof. unfold settle. destruct (outcomes !! i); [apply length_insert|done]. Qed.

Lemma settle_lookup {A} (outcomes : list (Settled A)) slots i j :
  length slots = length outcomes ->
  settle outcomes slots i !! j
  = if decide (i = j ∧ j < length outcomes) then Some (outcomes !! j)
    else slots !! j.
Proof.
  intros Hlen. unfold settle.
  destruct (outcomes !! i) as [o|] eqn:Ho.
  - pose proof (lookup_lt_Some _ _ _ Ho) as Hi.
    destruct (decide (i = j)) as [<-|Hne].
    + rewrite decide_True by done.
      rewrite list_lookup_insert_eq by lia. by rewrite Ho.
    + rewrite decide_False by tauto. by apply list_lookup_insert_ne.
  - apply lookup_ge_None in Ho. rewrite decide_False; [done|lia].
Qed.

Lemma foldl_settle_lookup {A} (outcomes : list (Settled A)) order : ∀ slots j,
  length slots = length outcomes ->
  foldl (settle outcomes) slots order !! j
  = if decide (j ∈ order ∧ j < length outcomes) then Some (outcomes !! j)
    else slots !! j.
Proof.
  induction order as [|i order IH]; intros slots j Hlen; cbn [foldl].
  - rewrite decide_False; [done|]. by intros [?%elem_of_nil _].
  - rewrite IH by (by rewrite settle_length).
    rewrite settle_lookup by done.
    destruct (decide (j ∈ order ∧ j < length outcomes)) as [[? ?]|Hn].
    + rewrite decide_True; [done|]. split; [by right|done].
    + destruct (decide (i = j ∧ j < length outcomes)) as [[<- ?]|Hn'].
      * rewrite decide_True; [done|]. split; [by left|done].
      * rewrite decide_False; [done|].
        intros [[->|?]%elem_of_cons ?]; tauto.
Qed.

(** Once every promise has settled, in whatever order, the result is the
    list of the outcomes in the order of the input. *)
Lemma Promise_allSettled_aligned {A} (outcomes : list (Settled A)) order :
  (∀ i, i < length outcomes -> i ∈ order) ->
  Promise_allSettled outcomes order = Some outcomes.
Proof.
  intros Hall. unfold Promise_allSettled.
  assert (foldl (settle outcomes) (replicate (length outcomes) None) order
          = Some <$> outcomes) as ->.
  { apply list_eq. intros j.
    rewrite foldl_settle_lookup by apply length_replicate.
    rewrite list_lookup_fmap.
    destruct (decide (j < length outcomes)) as [Hj|Hj].
    - rewrite decide_True by auto.
      destruct (lookup_lt_is_Some_2 outcomes j Hj) as [o ->]. done.
    - rewrite decide_False by tauto.
      rewrite (proj1 (lookup_replicate_None _ _ _)) by lia.
      rewrite lookup_ge_None_2 by lia. done. }
  by apply mapM_fmap_Some.
Qed.

(** While some promise is pending the result is not delivered. *)
Lemma Promise_allSettled_pending {A} (outcomes : list (Settled A)) order i :
  i < length outcomes -> i ∉ order -> Promise_allSettled outcomes order = None.
Proof.
  intros Hi Hni. unfold Promise_allSettled. apply mapM_None.
  apply Exists_exists. exists None. split; [|done].
  apply list_elem_of_lookup. exists i.
  rewrite foldl_settle_lookup by apply length_replicate.
  rewrite decide_False by tauto. by apply lookup_replicate_2.
Qed.

(** *** The batch *)

Lemma buildComparisons_records worlds order nextTask nextFrameworks nextModels :
  (∀ i, i < length (combos_of nextFrameworks nextModels) -> i ∈ order) ->
  buildComparisons worlds order nextTask nextFrameworks nextModels
  = Some (imap (record_of worlds nextTask) (combos_of nextFrameworks nextModels)).
Proof.
  intros Hall. unfold buildComparisons.
  set (combos := combos_of nextFrameworks nextModels) in *.
  rewrite Promise_allSettled_aligned by (by rewrite length_imap).
  simpl. apply mapM_Some. apply Forall2_same_length_lookup.
  split; [by rewrite !length_imap|].
  intros i x y. rewrite !list_lookup_imap.
  destruct (combos !! i) as [c|]; simpl; [|done].
  by intros [= <-] [= <-].
Qed.

(** *** The combinations: framework-major, model-minor *)

Lemma product_length {A B} (l1 : list A) (l2 : list B) :
  length (l1 ≫= (fun a => (fun b => (a, b)) <$> l2)) = length l1 * length l2.
Proof.
  induction l1 as [|a l1 IH]; [done|].
  rewrite bind_cons, length_app, length_fmap, IH. simpl. lia.
Qed.

Lemma product_lookup {A B} (l1 : list A) (l2 : list B) : ∀ i j a b,
  l1 !! i = Some a -> l2 !! j = Some b ->
  (l1 ≫= (fun a => (fun b => (a, b)) <$> l2)) !! (i * length l2 + j) = Some (a, b).
Proof.
  induction l1 as [|a0 l1 IH]; intros i j a b Hi Hj; [done|].
  pose proof (lookup_lt_Some _ _ _ Hj) as Hlt.
  rewrite bind_cons. destruct i as [|i]; simpl in Hi.
  - injection Hi as ->. change (0 * length l2 + j) with j.
    rewrite lookup_app_l by (by rewrite length_fmap).
    by rewrite list_lookup_fmap, Hj.
  - rewrite lookup_app_r by (rewrite length_fmap; simpl; lia).
    rewrite length_fmap.
    replace (S i * length l2 + j - length l2) with (i * length l2 + j)
      by (simpl; lia).
    by apply IH.
Qed.

Lemma product_fmap {A B A' B'} (f : A -> A') (g : B -> B') (l1 : list A)
    (l2 : list B) :
  (fun c => (f c.1, g c.2)) <$> (l1 ≫= (fun a => (fun b => (a, b)) <$> l2))
  = (f <$> l1) ≫= (fun a => (fun b => (a, b)) <$> (g <$> l2)).
Proof.
  induction l1 as [|a l1 IH]; [done|].
  rewrite fmap_cons, !bind_cons, fmap_app, IH. f_equal.
  rewrite <- !list_fmap_compose. done.
Qed.

Lemma filter_fmap_pre {A B} (f : A -> B) (P : B -> Prop)
    `{!∀ y, Decision (P y)} (l : list A) :
  f <$> base.filter (fun x => P (f x)) l = base.filter P (f <$> l).
Proof.
  induction l as [|a l IH]; [done|].
  rewrite fmap_cons, !filter_cons.
  destruct (decide (P (f a))); [rewrite fmap_cons|]; by rewrite IH.
Qed.

Lemma filter_ext_elem_of {A} (P Q : A -> Prop)
    `{!∀ x, Decision (P x), !∀ x, Decision (Q x)} (l : list A) :
  (∀ x, x ∈ l -> P x <-> Q x) -> base.filter P l = base.filter Q l.
Proof.
  induction l as [|a l IH]; intros Hext; [done|].
  rewrite !filter_cons.
  assert (base.filter P l = base.filter Q l) as ->
    by (apply IH; intros x ?; apply Hext; by right).
  assert (P a <-> Q a) as Ha by (apply Hext; left).
  destruct (decide (P a)), (decide (Q a)); tauto || done.
Qed.

(** Picking from a catalogue without repeated identifiers, by a selection
    that lists some of its identifiers in catalogue order, yields the
    selection. *)
Lemma filter_sublist_id (l k : list string) :
  NoDup l -> sublist k l -> base.filter (fun x => x ∈ k) l = k.
Proof.
  intros Hnd Hsub. induction Hsub as [|x k l Hsub IH|x k l Hsub IH].
  - done.
  - apply NoDup_cons in Hnd as [Hx Hnd].
    rewrite filter_cons_True by left. f_equal.
    etrans; [|apply (IH Hnd)]. apply filter_ext_elem_of.
    intros y Hy. rewrite elem_of_cons. split; [|auto].
    intros [->|?]; [done|done].
  - apply NoDup_cons in Hnd as [Hx Hnd].
    rewrite filter_cons_False; [by apply IH|].
    intros Hk. apply Hx. by eapply elem_of_sublist.
Qed.

Lemma framework_ids_NoDup : NoDup (fw_id <$> frameworks).
Proof. apply (bool_decide_unpack _). by vm_compute. Qed.

Lemma model_ids_NoDup : NoDup (m_id <$> models).
Proof. apply (bool_decide_unpack _). by vm_compute. Qed.

Lemma record_combination worlds nextTask i c :
  framework (record_of worlds nextTask i c) = c.1
  ∧ model (record_of worlds nextTask i c) = c.2
  ∧ id (record_of worlds nextTask i c) = fw_id c.1 +:+ "-" +:+ m_id c.2.
Proof.
  unfold record_of, to_run. destruct c as [fw m].
  by destruct (run _ _).2 as [[[? ?] ?]|?].
Qed.

Lemma records_combinations worlds nextTask (combos : list (Framework * Model)) :
  combination_of <$> imap (record_of worlds nextTask) combos
  = (fun c => (fw_id c.1, m_id c.2)) <$> combos.
Proof.
  apply list_eq. intros i.
  rewrite !list_lookup_fmap, list_lookup_imap.
  destruct (combos !! i) as [c|]; [|done]. simpl. unfold combination_of.
  by destruct (record_combination worlds nextTask i c) as (-> & -> & _).
Qed.

(** A fulfilled call always carries a safety value: [data.safety ?? 0]. *)
Lemma runAgent_fulfilled_safety w nextTask frameworkId modelId v :
  (run w (runAgent nextTask frameworkId modelId)).2 = Fulfilled v ->
  nullish (safety (metrics v)) = false.
Proof.
  unfold runAgent, run. simpl.
  destruct (negb (truthy _)); [done|].
  destruct (ToString _) as [address|]; simpl; [|done].
  destruct (net w _) as [res|e]; simpl; [|done].
  destruct (negb (ok res)); simpl; [done|].
  destruct (json res) as [data|e]; simpl; [|done].
  repeat match goal with
  | |- context [or_throw ?o _] => destruct o; simpl; [|done]
  end.
  intros [= <-]. simpl. unfold js_nullish.
  match goal with |- nullish (if nullish ?x then _ else _) = _ =>
    by destruct (nullish x) eqn:E end.
Qed.

(** C1 (as amended): once every call has settled, in whatever order, the
    dispatcher returns exactly one record per combination of the catalogue
    frameworks and catalogue models whose identifiers occur in the
    selections: |pickedFrameworks| x |pickedModels| records, framework-major
    and model-minor in catalogue order, the record at index i being the one
    of the i-th combination.  When the selections list catalogue identifiers
    in catalogue order, these are the |frameworkIds| x |modelIds| records of
    the product of the selections, in that order. *)
Theorem C1_one_record_per_picked_combination worlds order nextTask
    nextFrameworks nextModels :
  order ≡ₚ seq 0 (length (combos_of nextFrameworks nextModels)) ->
  ∃ runs,
    buildComparisons worlds order nextTask nextFrameworks nextModels = Some runs
    ∧ length runs
      = length (pickedFrameworks nextFrameworks) * length (pickedModels nextModels)
    ∧ (∀ i j fw m,
         pickedFrameworks nextFrameworks !! i = Some fw ->
         pickedModels nextModels !! j = Some m ->
         let k := i * length (pickedModels nextModels) + j in
         runs !! k = Some (record_of worlds nextTask k (fw, m)))
    ∧ (∀ k r, runs !! k = Some r ->
         ∃ c, combos_of nextFrameworks nextModels !! k = Some c
              ∧ r = record_of worlds nextTask k c
              ∧ framework r = c.1 ∧ model r = c.2)
    ∧ (sublist nextFrameworks (fw_id <$> frameworks) ->
       sublist nextModels (m_id <$> models) ->
       combination_of <$> runs = selection_product nextFrameworks nextModels
       ∧ length runs = length nextFrameworks * length nextModels).
Proof.
  intros Hperm.
  exists (imap (record_of worlds nextTask) (combos_of nextFrameworks nextModels)).
  split.
  { apply buildComparisons_records. intros i Hi.
    rewrite Hperm. apply elem_of_seq. lia. }
  split; [by rewrite length_imap; apply product_length|].
  split.
  { intros i j fw m Hi Hj k. rewrite list_lookup_imap.
    unfold combos_of. subst k. by erewrite product_lookup. }
  split.
  { intros k r. rewrite list_lookup_imap.
    destruct (combos_of _ _ !! k) as [c|]; [|done]. intros [= <-].
    exists c. destruct (record_combination worlds nextTask k c) as (? & ? & _).
    by split_and!. }
  intros Hf Hm.
  assert (combination_of <$> imap (record_of worlds nextTask)
                               (combos_of nextFrameworks nextModels)
          = selection_product nextFrameworks nextModels) as Heq.
  { rewrite (records_combinations worlds nextTask).
    unfold combos_of. rewrite product_fmap.
    assert (fw_id <$> pickedFrameworks nextFrameworks = nextFrameworks) as ->.
    { unfold pickedFrameworks.
      etrans; [exact (filter_fmap_pre fw_id (fun x => x ∈ nextFrameworks) frameworks)|].
      apply filter_sublist_id; auto using framework_ids_NoDup. }
    assert (m_id <$> pickedModels nextModels = nextModels) as ->.
    { unfold pickedModels.
      etrans; [exact (filter_fmap_pre m_id (fun x => x ∈ nextModels) models)|].
      apply filter_sublist_id; auto using model_ids_NoDup. }
    done. }
  split; [done|].
  rewrite <- (length_fmap combination_of), Heq. apply product_length.
Qed.

(** C9: the record built for a rejected call has no safety key, so its
    safety value reads [undefined]; its other metrics are 0 and its error
    message is non-empty. *)
Theorem C9_rejected_record_lacks_safety (c : Framework * Model) (reason : JsVal) :
  safety (run_metrics (to_run c (Rejected reason))) = VUndef
  ∧ tokens (run_metrics (to_run c (Rejected reason))) = num 0
  ∧ quality (run_metrics (to_run c (Rejected reason))) = num 0
  ∧ truthy (error (to_run c (Rejected reason))) = true.
Proof.
  destruct c as [fw m]. simpl. split_and!; try done.
  unfold js_or. by destruct (truthy (js_get_opt reason "message")) eqn:E.
Qed.

End DispatcherProperties.

(** Concrete runs of the adapter, the aggregator and the dispatcher. *)
Section SampleRuns.
Import Js Promise Server Client App.
#[local] Existing Instance Sample.runtime.

Lemma C5_witness :
  live_success (Sample.world (Sample.response 200 EmptyString Sample.completion))
    Sample.key Sample.task (VStr "constructor") "LangGraph"
    ["Graph-structured"; "Cyclic"; "Stateful"; "Precise control flow"]
    "Define Graph State -> Node: Retrieve -> Node: Grade check -> Node: Generate -> Edge: End"
    (Sample.response 200 EmptyString Sample.completion)
    (Sample.live_result_with (VNum NaN))
  ∧ upstream_tokens (Sample.response 200 EmptyString Sample.completion)
    = Some (num 500)
  ∧ (run (Sample.world (Sample.response 200 EmptyString Sample.completion))
         (api_langgraph Sample.key Sample.task (VStr "constructor"))).2
    = Fulfilled (Sample.live_result_with (VNum NaN))
  ∧ js_get (Sample.live_result_with (VNum NaN)) "cost" = Some (VNum NaN)
  ∧ js_get (Sample.live_result_with (VNum NaN)) "cost"
    ≠ Some (num (500 / 1000 * 0.002)).
Proof.
  split; [exact sample_inherited_success|]. split; [reflexivity|].
  destruct (C5_inherited_name_gives_NaN_cost _ _ _ _ _ _ _ _ _
              sample_inherited_success)
    as (Hrun & (tokens & name & _ & Hname & _ & Hin) & _).
  split; [exact Hrun|].
  injection Hname as <-.
  assert ("constructor" ∈ Object_prototype_keys) as Hkey by left.
  destruct (Hin Hkey) as (_ & Hcost & Hne).
  split; [exact Hcost|exact (Hne 500%Q)].
Defined.

Lemma C10_witness :
  upstream_result (Sample.response 200 EmptyString Sample.completion)
  = Some Sample.result_value
  ∧ js_get Sample.result_value "quality" = Some (num 0)
  ∧ js_get Sample.live_result "quality" = Some (num 85)
  ∧ upstream_result (Sample.response 200 EmptyString Sample.partial_completion)
    = Some Sample.partial_value
  ∧ js_get Sample.partial_value "quality" = Some (num 70)
  ∧ js_get Sample.partial_value "coverage" = Some (num 0)
  ∧ js_get Sample.partial_result "coverage" = Some (num 90).
Proof.
  split; [reflexivity|]. split; [reflexivity|].
  destruct (C10_reported_zero_is_replaced _ _ _ _ _ _ _ _ _ Sample.result_value
              sample_live_success eq_refl)
    as (_ & Hq & _).
  split; [exact (Hq 0%Q eq_refl (Qeq_refl 0))|].
  split; [reflexivity|]. split; [reflexivity|]. split; [reflexivity|].
  destruct (C10_reported_zero_is_replaced _ _ _ _ _ _ _ _ _ Sample.partial_value
              sample_partial_success eq_refl)
    as (_ & _ & Hc & _).
  exact (Hc 0%Q eq_refl (Qeq_refl 0)).
Defined.

Lemma sample_failed_invalid : ¬ valid Sample.failed.
Proof. unfold valid. by vm_compute. Qed.

Lemma sample_runs_valid : ∃ r, r ∈ Sample.runs ∧ valid r.
Proof. exists Sample.first_ok. split; [right; left|reflexivity]. Qed.

Lemma sample_runs_finite :
  ∀ r, r ∈ Sample.runs -> valid r -> finite_metrics r.
Proof.
  intros r Hr Hv. unfold Sample.runs in Hr.
  apply elem_of_cons in Hr as [->|Hr]; [by apply sample_failed_invalid in Hv|].
  apply elem_of_cons in Hr as [->|Hr]; [by repeat split|].
  apply list_elem_of_singleton in Hr as ->. by repeat split.
Qed.

(** The record that fails is ignored; of the two records that tie on
    latency, cost and quality, the earlier one is highlighted; the mean of 250
    and 301 tokens is rounded to 276. *)
Example aggregate_sample_runs :
  aggregateHighlights Sample.runs
  = Some (Summary (Some Sample.first_ok) (Some Sample.first_ok)
            (Some Sample.first_ok) (num 276)).
Proof. reflexivity. Qed.

Lemma C6_witness :
  (∀ r, r ∈ [Sample.failed] -> ¬ valid r)
  ∧ aggregateHighlights [Sample.failed] = Some NoData.
Proof.
  assert (∀ r, r ∈ [Sample.failed] -> ¬ valid r) as H.
  { intros r ->%list_elem_of_singleton. exact sample_failed_invalid. }
  split; [exact H|].
  exact (proj1 (C6_no_valid_record_gives_no_data [Sample.failed] H)).
Defined.

Lemma C7_witness :
  latency_of Sample.first_ok = latency_of Sample.second_ok
  ∧ ∃ f c h a,
      aggregateHighlights Sample.runs = Some (Summary (Some f) (Some c) (Some h) a)
      ∧ earliest_best (fun x y => (latency_of x < latency_of y)%Q) Sample.runs f
      ∧ earliest_best (fun x y => (cost_of x < cost_of y)%Q) Sample.runs c
      ∧ earliest_best (fun x y => (quality_of y < quality_of x)%Q) Sample.runs h.
Proof.
  split; [reflexivity|].
  exact (C7_first_extremal_record_wins Sample.runs
           sample_runs_valid sample_runs_finite).
Defined.

Lemma C8_witness :
  ∃ f c h (avg : Z),
    aggregateHighlights Sample.runs
    = Some (Summary f c (Some h) (num (inject_Z avg)))
    ∧ h ∈ Sample.runs ∧ valid h
    ∧ (∀ y, y ∈ Sample.runs -> valid y -> (quality_of y <= quality_of h)%Q)
    ∧ avg = Qfloor (mean (valid_tokens Sample.runs) + (1 # 2))
    ∧ (mean (valid_tokens Sample.runs) - (1 # 2) < inject_Z avg)%Q
    ∧ (inject_Z avg <= mean (valid_tokens Sample.runs) + (1 # 2))%Q.
Proof.
  exact (C8_failed_records_are_ignored Sample.runs
           sample_runs_valid sample_runs_finite).
Defined.

(** The selection lists autogen before langgraph; the records come in
    catalogue order, langgraph first.  An identifier outside the catalogue,
    or one listed twice, adds no record. *)
Lemma C1_counterexample :
  (fmap (M:=list) combination_of
     <$> buildComparisons Sample.worlds_ok [0; 1] "Summarize AI agents"
           ["autogen"; "langgraph"] ["gpt-41"])
  = Some [("langgraph", "gpt-41"); ("autogen", "gpt-41")]
  ∧ selection_product ["autogen"; "langgraph"] ["gpt-41"]
    = [("autogen", "gpt-41"); ("langgraph", "gpt-41")]
  ∧ (fmap (M:=list) combination_of
       <$> buildComparisons Sample.worlds_ok [0; 1] "Summarize AI agents"
             ["autogen"; "langgraph"] ["gpt-41"])
    ≠ Some (selection_product ["autogen"; "langgraph"] ["gpt-41"])
  ∧ (length <$> buildComparisons Sample.worlds_ok [] "Summarize AI agents"
                  ["mystery"] ["gpt-41"]) = Some 0
  ∧ (length <$> buildComparisons Sample.worlds_ok [0] "Summarize AI agents"
                  ["langgraph"; "langgraph"] ["gpt-41"]) = Some 1.
Proof. by vm_compute. Qed.

Lemma C1_witness :
  [1; 0] ≡ₚ seq 0 (length (combos_of ["langgraph"; "autogen"] ["gpt-41"]))
  ∧ ∃ runs,
      buildComparisons Sample.worlds_ok [1; 0] "Summarize AI agents"
        ["langgraph"; "autogen"] ["gpt-41"] = Some runs
      ∧ length runs = 2
      ∧ combination_of <$> runs
        = selection_product ["langgraph"; "autogen"] ["gpt-41"].
Proof.
  assert ([1; 0] ≡ₚ seq 0 (length (combos_of ["langgraph"; "autogen"] ["gpt-41"])))
    as Hperm by apply perm_swap.
  split; [exact Hperm|].
  destruct (C1_one_record_per_picked_combination Sample.worlds_ok [1; 0]
              "Summarize AI agents" ["langgraph"; "autogen"] ["gpt-41"] Hperm)
    as (runs & Hruns & Hlen & _ & _ & Hsel).
  exists runs. split; [exact Hruns|]. split; [exact Hlen|].
  apply Hsel.
  - apply sublist_skip, sublist_skip, sublist_nil_l.
  - apply sublist_skip, sublist_nil_l.
Defined.

(** The batch in which the only route answers 500: the call is rejected and
    the record delivered for it has no safety value. *)
Example rejected_batch_has_no_safety :
  (fmap (M:=list) (fun r => (error r, safety (run_metrics r)))
     <$> buildComparisons Sample.worlds_500 [0] "Summarize AI agents"
           ["langgraph"] ["gpt-41"])
  = Some [(VStr "Provider error: 500", VUndef)].
Proof. reflexivity. Qed.

End SampleRuns.

(** * Further properties of the code *)

(** ** The provider adapter, on every answer of the upstream *)

Section AdapterCoverage.
Import Js Promise Server Terms.
Context {rt : Runtime}.


(** A value of which one property can be read lets every property be read. *)
Lemma js_get_defined v k x k' : js_get v k = Some x -> is_Some (js_get v k').
Proof. destruct v; try done; intros _; by eexists. Qed.

(** The rate [priceTable[model] || 0.002] has a number. *)
Lemma rate_has_number name :
  is_Some (ToNumber (js_or (literal_get num priceTable name) (num 0.002))).
Proof.
  rewrite price_or_fallback.
  destruct (bool_decide _); [destruct (bool_decide _)|]; by eexists.
Qed.

(** On a 2xx answer the [try] block reaches its [return] exactly when the
    message content parses to a value other than [null] and [undefined], and
    the token usage, the model, the output and the logs have a text. *)
Lemma live_record_returns res model :
  (∃ r, live_record res model = Ret r)
  <-> ∃ result tokens output logs,
        upstream_result res = Some result
        ∧ upstream_tokens res = Some tokens
        ∧ js_get result "output" = Some output
        ∧ js_get result "logs" = Some logs
        ∧ is_Some (ToString tokens)
        ∧ is_Some (ToString model)
        ∧ is_Some (ToString output)
        ∧ is_Some (ToString logs).
Proof.
  split.
  - intros [r Hr]. apply live_record_inv in Hr
      as (result & tokens & thousandth & rate & cost & output & headed & logs
          & full & steps & quality & coverage
          & Hres & Htok & Hdiv & Hrate & _ & Hout & Hhead & Hlogs & Hfull & _).
    exists result, tokens, output, logs. split_and!; try done.
    + apply (js_div_is_Some tokens 1000). by eexists.
    + unfold priceTable_at in Hrate.
      destruct (ToString model); [by eexists|done].
    + rewrite js_add_text_r in Hhead.
      destruct (ToString output); [by eexists|done].
    + rewrite js_add_text_r in Hhead.
      destruct (ToString output) as [t|]; [|done].
      injection Hhead as <-. rewrite js_add_text_l in Hfull.
      destruct (ToString logs); [by eexists|done].
  - intros (result & tokens & output & logs & Hres & Htok & Hout & Hlogs
            & Htokens & [name Hname] & [otext Hotext] & [ltext Hltext]).
    apply (js_div_is_Some tokens 1000) in Htokens as [thousandth Hdiv].
    pose proof (js_div_number _ _ _ Hdiv) as [n ->].
    destruct (rate_has_number name) as [rate Hnum].
    destruct (js_get_defined result "output" output "steps" Hout) as [steps Hsteps].
    destruct (js_get_defined result "output" output "quality" Hout) as [quality Hq].
    destruct (js_get_defined result "output" output "coverage" Hout) as [coverage Hc].
    unfold live_record, upstream_result, upstream_tokens in *.
    destruct (json res) as [data|e]; simpl in *; [|done].
    repeat match type of Hres with
    | context [js_get ?v ?k] =>
        destruct (js_get v k); simpl in Hres |- *; [|done]
    | context [js_first ?v] =>
        destruct (js_first v); simpl in Hres |- *; [|done]
    end.
    destruct (ToString _) as [text|] in Hres |- *; simpl in Hres |- *; [|done].
    rewrite Hres. simpl.
    destruct (js_get data "usage") as [usage|]; simpl in *; [|done].
    rewrite Htok. simpl. rewrite Hdiv. simpl.
    unfold priceTable_at. rewrite Hname. simpl.
    unfold js_mul. cbn [ToNumber]. rewrite Hnum. simpl.
    rewrite Hout. simpl. rewrite js_add_text_r, Hotext. simpl.
    rewrite Hlogs. simpl. rewrite js_add_text_l, Hltext. simpl.
    rewrite Hsteps. simpl. rewrite Hq. simpl. rewrite Hc. simpl.
    by eexists.
Qed.




(** X2: with a key that passes the guard, a network failure, or a 2xx answer
    whose body is not JSON, lacks the message content or the token usage, or
    whose content does not parse or parses to [null], or whose token usage,
    output or logs have no text, is answered with the Mock Path record after
    the single request. *)
Theorem unusable_answer_is_mocked w key task model framework styles stepsHint
    req :
  key_unusable key = false ->
  request_of key task model framework styles stepsHint = Some req ->
  match net w req with
  | Rejected _ => True
  | Fulfilled res =>
      ok res = true
      ∧ (upstream_result res = None ∨ upstream_result res = Some VNull
         ∨ upstream_tokens res = None
         ∨ (∃ tokens, upstream_tokens res = Some tokens ∧ ToString tokens = None)
         ∨ (∃ result k v, upstream_result res = Some result
                          ∧ (k = "output" ∨ k = "logs")
                          ∧ js_get result k = Some v ∧ ToString v = None))
  end ->
  ∃ taskText,
    ToString task = Some taskText
    ∧ run w (simulateAgent key task model framework styles stepsHint)
      = ([EvFetch req; EvSleep 100], Fulfilled (mock_record framework taskText)).
Proof.
  intros Hk Hreq Hnet.
  pose proof Hreq as (taskText & modelText & Ht & _ & _)%request_of_Some.
  exists taskText. split; [done|].
  destruct (net w req) as [res|e] eqn:Hn; [|by eapply run_network_failure].
  destruct Hnet as [Hok Hbad].
  destruct (live_record_settles res model) as [[r Hr]|[e He]];
    [|by eapply run_live_throw].
  exfalso.
  destruct (proj1 (live_record_returns res model) (ex_intro _ r Hr))
    as (result & tokens & output & logs & Hres & Htok & Hout & Hlogs
        & [? Htt] & _ & [? Hot] & [? Hlt]).
  destruct Hbad as [H|[H|[H|[(tokens' & H & Hnone)|(result' & k & v & H & Hkey & Hv & Hnone)]]]].
  - congruence.
  - rewrite H in Hres. injection Hres as <-. discriminate Hout.
  - congruence.
  - congruence.
  - assert (result' = result) as -> by congruence.
    destruct Hkey as [-> | ->]; congruence.
Qed.

(** X3: on a 2xx answer to the request of a key that passes the guard, the
    Live Path succeeds exactly when the message content parses to a value of
    which [output] and [logs] can be read and have a text, and the token
    usage can be read and has a text, hence a number. *)
Theorem live_path_succeeds_iff w key task model framework styles stepsHint
    req res :
  key_unusable key = false ->
  request_of key task model framework styles stepsHint = Some req ->
  net w req = Fulfilled res ->
  ok res = true ->
  (∃ r, live_success w key task model framework styles stepsHint res r)
  <-> ∃ result tokens output logs,
        upstream_result res = Some result
        ∧ upstream_tokens res = Some tokens
        ∧ js_get result "output" = Some output
        ∧ js_get result "logs" = Some logs
        ∧ is_Some (ToString tokens)
        ∧ is_Some (ToString output)
        ∧ is_Some (ToString logs).
Proof.
  intros Hk Hreq Hn Hok.
  pose proof Hreq as (taskText & modelText & _ & Hm & _)%request_of_Some.
  unfold live_success. split.
  - intros (r & _ & _ & _ & Hr).
    destruct (proj1 (live_record_returns res model) (ex_intro _ r Hr))
      as (result & tokens & output & logs & ? & ? & ? & ? & ? & _ & ? & ?).
    by exists result, tokens, output, logs.
  - intros (result & tokens & output & logs & ? & ? & ? & ? & ? & ? & ?).
    destruct (proj2 (live_record_returns res model)) as [r Hr].
    { exists result, tokens, output, logs. split_and!; try done; by eexists. }
    exists r. split_and!; try done. by exists req.
Qed.


End AdapterCoverage.

(** ** The adapter call of the browser, on every answer of the route *)

Section ClientCoverage.
Import Js Promise Client App Terms.
Context {rt : Runtime}.

Lemma PROVIDER_MAP_catalogue fw :
  fw ∈ frameworks -> PROVIDER_MAP !! fw_id fw = Some ("/api/" +:+ fw_id fw).
Proof.
  unfold frameworks. intros Hfw.
  repeat (apply elem_of_cons in Hfw as [->|Hfw]; [by vm_compute|]).
  by apply elem_of_nil in Hfw.
Qed.

(** The run of [runAgent] once the read of the map has given a truthy
    endpoint: one request, and the outcome read off the answer. *)
Lemma run_runAgent_sends w task frameworkId modelId address :
  truthy (literal_get VStr PROVIDER_MAP frameworkId) = true ->
  ToString (literal_get VStr PROVIDER_MAP frameworkId) = Some address ->
  (run w (runAgent task frameworkId modelId)).1
  = [EvFetch (provider_request address task modelId)].
Proof.
  intros Htruthy Haddress. unfold runAgent, run. simpl.
  rewrite Htruthy, Haddress. simpl.
  destruct (net w _) as [res|e]; simpl; [|done].
  destruct (negb (ok res)); simpl; [done|].
  destruct (json res) as [data|e]; simpl; [|done].
  repeat match goal with
  | |- context [or_throw ?o _] => destruct o; simpl; [|done]
  end.
  done.
Qed.

Lemma endpoint_of_catalogue fw :
  fw ∈ frameworks ->
  literal_get VStr PROVIDER_MAP (fw_id fw) = VStr ("/api/" +:+ fw_id fw).
Proof.
  intros Hfw. unfold literal_get. by rewrite (PROVIDER_MAP_catalogue fw Hfw).
Qed.

Lemma run_runAgent_events w task fw modelId :
  fw ∈ frameworks ->
  (run w (runAgent task (fw_id fw) modelId)).1
  = [EvFetch (provider_request ("/api/" +:+ fw_id fw) task modelId)].
Proof.
  intros Hfw. apply run_runAgent_sends; rewrite (endpoint_of_catalogue fw Hfw).
  - unfold frameworks in Hfw.
    repeat (apply elem_of_cons in Hfw as [->|Hfw]; [done|]).
    by apply elem_of_nil in Hfw.
  - done.
Qed.

Lemma run_runAgent_not_ok w task fw modelId res :
  fw ∈ frameworks ->
  net w (provider_request ("/api/" +:+ fw_id fw) task modelId) = Fulfilled res ->
  ok res = false ->
  (run w (runAgent task (fw_id fw) modelId)).2
  = Rejected (new_Error ("Provider error: "
                         +:+ number_text (Fin (inject_Z (status res))))).
Proof.
  intros Hfw Hn Hok. unfold runAgent, run. simpl.
  rewrite (endpoint_of_catalogue fw Hfw). simpl.
  rewrite Hn. simpl. by rewrite Hok.
Qed.

Lemma run_runAgent_network w task fw modelId e :
  fw ∈ frameworks ->
  net w (provider_request ("/api/" +:+ fw_id fw) task modelId) = Rejected e ->
  (run w (runAgent task (fw_id fw) modelId)).2 = Rejected e.
Proof.
  intros Hfw Hn. unfold runAgent, run. simpl.
  rewrite (endpoint_of_catalogue fw Hfw). simpl.
  by rewrite Hn.
Qed.

(** A body followed by a [then] that cannot fail. *)
Lemma run_from_then {A B} (f : A -> B) w (m : Async A) : ∀ tick,
  run_from w tick (a ← m; mret (f a))
  = ((run_from w tick m).1,
     match (run_from w tick m).2 with
     | Fulfilled a => Fulfilled (f a)
     | Rejected e => Rejected e
     end).
Proof.
  induction m as [a|e|ms k IH|k IH|req k IH]; intros tick; try done.
  - change (run_from w tick (a ← Sleep ms k; mret (f a)))
      with (let '(evs, r) := run_from w tick (a ← k; mret (f a)) in
            (EvSleep ms :: evs, r)).
    rewrite IH. simpl. by destruct (run_from w tick k).
  - apply IH.
  - change (run_from w tick (a ← Fetch req k; mret (f a)))
      with (let '(evs, r) := run_from w tick (a ← k (net w req); mret (f a)) in
            (EvFetch req :: evs, r)).
    rewrite IH. simpl. by destruct (run_from w tick (k (net w req))).
Qed.

Lemma run_combo_call w nextTask c :
  run w (combo_call nextTask c)
  = ((run w (runAgent nextTask (fw_id c.1) (m_id c.2))).1,
     match (run w (runAgent nextTask (fw_id c.1) (m_id c.2))).2 with
     | Fulfilled res => Fulfilled (c.1, c.2, res)
     | Rejected e => Rejected e
     end).
Proof. apply (run_from_then (fun res => (c.1, c.2, res))). Qed.

Lemma error_of_rejection c msg :
  msg ≠ EmptyString ->
  error (to_run c (Rejected (new_Error msg))) = VStr msg.
Proof.
  intros Hmsg. destruct c as [fw m]. simpl. unfold js_or. simpl.
  destruct (String.eqb msg EmptyString) eqn:E; [|done].
  by apply String.eqb_eq in E.
Qed.

(** X5: an identifier that is neither a key of the endpoint map nor a name
    that [Object.prototype] defines makes [runAgent] reject at once, without
    any request, with the message No endpoint for followed by the
    identifier, and the record built for that rejection shows the message.
    For a name that [Object.prototype] defines, such as constructor, the read
    of the map yields a built-in, which is truthy: the call is not rejected
    at the check and sends a request to the text of that built-in. *)
Theorem unknown_framework_is_rejected_unsent w task frameworkId modelId :
  PROVIDER_MAP !! frameworkId = None ->
  (frameworkId ∉ Object_prototype_keys ->
   run w (runAgent task frameworkId modelId)
   = ([], Rejected (new_Error ("No endpoint for " +:+ frameworkId)))
   ∧ ∀ c, error (to_run c (Rejected (new_Error ("No endpoint for " +:+ frameworkId))))
          = VStr ("No endpoint for " +:+ frameworkId))
  ∧ (frameworkId ∈ Object_prototype_keys ->
     (run w (runAgent task frameworkId modelId)).1
     = [EvFetch (provider_request (builtin_text frameworkId) task modelId)]).
Proof.
  intros Hnone.
  assert (literal_get VStr PROVIDER_MAP frameworkId = inherited frameworkId)
    as Hread by (unfold literal_get; by rewrite Hnone).
  split.
  - intros Hout. split.
    + unfold runAgent, run. simpl.
      by rewrite Hread, inherited_unlisted.
    + intros c. by apply error_of_rejection.
  - intros Hin. apply run_runAgent_sends; by rewrite Hread, inherited_listed.
Qed.

(** X6: in a batch, a route that answers with a status outside 200-299
    yields, at the index of its combination, a record whose error is
    Provider error: followed by the status, with zero metrics and no steps,
    which the aggregator does not count as valid. *)
Theorem provider_error_becomes_error_record worlds nextTask i (c : Framework * Model) res :
  c.1 ∈ frameworks ->
  net (worlds i) (provider_request ("/api/" +:+ fw_id c.1) nextTask (m_id c.2))
  = Fulfilled res ->
  ok res = false ->
  error (record_of worlds nextTask i c)
  = VStr ("Provider error: " +:+ number_text (Fin (inject_Z (status res))))
  ∧ tokens (run_metrics (record_of worlds nextTask i c)) = num 0
  ∧ cost (run_metrics (record_of worlds nextTask i c)) = num 0
  ∧ quality (run_metrics (record_of worlds nextTask i c)) = num 0
  ∧ run_steps (record_of worlds nextTask i c) = VArr []
  ∧ ¬ valid (record_of worlds nextTask i c).
Proof.
  intros Hfw Hn Hok. unfold record_of.
  rewrite run_combo_call. cbn [snd].
  rewrite (run_runAgent_not_ok _ _ _ _ res) by done.
  assert (error (to_run c (Rejected (new_Error
            ("Provider error: " +:+ number_text (Fin (inject_Z (status res)))))))
          = VStr ("Provider error: " +:+ number_text (Fin (inject_Z (status res)))))
    as Herr by (by apply error_of_rejection).
  split; [done|]. destruct c as [fw m]. by split_and!.
Qed.

(** X7: a fulfilled call carries every metric: none of tokens, cost,
    quality, coverage, safety, latency and steps is [null] or [undefined],
    whatever the route left out of its answer. *)
Theorem fulfilled_result_has_every_metric w nextTask frameworkId modelId v :
  (run w (runAgent nextTask frameworkId modelId)).2 = Fulfilled v ->
  nullish (tokens (metrics v)) = false
  ∧ nullish (cost (metrics v)) = false
  ∧ nullish (quality (metrics v)) = false
  ∧ nullish (coverage (metrics v)) = false
  ∧ nullish (safety (metrics v)) = false
  ∧ nullish (latency (metrics v)) = false
  ∧ nullish (steps v) = false.
Proof.
  assert (∀ x d, nullish d = false -> nullish (js_nullish x d) = false) as Hnn.
  { intros x d Hd. unfold js_nullish. by destruct (nullish x) eqn:E. }
  unfold runAgent, run. simpl.
  destruct (negb (truthy _)); [done|].
  destruct (ToString _) as [address|]; simpl; [|done].
  destruct (net w _) as [res|e]; simpl; [|done].
  destruct (negb (ok res)); simpl; [done|].
  destruct (json res) as [data|e]; simpl; [|done].
  repeat match goal with
  | |- context [or_throw ?o _] => destruct o; simpl; [|done]
  end.
  intros [= <-]. simpl. split_and!; try done; by apply Hnn.
Qed.

(** X8: every combination of a batch sends exactly one request: a POST to
    /api/ followed by the framework identifier, whose body holds the task
    and the model identifier. *)
Theorem each_combination_posts_once worlds nextTask nextFrameworks nextModels i c :
  combos_of nextFrameworks nextModels !! i = Some c ->
  (run (worlds i) (combo_call nextTask c)).1
  = [EvFetch {| url := "/api/" +:+ fw_id c.1;
                method := "POST";
                headers := [("Content-Type", "application/json")];
                body := VObj [("task", VStr nextTask);
                              ("modelId", VStr (m_id c.2))] |}].
Proof.
  intros Hc. rewrite run_combo_call. cbn [fst].
  apply run_runAgent_events.
  apply list_elem_of_lookup_2 in Hc. unfold combos_of in Hc.
  apply list_elem_of_bind in Hc as (fw & Hc & Hfw).
  apply list_elem_of_fmap in Hc as (m & -> & _). simpl.
  unfold pickedFrameworks in Hfw. by apply list_elem_of_filter in Hfw as [_ ?].
Qed.

End ClientCoverage.

(** ** The batch and its highlights *)

Section BatchCoverage.
Import Js Promise Client App Helpers Terms.
Context {rt : Runtime}.

Lemma Promise_allSettled_Some {A} (outcomes : list (Settled A)) order results :
  Promise_allSettled outcomes order = Some results ->
  results = outcomes ∧ ∀ i, i < length outcomes -> i ∈ order.
Proof.
  intros Hsome.
  assert (∀ i, i < length outcomes -> i ∈ order) as Hall.
  { intros i Hi. destruct (decide (i ∈ order)) as [|Hni]; [done|].
    by rewrite (Promise_allSettled_pending outcomes order i Hi Hni) in Hsome. }
  split; [|done].
  rewrite (Promise_allSettled_aligned outcomes order Hall) in Hsome.
  by injection Hsome.
Qed.

(** A delivered batch is the list of the records of its combinations. *)
Lemma buildComparisons_Some worlds order nextTask nextFrameworks nextModels runs :
  buildComparisons worlds order nextTask nextFrameworks nextModels = Some runs ->
  runs = imap (record_of worlds nextTask) (combos_of nextFrameworks nextModels).
Proof.
  intros Hsome.
  assert (∀ i, i < length (combos_of nextFrameworks nextModels) -> i ∈ order)
    as Hall.
  { unfold buildComparisons in Hsome.
    destruct (Promise_allSettled _ order) as [results|] eqn:Hp; [|done].
    apply Promise_allSettled_Some in Hp as [_ Hall].
    intros i Hi. apply Hall. by rewrite length_imap. }
  rewrite (buildComparisons_records _ _ _ _ _ Hall) in Hsome.
  by injection Hsome.
Qed.

Lemma rejected_record_invalid c reason : ¬ valid (to_run c (Rejected reason)).
Proof.
  destruct c as [fw m]. unfold valid. simpl. unfold js_or.
  by destruct (truthy (js_get_opt reason "message")) eqn:E; rewrite ?E.
Qed.

Lemma filter_valid_idemp (runs : list Run) :
  base.filter valid (base.filter valid runs) = base.filter valid runs.
Proof.
  induction runs as [|r runs IH]; [done|].
  rewrite (filter_cons valid). destruct (decide (valid r)) as [Hv|Hv]; [|done].
  rewrite filter_cons_True by done. by rewrite IH.
Qed.

Lemma aggregate_unfold (runs : list Run) :
  aggregateHighlights runs
  = match base.filter valid runs with
    | [] => Some NoData
    | v :: vs => aggregateHighlights (v :: vs)
    end.
Proof.
  destruct (base.filter valid runs) as [|v vs] eqn:Hf.
  - unfold aggregateHighlights.
    destruct (length runs =? 0)%nat; [done|]. cbv zeta.
    change (fun r : Run => truthy (error r) = false) with valid.
    by rewrite Hf.
  - rewrite (aggregate_some_valid runs v vs Hf).
    symmetry. apply aggregate_some_valid.
    rewrite <- Hf. apply filter_valid_idemp.
Qed.

(** With a valid record in the input the aggregator returns a summary or
    throws: it does not return the empty object. *)
Lemma aggregate_NoData (runs : list Run) :
  aggregateHighlights runs = Some NoData <-> ∀ r, r ∈ runs -> ¬ valid r.
Proof.
  split.
  - destruct (base.filter valid runs) as [|v vs] eqn:Hf.
    + intros _ r Hr Hv. by apply (filter_nil_not_elem_of _ _ r Hf Hv).
    + rewrite (aggregate_some_valid runs v vs Hf). intros Hagg.
      apply bind_Some in Hagg as (f' & _ & Hagg).
      apply bind_Some in Hagg as (c' & _ & Hagg).
      apply bind_Some in Hagg as (h' & _ & Hagg).
      apply bind_Some in Hagg as (total & _ & Hagg).
      apply bind_Some in Hagg as (quotient & _ & Hagg).
      apply bind_Some in Hagg as (avg & _ & Hagg).
      discriminate Hagg.
  - intros H. rewrite aggregate_unfold. by rewrite filter_valid_nil.
Qed.

Lemma valid_record_gives_summary (runs : list Run) (r : Run) :
  r ∈ runs -> valid r -> aggregateHighlights runs ≠ Some NoData.
Proof.
  intros Hr Hv Hnone. by apply (proj1 (aggregate_NoData runs) Hnone r).
Qed.

Lemma product_sublist {A B} (l1 l1' : list A) (l2 l2' : list B) :
  sublist l1' l1 -> sublist l2' l2 ->
  sublist (l1' ≫= (fun a => (fun b => (a, b)) <$> l2'))
          (l1 ≫= (fun a => (fun b => (a, b)) <$> l2)).
Proof.
  intros H1 H2. induction H1 as [|x k l H1 IH|x k l H1 IH].
  - done.
  - rewrite !bind_cons. apply sublist_app; [by apply fmap_sublist|done].
  - rewrite bind_cons. by apply sublist_inserts_l.
Qed.

Lemma catalogue_ids_NoDup :
  NoDup (record_id <$> (frameworks ≫= (fun fw => (fun m => (fw, m)) <$> models))).
Proof. apply (bool_decide_unpack _). by vm_compute. Qed.

Lemma picked_length (ids selection : list string) :
  NoDup ids -> selection_of ids selection ->
  length (base.filter (fun x => x ∈ selection) ids) = length selection.
Proof.
  intros Hids [Hnd Hsub]. apply Permutation_length, NoDup_Permutation.
  - by apply NoDup_filter.
  - done.
  - intros x. rewrite list_elem_of_filter. split; [tauto|]. auto.
Qed.

(** X9: while one call of the batch has not settled, nothing is
    delivered: no partial list of records ever replaces the state. *)
Theorem pending_batch_is_not_delivered worlds order nextTask nextFrameworks
    nextModels i :
  i < length (combos_of nextFrameworks nextModels) ->
  i ∉ order ->
  buildComparisons worlds order nextTask nextFrameworks nextModels = None.
Proof.
  intros Hi Hni. unfold buildComparisons.
  rewrite (Promise_allSettled_pending _ order i); [done| |done].
  by rewrite length_imap.
Qed.

(** X10: the batch depends on the selections only through the identifiers
    they contain: two selections with the same members, in whatever order and
    with whatever repetitions, give the same records in the same order. *)
Theorem batch_depends_on_membership_only worlds order nextTask
    (fs fs' ms ms' : list string) :
  (∀ x, x ∈ fs <-> x ∈ fs') ->
  (∀ x, x ∈ ms <-> x ∈ ms') ->
  buildComparisons worlds order nextTask fs ms
  = buildComparisons worlds order nextTask fs' ms'.
Proof.
  intros Hf Hm. unfold buildComparisons.
  assert (combos_of fs ms = combos_of fs' ms') as ->; [|done].
  unfold combos_of, pickedFrameworks, pickedModels.
  rewrite (list_filter_iff (fun fw => fw_id fw ∈ fs) (fun fw => fw_id fw ∈ fs'))
    by (intros fw; apply Hf).
  rewrite (list_filter_iff (fun m => m_id m ∈ ms) (fun m => m_id m ∈ ms'))
    by (intros m; apply Hm).
  done.
Qed.

(** X11: the records of a delivered batch have pairwise distinct ids,
    whatever the selections. *)
Theorem record_ids_are_distinct worlds order nextTask nextFrameworks nextModels runs :
  buildComparisons worlds order nextTask nextFrameworks nextModels = Some runs ->
  NoDup (id <$> runs).
Proof.
  intros ->%buildComparisons_Some.
  assert (id <$> imap (record_of worlds nextTask) (combos_of nextFrameworks nextModels)
          = record_id <$> combos_of nextFrameworks nextModels) as ->.
  { apply list_eq. intros i.
    rewrite !list_lookup_fmap, list_lookup_imap.
    destruct (combos_of _ _ !! i) as [c|]; [|done]. simpl.
    by destruct (record_combination worlds nextTask i c) as (_ & _ & ->). }
  apply (sublist_NoDup _ _ catalogue_ids_NoDup).
  apply fmap_sublist, product_sublist; apply sublist_filter.
Qed.

(** X12: when every call of a batch is rejected, the batch, once every
    call has settled, in whatever order, still delivers one record per
    combination; none of them is valid and the highlights are the empty
    object. *)
Theorem all_rejected_batch_has_no_data worlds order nextTask nextFrameworks
    nextModels :
  order ≡ₚ seq 0 (length (combos_of nextFrameworks nextModels)) ->
  (∀ i c, combos_of nextFrameworks nextModels !! i = Some c ->
          ∃ e, (run (worlds i) (runAgent nextTask (fw_id c.1) (m_id c.2))).2
               = Rejected e) ->
  ∃ runs,
    buildComparisons worlds order nextTask nextFrameworks nextModels = Some runs
    ∧ length runs = length (combos_of nextFrameworks nextModels)
    ∧ (∀ r, r ∈ runs -> ¬ valid r)
    ∧ aggregateHighlights runs = Some NoData.
Proof.
  intros Hperm Hrej.
  exists (imap (record_of worlds nextTask) (combos_of nextFrameworks nextModels)).
  assert (∀ r, r ∈ imap (record_of worlds nextTask)
                        (combos_of nextFrameworks nextModels) -> ¬ valid r)
    as Hinvalid.
  { intros r Hr. apply list_elem_of_lookup in Hr as [i Hi].
    rewrite list_lookup_imap in Hi.
    destruct (combos_of _ _ !! i) as [c|] eqn:Hc; [|done].
    injection Hi as <-. destruct (Hrej i c Hc) as [e He].
    unfold record_of. rewrite run_combo_call. cbn [snd]. rewrite He.
    apply rejected_record_invalid. }
  split_and!.
  - apply buildComparisons_records. intros i Hi.
    rewrite Hperm. apply elem_of_seq. lia.
  - apply length_imap.
  - done.
  - by apply aggregate_NoData.
Qed.

(** X13: for selections made of catalogue identifiers without repetition,
    as the toggles produce them, a delivered batch has exactly
    |frameworkIds| x |modelIds| records. *)
Theorem selection_record_count worlds order nextTask nextFrameworks nextModels runs :
  selection_of (fw_id <$> frameworks) nextFrameworks ->
  selection_of (m_id <$> models) nextModels ->
  buildComparisons worlds order nextTask nextFrameworks nextModels = Some runs ->
  length runs = length nextFrameworks * length nextModels.
Proof.
  intros Hf Hm ->%buildComparisons_Some.
  rewrite length_imap. unfold combos_of. rewrite product_length.
  assert (length (pickedFrameworks nextFrameworks) = length nextFrameworks) as ->.
  { rewrite <- (length_fmap fw_id). unfold pickedFrameworks.
    etrans; [exact (f_equal length
      (filter_fmap_pre fw_id (fun x => x ∈ nextFrameworks) frameworks))|].
    apply picked_length; auto using framework_ids_NoDup. }
  assert (length (pickedModels nextModels) = length nextModels) as ->; [|done].
  rewrite <- (length_fmap m_id). unfold pickedModels.
  etrans; [exact (f_equal length
    (filter_fmap_pre m_id (fun x => x ∈ nextModels) models))|].
  apply picked_length; auto using model_ids_NoDup.
Qed.

(** X14: error-flagged records have no influence on the highlights: the
    aggregator returns the same object for a list and for the list of its
    valid records. *)
Theorem aggregate_ignores_error_records (runs : list Run) :
  aggregateHighlights runs = aggregateHighlights (base.filter valid runs).
Proof.
  rewrite (aggregate_unfold runs), (aggregate_unfold (base.filter valid runs)).
  by rewrite filter_valid_idemp.
Qed.

(** X15: the aggregator returns the empty object exactly when no record
    of its input is valid. *)
Theorem no_data_iff_no_valid_record (runs : list Run) :
  aggregateHighlights runs = Some NoData <-> ∀ r, r ∈ runs -> ¬ valid r.
Proof.
  split.
  - intros Hnone r Hr Hv.
    by apply (valid_record_gives_summary runs r Hr Hv).
  - intros Hinvalid. rewrite aggregate_unfold. by rewrite filter_valid_nil.
Qed.

(** X16: whatever the metrics (NaN and strings included), each record of
    a summary that the aggregator returns is a valid record of the input. *)
Theorem highlights_are_valid_records (runs : list Run) f c h a :
  aggregateHighlights runs = Some (Summary f c h a) ->
  ∃ f' c' h',
    f = Some f' ∧ c = Some c' ∧ h = Some h'
    ∧ (f' ∈ runs ∧ valid f') ∧ (c' ∈ runs ∧ valid c') ∧ (h' ∈ runs ∧ valid h').
Proof.
  intros Hagg.
  destruct (base.filter valid runs) as [|v vs] eqn:Hf.
  { rewrite aggregate_unfold, Hf in Hagg. discriminate Hagg. }
  rewrite (aggregate_some_valid runs v vs Hf) in Hagg.
  apply bind_Some in Hagg as (fastest & H1 & Hagg).
  apply bind_Some in Hagg as (cheapest & H2 & Hagg).
  apply bind_Some in Hagg as (highest & H3 & Hagg).
  apply bind_Some in Hagg as (total & _ & Hagg).
  apply bind_Some in Hagg as (quotient & _ & Hagg).
  apply bind_Some in Hagg as (avg & _ & Hagg).
  injection Hagg as <- <- <- _.
  apply reduce_best_member in H1 as (f' & -> & H1); [|done].
  apply reduce_best_member in H2 as (c' & -> & H2); [|done].
  apply reduce_best_member in H3 as (h' & -> & H3); [|done].
  rewrite <- Hf in H1, H2, H3.
  apply list_elem_of_filter in H1, H2, H3.
  exists f', c', h'. split_and!; tauto.
Qed.

End BatchCoverage.

(** ** The helpers of the application and its selection state *)

Section HelperCoverage.
Import Js Promise Client App Helpers Terms.
Context {rt : Runtime}.

Lemma ToInt32_range z : (- 2 ^ 31 <= ToInt32 z < 2 ^ 31)%Z.
Proof.
  unfold ToInt32.
  pose proof (Z.mod_pos_bound (z + 2 ^ 31) (2 ^ 32) ltac:(lia)). lia.
Qed.

Lemma charCode_range c : (0 <= charCode c <= 255)%Z.
Proof.
  unfold charCode. pose proof (nat_ascii_bounded c). lia.
Qed.

Lemma hash_from_range value : ∀ hash,
  (- 2 ^ 31 <= hash <= 2 ^ 31 + 254)%Z ->
  (- 2 ^ 31 <= hash_from hash value <= 2 ^ 31 + 254)%Z.
Proof.
  induction value as [|c rest IH]; intros hash Hh; [done|].
  simpl. apply IH.
  pose proof (ToInt32_range (ToInt32 31 * ToInt32 hash)).
  pose proof (charCode_range c). unfold Math_imul. lia.
Qed.

Lemma hashString_bounds value : (0 <= hashString value <= 2 ^ 31 + 254)%Z.
Proof.
  unfold hashString.
  pose proof (hash_from_range value 0 ltac:(lia)). lia.
Qed.

(** Below 2^53 an integer is a double; the double of a non-negative
    integer is not negative. *)
Lemma double_of_Z_exact z : (Z.abs z < 2 ^ 53)%Z -> double_of_Z z = z.
Proof.
  intros Hz. unfold double_of_Z.
  by destruct (Z.ltb_spec (Z.abs z) (2 ^ 53)); [|lia].
Qed.

Lemma double_of_Z_nonneg z : (0 <= z)%Z -> (0 <= double_of_Z z)%Z.
Proof.
  intros Hz. unfold double_of_Z.
  destruct (Z.abs z <? 2 ^ 53)%Z; [done|].
  set (e := (Z.log2 (Z.abs z) - 52)%Z).
  assert (0 <= 2 ^ e)%Z as He by (apply Z.pow_nonneg; lia).
  assert (0 <= Z.abs z / 2 ^ e)%Z as Hq.
  { destruct (Z.eq_dec (2 ^ e)%Z 0%Z) as [->|Hne]; [by rewrite Z.div_0_r|].
    apply Z.div_pos; lia. }
  assert (0 <= Z.sgn z)%Z as Hs by lia.
  destruct (if (2 ^ (e - 1) <? Z.abs z mod 2 ^ e)%Z then true
            else if (Z.abs z mod 2 ^ e <? 2 ^ (e - 1))%Z then false
                 else Z.odd (Z.abs z / 2 ^ e)); nia.
Qed.

Lemma double_of_Z_rounds s :
  (2 ^ 53 <= s < 2 ^ 54)%Z -> double_of_Z s = even_neighbour s.
Proof.
  intros Hs. unfold double_of_Z, even_neighbour.
  rewrite Z.abs_eq by lia.
  destruct (Z.ltb_spec s (2 ^ 53)) as [|_]; [lia|].
  assert (Z.log2 s = 53%Z) as -> by (apply Z.log2_unique; lia).
  change (53 - 52)%Z with 1%Z. change (2 ^ (1 - 1))%Z with 1%Z.
  change (2 ^ 1)%Z with 2%Z.
  rewrite Z.sgn_pos by lia.
  pose proof (Z.div_mod s 2 ltac:(lia)) as Hdiv.
  pose proof (Z.mod_pos_bound s 2 ltac:(lia)) as Hmod.
  destruct (Z.ltb_spec 1 (s mod 2)) as [?|_]; [lia|].
  destruct (Z.ltb_spec (s mod 2) 1) as [Hr0|Hr1].
  - assert (Z.even s = true) as ->
      by (apply Z.even_spec; exists (s / 2)%Z; lia).
    lia.
  - assert (Z.odd s = true) as Hodd
      by (apply Z.odd_spec; exists (s / 2)%Z; lia).
    rewrite <- (Z.negb_odd s), Hodd. cbn [negb].
    rewrite <- Z.negb_odd. destruct (Z.odd (s / 2)); cbn [negb]; lia.
Qed.

Lemma pick_member {A} (list : list A) seed offset :
  list ≠ [] -> (0 <= seed + offset)%Z ->
  ∃ x, pick list seed offset = Some x ∧ x ∈ list.
Proof.
  intros Hne Hpos. unfold pick, double_add.
  pose proof (double_of_Z_nonneg (seed + offset) Hpos) as Hsum.
  set (sum := double_of_Z (seed + offset)) in *.
  destruct list as [|a l]; [done|]. set (L := a :: l) in *.
  change (length L =? 0)%nat with false. cbv iota zeta.
  assert (0 < Z.of_nat (length L))%Z as HL by (subst L; simpl; lia).
  pose proof (Z.rem_bound_pos sum (Z.of_nat (length L)) Hsum HL) as [Hlo Hhi].
  destruct (Z.ltb_spec (Z.rem sum (Z.of_nat (length L))) 0); [lia|].
  destruct (lookup_lt_is_Some_2 L (Z.to_nat (Z.rem sum (Z.of_nat (length L)))))
    as [x Hx]; [lia|].
  exists x. split; [done|]. by eapply list_elem_of_lookup_2.
Qed.

(** Below 2^53 the sum is exact and the index is its remainder. *)
Lemma pick_exact {A} (list : list A) seed offset :
  list ≠ [] -> (0 <= seed + offset < 2 ^ 53)%Z ->
  pick list seed offset
  = list !! Z.to_nat ((seed + offset) mod Z.of_nat (length list)).
Proof.
  intros Hne Hsum. unfold pick, double_add.
  rewrite double_of_Z_exact by lia.
  destruct list as [|a l]; [done|]. set (L := a :: l) in *.
  change (length L =? 0)%nat with false. cbv iota zeta.
  assert (0 < Z.of_nat (length L))%Z as HL by (subst L; simpl; lia).
  rewrite Z.rem_mod_nonneg by lia.
  pose proof (Z.mod_pos_bound (seed + offset) (Z.of_nat (length L)) HL).
  by destruct (Z.ltb_spec ((seed + offset) mod Z.of_nat (length L)) 0); [lia|].
Qed.

(** X17: [hashString] returns an integer between 0 and 2^31 + 254, for
    every string of 8-bit code units; the empty string hashes to 0. *)
Theorem hashString_range value :
  (0 <= hashString value <= 2 ^ 31 + 254)%Z ∧ hashString EmptyString = 0%Z.
Proof.
  split; [|done]. unfold hashString.
  assert (- 2 ^ 31 <= hash_from 0 value <= 2 ^ 31 + 254)%Z as Hrange.
  { apply hash_from_range. lia. }
  lia.
Qed.

(** X18: on a non-empty list and for integers whose sum is not negative
    (and below 2^1023, far from the largest double), [pick] returns an
    element of the list.  While the sum is below 2^53 the addition is exact:
    the element is the one at the remainder of the sum by the length, and it
    is the same one after a full turn of the list as long as the sum stays
    below 2^53.  From 2^53 to 2^54 the sum is rounded to an even integer, an
    odd sum going to the neighbouring multiple of 4, and the element is the
    one at the remainder of the rounded sum.  On the empty list [pick]
    returns [undefined]. *)
Theorem pick_returns_an_element {A} (list : list A) seed offset :
  list ≠ [] -> (0 <= seed + offset < 2 ^ 1023)%Z ->
  (∃ x, pick list seed offset = Some x ∧ x ∈ list)
  ∧ ((seed + offset < 2 ^ 53)%Z ->
     pick list seed offset
     = list !! Z.to_nat ((seed + offset) mod Z.of_nat (length list)))
  ∧ ((seed + Z.of_nat (length list) + offset < 2 ^ 53)%Z ->
     pick list (seed + Z.of_nat (length list)) offset = pick list seed offset)
  ∧ ((2 ^ 53 <= seed + offset < 2 ^ 54)%Z ->
     pick list seed offset
     = list !! Z.to_nat (even_neighbour (seed + offset)
                         mod Z.of_nat (length list)))
  ∧ pick (@nil A) seed offset = None.
Proof.
  intros Hne [Hpos _]. split; [by apply pick_member|].
  assert (0 < Z.of_nat (length list))%Z as HL by (destruct list; [done|simpl; lia]).
  split; [intros Hlt; apply pick_exact; [done|lia]|]. split; [|split; [|done]].
  - intros Hlt. rewrite !pick_exact by (done || lia).
    replace (seed + Z.of_nat (length list) + offset)%Z
      with (seed + offset + 1 * Z.of_nat (length list))%Z by lia.
    by rewrite Z.mod_add by lia.
  - intros Hrange. unfold pick, double_add.
    pose proof (double_of_Z_nonneg (seed + offset) Hpos) as Hsum.
    rewrite double_of_Z_rounds in * by done.
    destruct (length list =? 0)%nat eqn:Hlen; [apply Nat.eqb_eq in Hlen; lia|].
    cbv zeta. rewrite Z.rem_mod_nonneg by lia.
    pose proof (Z.mod_pos_bound (even_neighbour (seed + offset))
                  (Z.of_nat (length list)) HL).
    by destruct (Z.ltb_spec (even_neighbour (seed + offset)
                             mod Z.of_nat (length list)) 0); [lia|].
Qed.

(** X19: seeded by [hashString], [pick] always returns an element of a
    non-empty list, whatever the string and the non-negative offset. *)
Theorem pick_by_hash_is_defined {A} (list : list A) value offset :
  list ≠ [] -> (0 <= offset)%Z ->
  ∃ x, pick list (hashString value) offset = Some x ∧ x ∈ list.
Proof.
  intros Hne Hoff. apply pick_member; [done|].
  pose proof (hashString_bounds value). lia.
Qed.

Lemma string_length_app (s u : string) :
  String.length (s +:+ u) = (String.length s + String.length u)%nat.
Proof. induction s as [|c s IH]; simpl; [done|by rewrite IH]. Qed.

Lemma substring_length (s : string) : ∀ n,
  String.length (substring 0 n s) = (n `min` String.length s)%nat.
Proof.
  induction s as [|c s IH]; intros [|n]; simpl; try done. by rewrite IH.
Qed.

Lemma substring_prefix (s u : string) : ∀ n,
  (n <= String.length s)%nat ->
  substring 0 n (substring 0 n s +:+ u) = substring 0 n s.
Proof.
  induction s as [|c s IH]; intros [|n] Hn; simpl in *;
    try lia; try (by destruct u).
  f_equal. apply IH. lia.
Qed.

Lemma formatTaskSnippet_length task :
  (String.length (formatTaskSnippet task) <= 120)%nat.
Proof.
  unfold formatTaskSnippet.
  destruct (Nat.ltb_spec 120 (String.length task)); [|done].
  rewrite string_length_app, substring_length.
  change (String.length "...") with 3%nat. lia.
Qed.

(** X20: the snippet of a task never exceeds 120 characters: a task of at
    most 120 characters is kept as it is, a longer one becomes exactly 120
    characters that start with the first 117 characters of the task. *)
Theorem snippet_is_bounded task :
  (String.length (formatTaskSnippet task) <= 120)%nat
  ∧ ((String.length task <= 120)%nat -> formatTaskSnippet task = task)
  ∧ ((120 < String.length task)%nat ->
     String.length (formatTaskSnippet task) = 120%nat
     ∧ substring 0 117 (formatTaskSnippet task) = substring 0 117 task).
Proof.
  split; [apply formatTaskSnippet_length|]. unfold formatTaskSnippet.
  destruct (Nat.ltb_spec 120 (String.length task)) as [Hlong|Hshort].
  - split; [lia|]. intros _. split.
    + rewrite string_length_app, substring_length.
      change (String.length "...") with 3%nat. lia.
    + apply substring_prefix. lia.
  - split; [done|lia].
Qed.

(** X21: for a non-negative seed, [craftOutput] is an opener of
    [outputAngles], the quoted snippet of the task and a closer of
    [closingNotes]; no placeholder is printed and the text has at most 306
    characters, however long the task. *)
Theorem craftOutput_is_bounded task seed :
  (0 <= seed)%Z ->
  ∃ opener closer,
    opener ∈ outputAngles ∧ closer ∈ closingNotes
    ∧ craftOutput task seed
      = opener +:+ " Focused on " +:+ dq +:+ formatTaskSnippet task +:+ dq
        +:+ ". " +:+ closer
    ∧ (String.length (craftOutput task seed) <= 306)%nat.
Proof.
  intros Hseed.
  destruct (pick_member outputAngles seed 1) as (opener & Ho & Hoin); [done|lia|].
  destruct (pick_member closingNotes seed 2) as (closer & Hc & Hcin); [done|lia|].
  exists opener, closer. unfold craftOutput. rewrite Ho, Hc. simpl interpolate.
  split_and!; try done.
  pose proof (formatTaskSnippet_length task) as Hs.
  rewrite !string_length_app.
  assert (String.length opener <= 80)%nat.
  { unfold outputAngles in Hoin.
    repeat (apply elem_of_cons in Hoin as [->|Hoin]; [simpl; lia|]).
    by apply elem_of_nil in Hoin. }
  assert (String.length closer <= 90)%nat.
  { unfold closingNotes in Hcin.
    repeat (apply elem_of_cons in Hcin as [->|Hcin]; [simpl; lia|]).
    by apply elem_of_nil in Hcin. }
  simpl. lia.
Qed.

(** *** The toggles *)

Lemma toggle_member id prev x :
  x ∈ toggle id prev <-> (x = id ∧ id ∉ prev) ∨ (x ≠ id ∧ x ∈ prev).
Proof.
  unfold toggle. destruct (bool_decide_reflect (id ∈ prev)) as [Hin|Hout].
  - rewrite list_elem_of_filter. split; [tauto|].
    intros [[_ ?]|[? ?]]; [done|tauto].
  - rewrite elem_of_app, list_elem_of_singleton.
    destruct (decide (x = id)) as [->|Hne]; tauto.
Qed.

Lemma toggle_twice_member id prev x :
  x ∈ toggle id (toggle id prev) <-> x ∈ prev.
Proof.
  rewrite !toggle_member.
  destruct (decide (x = id)) as [->|Hne]; [|tauto].
  destruct (decide (id ∈ prev)); tauto.
Qed.

Lemma toggle_NoDup id prev : NoDup prev -> NoDup (toggle id prev).
Proof.
  intros Hnd. unfold toggle. destruct (bool_decide_reflect (id ∈ prev)).
  - by apply NoDup_filter.
  - apply NoDup_app. split_and!; [done| |apply NoDup_singleton].
    by intros x ? ->%list_elem_of_singleton.
Qed.

(** X22: a toggle flips the membership of its identifier and of no other:
    the identifier is selected afterwards exactly when it was not before, and
    every other identifier keeps its state. *)
Theorem toggle_flips_one_identifier id prev :
  (id ∈ toggleFramework id prev <-> id ∉ prev)
  ∧ (id ∈ toggleModel id prev <-> id ∉ prev)
  ∧ ∀ x, x ≠ id -> (x ∈ toggle id prev <-> x ∈ prev).
Proof.
  unfold toggleFramework, toggleModel. split_and!.
  - rewrite toggle_member. tauto.
  - rewrite toggle_member. tauto.
  - intros x Hne. rewrite toggle_member. tauto.
Qed.

(** X23: every selection reached from the initial ones by pressing
    catalogue buttons lists catalogue identifiers without repetition. *)
Theorem toggled_selection_is_clean catalogue start selection :
  selection_of catalogue start ->
  toggled catalogue start selection ->
  selection_of catalogue selection.
Proof.
  intros Hstart Ht. induction Ht as [|id selection Ht [Hnd Hsub] Hid]; [done|].
  split; [by apply toggle_NoDup|].
  intros x [[-> _]|[_ ?]]%toggle_member; auto.
Qed.

(** X24: pressing a button twice restores a selection that did not
    contain the identifier; for one that contained it, the same identifiers
    remain selected but the identifier moves to the end of the list. *)
Theorem toggle_twice id prev :
  (id ∉ prev -> toggle id (toggle id prev) = prev)
  ∧ (id ∈ prev -> NoDup prev ->
     toggle id (toggle id prev) = (base.filter (fun x => x ≠ id) prev ++ [id])%list
     ∧ toggle id (toggle id prev) ≡ₚ prev).
Proof.
  split.
  - intros Hout. unfold toggle at 2. rewrite bool_decide_eq_false_2 by done.
    unfold toggle. rewrite bool_decide_eq_true_2
      by (apply elem_of_app; right; by left).
    rewrite filter_app, filter_cons_False, filter_nil, app_nil_r by tauto.
    induction prev as [|y prev IH]; [done|].
    apply not_elem_of_cons in Hout as [? ?].
    rewrite filter_cons_True by done. by rewrite IH.
  - intros Hin Hnd.
    assert (toggle id (toggle id prev)
            = (base.filter (fun x => x ≠ id) prev ++ [id])%list) as Heq.
    { unfold toggle at 2. rewrite bool_decide_eq_true_2 by done.
      unfold toggle. rewrite bool_decide_eq_false_2; [done|].
      rewrite list_elem_of_filter. tauto. }
    split; [done|]. apply NoDup_Permutation; [|done|].
    + by do 2 apply toggle_NoDup.
    + apply toggle_twice_member.
Qed.

(** X25: deselecting and reselecting a framework, or a model, leaves the
    batch unchanged: same records, same order, although the selection list
    itself may have changed. *)
Theorem reselecting_keeps_the_batch worlds order nextTask id fs ms :
  buildComparisons worlds order nextTask
    (toggleFramework id (toggleFramework id fs)) ms
  = buildComparisons worlds order nextTask fs ms
  ∧ buildComparisons worlds order nextTask fs
      (toggleModel id (toggleModel id ms))
    = buildComparisons worlds order nextTask fs ms.
Proof.
  unfold buildComparisons, toggleFramework, toggleModel.
  assert (∀ ids, pickedFrameworks (toggle id (toggle id ids)) = pickedFrameworks ids)
    as Hf by (intros ids; apply list_filter_iff; intros fw; apply toggle_twice_member).
  assert (∀ ids, pickedModels (toggle id (toggle id ids)) = pickedModels ids)
    as Hm by (intros ids; apply list_filter_iff; intros m; apply toggle_twice_member).
  unfold combos_of. by rewrite Hf, Hm.
Qed.

(** X26: when the button is enabled and the selections hold catalogue
    identifiers, the batch has at least one combination; a blank task
    disables the button. *)
Theorem ready_batch_is_not_empty fs ms task :
  readyToCompare fs ms task = true ->
  fs ⊆ fw_id <$> frameworks ->
  ms ⊆ m_id <$> models ->
  combos_of fs ms ≠ [] ∧ trim task ≠ EmptyString.
Proof.
  unfold readyToCompare. intros [[Hf Hm]%andb_true_iff Ht]%andb_true_iff Hfs Hms.
  split.
  - destruct fs as [|f fs]; [done|]. destruct ms as [|m ms]; [done|].
    assert (f ∈ fw_id <$> frameworks) as Hfin by (apply Hfs; left).
    assert (m ∈ m_id <$> models) as Hmin by (apply Hms; left).
    apply list_elem_of_fmap in Hfin as (fw & -> & Hfw).
    apply list_elem_of_fmap in Hmin as (mo & -> & Hmo).
    assert ((fw, mo) ∈ combos_of (fw_id fw :: fs) (m_id mo :: ms)) as Hin.
    { unfold combos_of. apply list_elem_of_bind. exists fw. split.
      - apply list_elem_of_fmap. exists mo. split; [done|].
        apply list_elem_of_filter. split; [left|done].
      - apply list_elem_of_filter. split; [left|done]. }
    intros Hnil. rewrite Hnil in Hin. by apply elem_of_nil in Hin.
  - intros Hblank. rewrite Hblank in Ht. discriminate Ht.
Qed.

End HelperCoverage.

(** ** The earlier server: vendor routes *)

Section LegacyCoverage.
Import Js Promise Server Legacy Terms.
Context {rt : Runtime}.

Lemma string_app_assoc (s u v : string) : (s +:+ u) +:+ v = s +:+ u +:+ v.
Proof.
  induction s as [|c s IH]; [reflexivity|].
  change (String c ((s +:+ u) +:+ v) = String c (s +:+ u +:+ v)).
  by f_equal.
Qed.

(** [priceTable[model] ?? 0]: the table's rate for a listed identifier, the
    built-in for a name that [Object.prototype] defines, 0 for any other. *)
Lemma price_or_zero_rate model name :
  ToString model = Some name ->
  price_or_zero model
  = Some (if bool_decide (name ∈ Object_prototype_keys)
          then VBuiltin name
          else num (default 0%Q (priceTable !! name))).
Proof.
  intros Hname. unfold price_or_zero, priceTable_at. rewrite Hname. simpl.
  unfold literal_get, inherited.
  destruct (bool_decide_reflect (name ∈ Object_prototype_keys)) as [Hin|Hout].
  - by rewrite priceTable_inherited.
  - by destruct (priceTable !! name).
Qed.

(** The cost of a usable answer. *)
Lemma vendor_cost_reported usage tokens model :
  nullish (js_get_opt usage "cost") = false ->
  vendor_cost usage tokens model = Some (js_get_opt usage "cost").
Proof. intros H. unfold vendor_cost. by rewrite H. Qed.

Lemma vendor_cost_computed usage model t name :
  nullish (js_get_opt usage "cost") = true ->
  ToString model = Some name ->
  vendor_cost usage (num t) model
  = Some (if bool_decide (name ∈ Object_prototype_keys)
          then VNum NaN
          else num (t / 1000 * default 0%Q (priceTable !! name))).
Proof.
  intros H Hname. unfold vendor_cost. rewrite H.
  rewrite (price_or_zero_rate model name Hname).
  by destruct (bool_decide _).
Qed.

(** The run of a vendor route, by the answer of the vendor. *)
Lemma run_route_vendor_failed w v key task modelId :
  vendor_failed (net w (vendor_request v key task modelId)) ->
  run w (route_vendor v key task modelId)
  = ([EvFetch (vendor_request v key task modelId)], Fulfilled (unavailable v)).
Proof.
  intros Hfail. unfold route_vendor, callVendor, run. simpl.
  destruct (net w _) as [res|e]; simpl; [|done].
  destruct Hfail as [Hok|Hjson].
  - by rewrite Hok.
  - destruct (negb (ok res)); simpl; [done|].
    destruct (json res) as [data|e]; simpl; [|done].
    by destruct data.
Qed.

Lemma run_route_vendor_answered w v key task modelId res data :
  net w (vendor_request v key task modelId) = Fulfilled res ->
  ok res = true ->
  json res = Fulfilled data ->
  nullish data = false ->
  ∃ usage text steps quality coverage safety,
    js_get data "usage" = Some usage
    ∧ js_get data (text_key v) = Some text
    ∧ js_get data "steps" = Some steps
    ∧ js_get data "quality" = Some quality
    ∧ js_get data "coverage" = Some coverage
    ∧ js_get data "safety" = Some safety
    ∧ run w (route_vendor v key task modelId)
      = ([EvFetch (vendor_request v key task modelId)],
         Fulfilled
           match vendor_cost usage (js_nullish (js_get_opt usage "tokens") (num 0))
                   modelId with
           | Some cost =>
               VObj
                 [("output", js_or text (VStr EmptyString));
                  ("tokens", js_nullish (js_get_opt usage "tokens") (num 0));
                  ("cost", cost);
                  ("steps", js_or steps (VArr [VStr "Parsed task";
                                               VStr ("Executed " +:+ vendor_name v)]));
                  ("quality", js_nullish quality (num 0));
                  ("coverage", js_nullish coverage (num 0));
                  ("safety", js_nullish safety (num 0))]
           | None => unavailable v
           end).
Proof.
  intros Hn Hok Hjson Hdata.
  assert (∀ k, ∃ x, js_get data k = Some x) as Hget.
  { intros k. destruct data; try done; by eexists. }
  destruct (Hget "usage") as [usage Hu], (Hget (text_key v)) as [text Ht],
    (Hget "steps") as [steps Hs], (Hget "quality") as [quality Hq],
    (Hget "coverage") as [coverage Hc], (Hget "safety") as [safety Hsf].
  exists usage, text, steps, quality, coverage, safety.
  split_and!; try done.
  unfold route_vendor, callVendor, run. simpl.
  rewrite Hn. simpl. rewrite Hok. simpl. rewrite Hjson. simpl.
  rewrite Hu. simpl.
  destruct (vendor_cost usage _ modelId) as [cost|]; simpl; [|done].
  rewrite Ht. simpl. rewrite Hs. simpl.
  rewrite Hq. simpl. rewrite Hc. simpl. by rewrite Hsf.
Qed.

(** X27: when the vendor cannot be used (no answer, a status outside
    200-299, a body that is not JSON or is null), the AutoGen, CrewAI and
    LlamaIndex routes answer with the vendor's unavailable record: every
    metric 0, no steps, and no error key. *)
Theorem vendor_failure_gives_unavailable_record w v key task modelId :
  vendor_failed (net w (vendor_request v key task modelId)) ->
  (run w (route_vendor v key task modelId)).2 = Fulfilled (unavailable v)
  ∧ js_get (unavailable v) "output" = Some (VStr (vendor_name v +:+ " unavailable"))
  ∧ js_get (unavailable v) "tokens" = Some (num 0)
  ∧ js_get (unavailable v) "cost" = Some (num 0)
  ∧ js_get (unavailable v) "quality" = Some (num 0)
  ∧ js_get (unavailable v) "coverage" = Some (num 0)
  ∧ js_get (unavailable v) "safety" = Some (num 0)
  ∧ js_get (unavailable v) "steps" = Some (VArr [])
  ∧ js_get (unavailable v) "error" = Some VUndef.
Proof.
  intros Hfail. by rewrite run_route_vendor_failed.
Qed.

(** X28: a vendor route never rejects and always sends exactly one
    request, also when no key is configured: the bearer token is then the
    text undefined. *)
Theorem vendor_route_always_answers w v key task modelId :
  (∃ r, run w (route_vendor v key task modelId)
        = ([EvFetch (vendor_request v key task modelId)], Fulfilled r))
  ∧ header "Authorization" (headers (vendor_request v None task modelId))
    = Some "Bearer undefined".
Proof.
  split; [|done].
  destruct (net w (vendor_request v key task modelId)) as [res|e] eqn:Hn.
  - destruct (ok res) eqn:Hok.
    + destruct (json res) as [data|e] eqn:Hj.
      * destruct (nullish data) eqn:Hd.
        -- eexists. apply run_route_vendor_failed. rewrite Hn. simpl.
           right. by rewrite Hj.
        -- destruct (run_route_vendor_answered w v key task modelId res data)
             as (? & ? & ? & ? & ? & ? & _ & _ & _ & _ & _ & _ & ->); try done.
           by eexists.
      * eexists. apply run_route_vendor_failed. rewrite Hn. simpl.
        right. by rewrite Hj.
    + eexists. apply run_route_vendor_failed. rewrite Hn. simpl. by left.
  - eexists. apply run_route_vendor_failed. by rewrite Hn.
Qed.

(** X29: on a usable answer of the vendor, a cost reported by the vendor
    is returned as it is.  Without one the cost is computed from the tokens
    and the table, read without a check that the model identifier is one of
    its own keys: it is 0 for an identifier that neither the table nor
    [Object.prototype] defines, and NaN for a name that [Object.prototype]
    defines, such as constructor.  When the cost can be computed the route
    answers with it, with the reported tokens and with the reported quality,
    0 included, a missing quality becoming 0; when it cannot (the tokens or
    the model have no text) the route answers with the unavailable record. *)
Theorem vendor_answer_is_passed_through w v key task modelId res data usage :
  net w (vendor_request v key task modelId) = Fulfilled res ->
  ok res = true ->
  json res = Fulfilled data ->
  js_get data "usage" = Some usage ->
  let tokens := js_nullish (js_get_opt usage "tokens") (num 0) in
  (nullish (js_get_opt usage "cost") = false ->
   vendor_cost usage tokens modelId = Some (js_get_opt usage "cost"))
  ∧ (∀ t name,
       nullish (js_get_opt usage "cost") = true ->
       js_get_opt usage "tokens" = num t ->
       ToString modelId = Some name ->
       (name ∉ Object_prototype_keys -> priceTable !! name = None ->
        ∃ c, vendor_cost usage tokens modelId = Some (num c) ∧ (c == 0)%Q)
       ∧ (name ∈ Object_prototype_keys ->
          vendor_cost usage tokens modelId = Some (VNum NaN)))
  ∧ (∀ cost, vendor_cost usage tokens modelId = Some cost ->
       ∃ r, (run w (route_vendor v key task modelId)).2 = Fulfilled r
            ∧ js_get r "cost" = Some cost
            ∧ js_get r "tokens" = Some tokens
            ∧ ∀ q, js_get data "quality" = Some q ->
                   js_get r "quality" = Some (if nullish q then num 0 else q))
  ∧ (vendor_cost usage tokens modelId = None ->
     (run w (route_vendor v key task modelId)).2 = Fulfilled (unavailable v)).
Proof.
  intros Hn Hok Hjson Hu tokens.
  assert (nullish data = false) as Hd by (by destruct data).
  destruct (run_route_vendor_answered w v key task modelId res data)
    as (usage' & text & steps & quality & coverage & safety
        & Hu' & _ & _ & Hq & _ & _ & Hrun); try done.
  assert (usage' = usage) as -> by congruence.
  fold tokens in Hrun.
  split_and!.
  - apply vendor_cost_reported.
  - intros t name Hc Ht Hname.
    assert (tokens = num t) as -> by (subst tokens; by rewrite Ht).
    rewrite (vendor_cost_computed usage modelId t name Hc Hname).
    split.
    + intros Hout Hnone. rewrite bool_decide_eq_false_2, Hnone by done.
      eexists. split; [reflexivity|]. simpl. lra.
    + intros Hin. by rewrite bool_decide_eq_true_2.
  - intros cost Hcost. rewrite Hcost in Hrun. rewrite Hrun. cbn [snd].
    eexists. split; [done|]. split_and!; try done.
    intros q Hq'. rewrite Hq' in Hq. by injection Hq as <-.
  - intros Hnone. rewrite Hnone in Hrun. by rewrite Hrun.
Qed.

(** X30: without a configured key the LangGraph route of the earlier
    server sends no request and never rejects.  For a text task and a model
    identifier that has a text it answers with its canned record (tokens 150,
    cost 0.0006), whose output names the model and the first 50 characters of
    the task; for any other task, and for a model identifier without text,
    the concatenation throws and the route answers with its fallback record
    (tokens 120, cost 0.0004). *)
Theorem keyless_langgraph_route_is_canned w key task modelId :
  env_set key = false ->
  ∃ r,
    run w (route_langgraph key task modelId) = ([], Fulfilled r)
    ∧ ((∃ s m,
          task = VStr s ∧ ToString modelId = Some m
          ∧ js_get r "output"
            = Some (VStr ("LangGraph with " +:+ m +:+ ": "
                          +:+ substring 0 50 s +:+ "..."))
          ∧ js_get r "tokens" = Some (num 150)
          ∧ js_get r "cost" = Some (num 0.0006))
       ∨ ((is_string task = false ∨ ToString modelId = None)
          ∧ r = langgraph_fallback
          ∧ js_get r "tokens" = Some (num 120)
          ∧ js_get r "cost" = Some (num 0.0004))).
Proof.
  intros Hkey. unfold route_langgraph, langgraph_stub. rewrite Hkey.
  rewrite js_add_text_l.
  destruct (ToString modelId) as [m|] eqn:Hm; simpl.
  2:{ exists langgraph_fallback. split; [done|]. right. split_and!; by auto. }
  destruct task as [| |b|n|s|items|props|name];
    try (exists langgraph_fallback; split; [done|]; right; split_and!;
         by auto).
  eexists. split; [reflexivity|]. left. exists s, m. split_and!; try done.
  simpl. do 2 f_equal. by rewrite !string_app_assoc.
Qed.

End LegacyCoverage.

(** ** Concrete runs for the further properties *)

Section CoverageRuns.
Import Js Promise Server Client App Helpers Legacy Terms.
#[local] Existing Instance Sample.runtime.

Lemma sample_request_built :
  request_of Sample.key Sample.task Sample.model "LangGraph"
    ["Graph-structured"; "Cyclic"; "Stateful"; "Precise control flow"]
    "Define Graph State -> Node: Retrieve -> Node: Grade check -> Node: Generate -> Edge: End"
  = Some sample_request.
Proof. reflexivity. Qed.

(** A task without text: the promise of the adapter is rejected, with or
    without a usable key. *)
Example textless_task_is_rejected :
  ToString Sample.textless = None
  ∧ ∃ e,
      run (Sample.world (Sample.response 200 EmptyString Sample.completion))
          (api_langgraph Sample.key Sample.textless Sample.model)
      = ([EvSleep 100], Rejected e)
      ∧ run (Sample.world (Sample.response 200 EmptyString Sample.completion))
            (api_langgraph None Sample.textless Sample.model)
        = ([EvSleep 100], Rejected e).
Proof. split; [reflexivity|]. by eexists. Qed.

Lemma unusable_answer_is_mocked_witness :
  key_unusable Sample.key = false
  ∧ upstream_result null_answer = None
  ∧ ∃ taskText,
      ToString Sample.task = Some taskText
      ∧ run (Sample.world null_answer)
            (api_langgraph Sample.key Sample.task Sample.model)
        = ([EvFetch sample_request; EvSleep 100],
           Fulfilled (mock_record "LangGraph" taskText)).
Proof.
  split; [reflexivity|]. split; [reflexivity|].
  exact (unusable_answer_is_mocked (Sample.world null_answer)
           Sample.key Sample.task Sample.model "LangGraph" _ _ sample_request
           eq_refl sample_request_built (conj eq_refl (or_introl eq_refl))).
Defined.

Lemma live_path_succeeds_iff_witness :
  (∃ r, live_success
          (Sample.world (Sample.response 200 EmptyString Sample.completion))
          Sample.key Sample.task Sample.model "LangGraph"
          ["Graph-structured"; "Cyclic"; "Stateful"; "Precise control flow"]
          "Define Graph State -> Node: Retrieve -> Node: Grade check -> Node: Generate -> Edge: End"
          (Sample.response 200 EmptyString Sample.completion) r)
  <-> ∃ result tokens output logs,
        upstream_result (Sample.response 200 EmptyString Sample.completion)
        = Some result
        ∧ upstream_tokens (Sample.response 200 EmptyString Sample.completion)
          = Some tokens
        ∧ js_get result "output" = Some output
        ∧ js_get result "logs" = Some logs
        ∧ is_Some (ToString tokens)
        ∧ is_Some (ToString output)
        ∧ is_Some (ToString logs).
Proof.
  exact (live_path_succeeds_iff
           (Sample.world (Sample.response 200 EmptyString Sample.completion))
           Sample.key Sample.task Sample.model "LangGraph" _ _ sample_request
           (Sample.response 200 EmptyString Sample.completion)
           eq_refl sample_request_built eq_refl eq_refl).
Defined.


Lemma unknown_framework_is_rejected_unsent_witness :
  PROVIDER_MAP !! "haystack" = None
  ∧ run Terms.offline (runAgent "Summarize AI agents" "haystack" "gpt-41")
    = ([], Rejected (new_Error "No endpoint for haystack"))
  ∧ PROVIDER_MAP !! "constructor" = None
  ∧ (run Terms.offline (runAgent "Summarize AI agents" "constructor" "gpt-41")).1
    = [EvFetch (provider_request "function Object() { [native code] }"
                  "Summarize AI agents" "gpt-41")].
Proof.
  assert (PROVIDER_MAP !! "haystack" = None) as H by reflexivity.
  assert (PROVIDER_MAP !! "constructor" = None) as H' by reflexivity.
  assert ("haystack" ∉ Object_prototype_keys) as Hout
    by (apply (bool_decide_unpack _); by vm_compute).
  assert ("constructor" ∈ Object_prototype_keys) as Hin by left.
  split; [exact H|]. split.
  - exact (proj1 (proj1 (unknown_framework_is_rejected_unsent Terms.offline
                           "Summarize AI agents" "haystack" "gpt-41" H) Hout)).
  - split; [exact H'|].
    exact (proj2 (unknown_framework_is_rejected_unsent Terms.offline
                    "Summarize AI agents" "constructor" "gpt-41" H') Hin).
Defined.

Lemma provider_error_becomes_error_record_witness :
  error (record_of Sample.worlds_500 "Summarize AI agents" 0 (langgraph, gpt_41))
  = VStr "Provider error: 500"
  ∧ ¬ valid (record_of Sample.worlds_500 "Summarize AI agents" 0 (langgraph, gpt_41)).
Proof.
  destruct (provider_error_becomes_error_record Sample.worlds_500
              "Summarize AI agents" 0 (langgraph, gpt_41)
              (Sample.response 500 "Internal Server Error" VNull))
    as (Herr & _ & _ & _ & _ & Hinv).
  - left.
  - reflexivity.
  - reflexivity.
  - split; [exact Herr|exact Hinv].
Defined.

Lemma fulfilled_result_has_every_metric_witness :
  ∃ v,
    (run (Sample.world (Sample.response 200 EmptyString (VObj [])))
         (runAgent "Summarize AI agents" "langgraph" "gpt-41")).2 = Fulfilled v
    ∧ tokens (metrics v) = num 0
    ∧ nullish (safety (metrics v)) = false
    ∧ nullish (steps v) = false.
Proof.
  eexists. split; [reflexivity|]. split; [reflexivity|].
  match goal with |- nullish (safety (metrics ?v)) = _ ∧ _ =>
    destruct (fulfilled_result_has_every_metric
                (Sample.world (Sample.response 200 EmptyString (VObj [])))
                "Summarize AI agents" "langgraph" "gpt-41" v eq_refl)
      as (_ & _ & _ & _ & Hs & _ & Hst)
  end.
  split; [exact Hs|exact Hst].
Defined.

Lemma each_combination_posts_once_witness :
  combos_of ["langgraph"] ["gpt-41"] !! 0 = Some (langgraph, gpt_41)
  ∧ (run (Sample.worlds_ok 0)
         (combo_call "Summarize AI agents" (langgraph, gpt_41))).1
    = [EvFetch {| url := "/api/langgraph"; method := "POST";
                  headers := [("Content-Type", "application/json")];
                  body := VObj [("task", VStr "Summarize AI agents");
                                ("modelId", VStr "gpt-41")] |}].
Proof.
  assert (combos_of ["langgraph"] ["gpt-41"] !! 0 = Some (langgraph, gpt_41))
    as H by reflexivity.
  split; [exact H|].
  exact (each_combination_posts_once Sample.worlds_ok "Summarize AI agents"
           ["langgraph"] ["gpt-41"] 0 (langgraph, gpt_41) H).
Defined.

Lemma pending_batch_is_not_delivered_witness :
  1 < length (combos_of ["langgraph"; "autogen"] ["gpt-41"])
  ∧ (1 ∉ [0])
  ∧ buildComparisons Sample.worlds_ok [0] "Summarize AI agents"
      ["langgraph"; "autogen"] ["gpt-41"] = None.
Proof.
  assert (1 < length (combos_of ["langgraph"; "autogen"] ["gpt-41"])) as Hlt
    by (vm_compute; lia).
  assert (1 ∉ [0]) as Hni by (by intros [=]%list_elem_of_singleton).
  split; [exact Hlt|]. split; [exact Hni|].
  exact (pending_batch_is_not_delivered Sample.worlds_ok [0]
           "Summarize AI agents" ["langgraph"; "autogen"] ["gpt-41"] 1 Hlt Hni).
Defined.

Lemma batch_depends_on_membership_only_witness :
  buildComparisons Sample.worlds_ok [0; 1] "Summarize AI agents"
    ["autogen"; "langgraph"; "autogen"] ["gpt-41"]
  = buildComparisons Sample.worlds_ok [0; 1] "Summarize AI agents"
      ["langgraph"; "autogen"] ["gpt-41"].
Proof.
  apply batch_depends_on_membership_only.
  - intros x. rewrite !elem_of_cons. tauto.
  - tauto.
Defined.

Lemma sample_batch :
  ∃ runs, buildComparisons Sample.worlds_ok [1; 0] "Summarize AI agents"
            ["langgraph"; "autogen"] ["gpt-41"] = Some runs.
Proof. by eexists. Qed.

Lemma record_ids_are_distinct_witness :
  ∃ runs,
    buildComparisons Sample.worlds_ok [1; 0] "Summarize AI agents"
      ["langgraph"; "autogen"] ["gpt-41"] = Some runs
    ∧ NoDup (id <$> runs).
Proof.
  destruct sample_batch as [runs Hruns]. exists runs. split; [exact Hruns|].
  exact (record_ids_are_distinct _ _ _ _ _ runs Hruns).
Defined.

Lemma sample_failed_calls i c :
  combos_of ["langgraph"; "autogen"] ["gpt-41"] !! i = Some c ->
  ∃ e, (run (Sample.worlds_500 i)
            (runAgent "Summarize AI agents" (fw_id c.1) (m_id c.2))).2
       = Rejected e.
Proof.
  destruct i as [|[|i]]; [| |done]; intros [= <-]; by eexists.
Qed.

Lemma all_rejected_batch_has_no_data_witness :
  [1; 0] ≡ₚ seq 0 (length (combos_of ["langgraph"; "autogen"] ["gpt-41"]))
  ∧ ∃ runs,
      buildComparisons Sample.worlds_500 [1; 0] "Summarize AI agents"
        ["langgraph"; "autogen"] ["gpt-41"] = Some runs
      ∧ length runs = 2
      ∧ aggregateHighlights runs = Some NoData.
Proof.
  assert ([1; 0] ≡ₚ seq 0 (length (combos_of ["langgraph"; "autogen"] ["gpt-41"])))
    as Hperm by apply perm_swap.
  split; [exact Hperm|].
  destruct (all_rejected_batch_has_no_data Sample.worlds_500 [1; 0]
              "Summarize AI agents" ["langgraph"; "autogen"] ["gpt-41"]
              Hperm sample_failed_calls)
    as (runs & Hruns & Hlen & _ & Hagg).
  exists runs. split; [exact Hruns|]. split; [exact Hlen|exact Hagg].
Defined.

Lemma sample_selections :
  selection_of (fw_id <$> frameworks) ["autogen"; "langgraph"]
  ∧ selection_of (m_id <$> models) ["gpt-41"].
Proof.
  split; (split; [apply (bool_decide_unpack _); by vm_compute|]).
  - intros x. rewrite !elem_of_cons. intros [->|[->|[]%elem_of_nil]].
    + right. left.
    + left.
  - intros x [->|[]%elem_of_nil]%elem_of_cons. left.
Qed.

Lemma selection_record_count_witness :
  ∃ runs,
    buildComparisons Sample.worlds_ok [1; 0] "Summarize AI agents"
      ["autogen"; "langgraph"] ["gpt-41"] = Some runs
    ∧ length runs = 2.
Proof.
  assert (∃ runs, buildComparisons Sample.worlds_ok [1; 0] "Summarize AI agents"
            ["autogen"; "langgraph"] ["gpt-41"] = Some runs) as [runs Hruns]
    by (by eexists).
  exists runs. split; [exact Hruns|].
  exact (selection_record_count _ _ _ _ _ runs
           (proj1 sample_selections) (proj2 sample_selections) Hruns).
Defined.

Lemma highlights_are_valid_records_witness :
  ∃ f' c' h',
    Some Sample.first_ok = Some f' ∧ Some Sample.first_ok = Some c'
    ∧ Some Sample.first_ok = Some h'
    ∧ (f' ∈ Sample.runs ∧ valid f') ∧ (c' ∈ Sample.runs ∧ valid c')
    ∧ (h' ∈ Sample.runs ∧ valid h').
Proof.
  exact (highlights_are_valid_records Sample.runs _ _ _ _ aggregate_sample_runs).
Defined.

Lemma pick_returns_an_element_witness :
  ∃ x, pick outputAngles 6 1 = Some x ∧ x ∈ outputAngles.
Proof.
  refine (proj1 (pick_returns_an_element outputAngles 6 1 _ _)).
  - discriminate.
  - split; [lia|reflexivity].
Defined.

(** From 2^53 on the sum of [pick] is rounded: a full turn of a list of
    three elements from the seed 2^53 - 1 lands on another element. *)
Example pick_rounds_from_2_53 :
  pick ["a"; "b"; "c"] (2 ^ 53 - 1) 1 = Some "c"
  ∧ even_neighbour (2 ^ 53 - 1 + 3 + 1) = (2 ^ 53 + 4)%Z
  ∧ pick ["a"; "b"; "c"] (2 ^ 53 - 1 + 3) 1 = Some "a".
Proof. by vm_compute. Qed.

Lemma pick_by_hash_is_defined_witness :
  ∃ x, pick closingNotes (hashString "Summarize AI agents") 2 = Some x
       ∧ x ∈ closingNotes.
Proof.
  refine (pick_by_hash_is_defined closingNotes "Summarize AI agents" 2 _ _).
  - discriminate.
  - lia.
Defined.

Lemma craftOutput_is_bounded_witness :
  ∃ opener closer,
    opener ∈ outputAngles ∧ closer ∈ closingNotes
    ∧ craftOutput "Summarize AI agents" 7
      = opener +:+ " Focused on " +:+ dq
        +:+ formatTaskSnippet "Summarize AI agents" +:+ dq +:+ ". " +:+ closer
    ∧ (String.length (craftOutput "Summarize AI agents" 7) <= 306)%nat.
Proof.
  refine (craftOutput_is_bounded "Summarize AI agents" 7 _). lia.
Defined.

Lemma sample_initial_selection :
  selection_of (fw_id <$> frameworks) initialFrameworks.
Proof.
  split; [apply framework_ids_NoDup|]. by intros x.
Qed.

Lemma toggled_selection_is_clean_witness :
  toggled (fw_id <$> frameworks) initialFrameworks
    (toggle "langgraph" (toggle "langgraph" initialFrameworks))
  ∧ toggle "langgraph" (toggle "langgraph" initialFrameworks)
    = ["autogen"; "crewai"; "llamaindex"; "langgraph"]
  ∧ selection_of (fw_id <$> frameworks)
      (toggle "langgraph" (toggle "langgraph" initialFrameworks)).
Proof.
  assert (toggled (fw_id <$> frameworks) initialFrameworks
            (toggle "langgraph" (toggle "langgraph" initialFrameworks))) as Ht.
  { do 2 (apply toggled_press; [|left]). apply toggled_start. }
  split; [exact Ht|]. split; [reflexivity|].
  exact (toggled_selection_is_clean _ _ _ sample_initial_selection Ht).
Defined.

Lemma ready_batch_is_not_empty_witness :
  readyToCompare ["langgraph"] ["gpt-41"] "Summarize AI agents" = true
  ∧ combos_of ["langgraph"] ["gpt-41"] ≠ [].
Proof.
  split; [reflexivity|].
  refine (proj1 (ready_batch_is_not_empty ["langgraph"] ["gpt-41"]
                   "Summarize AI agents" eq_refl _ _)).
  - intros x ->%list_elem_of_singleton. left.
  - intros x ->%list_elem_of_singleton. left.
Defined.

Lemma vendor_failure_gives_unavailable_record_witness :
  vendor_failed (net Terms.offline
                   (vendor_request AutoGen None Sample.task Sample.model))
  ∧ (run Terms.offline (route_autogen None Sample.task Sample.model)).2
    = Fulfilled (unavailable AutoGen).
Proof.
  split; [exact I|].
  exact (proj1 (vendor_failure_gives_unavailable_record Terms.offline AutoGen
                  None Sample.task Sample.model I)).
Defined.

Lemma vendor_answer_is_passed_through_witness :
  ∃ r,
    (run (Sample.world vendor_answer)
         (route_autogen None Sample.task Sample.model)).2 = Fulfilled r
    ∧ js_get r "cost" = Some (num 0.01)
    ∧ js_get r "quality" = Some (num 0).
Proof.
  destruct (vendor_answer_is_passed_through (Sample.world vendor_answer) AutoGen
              None Sample.task Sample.model vendor_answer vendor_data
              vendor_usage eq_refl eq_refl eq_refl eq_refl)
    as (Hcost & _ & Hrun & _).
  destruct (Hrun (num 0.01) (Hcost eq_refl)) as (r & Hr & Hc & _ & Hq).
  exists r. split; [exact Hr|]. split; [exact Hc|exact (Hq (num 0) eq_refl)].
Defined.

(** A vendor that reports no cost, for the model identifier constructor:
    the cost is NaN. *)
Example vendor_cost_of_inherited_name :
  vendor_cost (VObj [("tokens", num 400)]) (num 400) (VStr "constructor")
  = Some (VNum NaN).
Proof. reflexivity. Qed.

Lemma keyless_langgraph_route_is_canned_witness :
  env_set None = false
  ∧ ∃ r,
      run Terms.offline (route_langgraph None Sample.task Sample.model)
      = ([], Fulfilled r)
      ∧ js_get r "tokens" = Some (num 150)
      ∧ js_get r "cost" = Some (num 0.0006).
Proof.
  split; [reflexivity|].
  destruct (keyless_langgraph_route_is_canned Terms.offline None Sample.task
              Sample.model eq_refl)
    as (r & Hr & [(s & m & _ & _ & _ & Ht & Hc)|([Hs|Hm] & _)]).
  - exists r. split; [exact Hr|]. split; [exact Ht|exact Hc].
  - discriminate Hs.
  - discriminate Hm.
Defined.

(** A text task with a model identifier that has no text: the fallback. *)
Example keyless_langgraph_textless_model :
  run Terms.offline (route_langgraph None Sample.task Sample.textless)
  = ([], Fulfilled langgraph_fallback).
Proof. reflexivity. Qed.

End CoverageRuns.
